(** * Token-based authentication flow: access / refresh token lifecycle

    Shallow embedding of the Express handlers of the auth server
    ([register], [login], [me], [logout], [refresh], [createTokens],
    [setAuthCookies], [errorHandler]), of the earlier [signUp] / [signIn]
    controllers with their hand-written cookie parsing, and of the API behind
    the auth server (the [authenticate] middleware and the posts
    controllers), together with the properties of the token lifecycle.

    Handlers are [async] functions: every [await] is a point where the
    event loop may run another request.  They are therefore written in a
    small free monad [Prog] whose operations are the awaited (and the few
    synchronous, effectful) library calls.  One program has two readings:
    [run], the sequential execution of a single request, and [step], one
    scheduling quantum, from which interleavings of concurrent requests are
    built. *)

From Stdlib Require Import String Ascii List ZArith Bool Lia Arith PeanoNat.
From Stdlib Require Import DecimalString DecimalNat.
Import ListNotations.
Local Open Scope string_scope.
Local Open Scope list_scope.

Set Implicit Arguments.

(* ================================================================== *)
(** ** JavaScript values shared by both servers *)

Module Js.

(** [!x] for a value that is either [undefined] or a string. *)
Definition falsy (x : option string) : bool :=
  match x with
  | None => true
  | Some s => String.eqb s ""
  end.

(** The classes of the exceptions that can reach a [catch] block or the
    error handler. *)
Inductive ErrorClass : Type :=
| PlainError
| TokenExpiredError
| JsonWebTokenError
| NotBeforeError
| MongoServerError
| CastError.

(** The [cause] option of [new Error(message, { cause })]: the auth server
    passes an object [{ status, code? }], the older controllers a bare
    status number. *)
Inductive Cause : Type :=
| CauseObject (status : option nat) (code : option string)
| CauseNumber (n : nat).

Record JsError : Type := mkError {
  e_class : ErrorClass;
  e_message : string;
  e_cause : option Cause
}.

(** Anything can be thrown; only [Error] instances carry a message. *)
Inductive Thrown : Type :=
| IsError (e : JsError)
| NotAnError.

(** [new Error(message, { cause: { status } })] *)
Definition new_Error (message : string) (status : nat) : Thrown :=
  IsError (mkError PlainError message (Some (CauseObject (Some status) None))).

(** [new Error(message, { cause: { status, code } })] *)
Definition new_Error_code (message : string) (status : nat) (code : string) : Thrown :=
  IsError (mkError PlainError message (Some (CauseObject (Some status) (Some code)))).

(** [new Error(message, { cause: n })] *)
Definition new_Error_num (message : string) (n : nat) : Thrown :=
  IsError (mkError PlainError message (Some (CauseNumber n))).

(** [error instanceof jwt.TokenExpiredError] *)
Definition instanceof_TokenExpiredError (t : Thrown) : bool :=
  match t with
  | IsError e => match e_class e with TokenExpiredError => true | _ => false end
  | NotAnError => false
  end.

(** The double quote character, for header values. *)
Definition dq : string := String "034"%char EmptyString.

End Js.
Import Js.

(* ================================================================== *)
(** ** Programs with awaits *)

Section Free.

Variable Op : Type -> Type.

(** A handler body: it returns, throws, or awaits an operation and goes
    on with its result. *)
Inductive Prog (A : Type) : Type :=
| Ret (a : A)
| Throw (e : Thrown)
| Await (X : Type) (op : Op X) (k : X -> Prog A).

Arguments Ret {A} a.
Arguments Throw {A} e.
Arguments Await {A X} op k.

Fixpoint bind {A B : Type} (p : Prog A) (f : A -> Prog B) : Prog B :=
  match p with
  | Ret a => f a
  | Throw e => Throw e
  | Await op k => Await op (fun x => bind (k x) f)
  end.

(** [try { p } catch (error) { h error }] *)
Fixpoint try_catch {A : Type} (p : Prog A) (h : Thrown -> Prog A) : Prog A :=
  match p with
  | Ret a => Ret a
  | Throw e => h e
  | Await op k => Await op (fun x => try_catch (k x) h)
  end.

Definition await {X : Type} (op : Op X) : Prog X := Await op (fun x => Ret x).

(** An awaited call that may reject. *)
Definition await_or_throw {X : Type} (op : Op (Thrown + X)) : Prog X :=
  Await op (fun r => match r with
                     | inl e => Throw e
                     | inr x => Ret x
                     end).

(** An operation seen without its result type, for traces. *)
Inductive Event : Type :=
| Ev (X : Type) (op : Op X).

Section Semantics.

Variable W : Type.
Variable exec : forall X : Type, Op X -> W -> X * W.
Variable is_async : forall X : Type, Op X -> bool.

(** Sequential execution of one request, start to end. *)
Fixpoint run {A : Type} (p : Prog A) (w : W) : (Thrown + A) * W :=
  match p with
  | Ret a => (inr a, w)
  | Throw e => (inl e, w)
  | Await op k => let (x, w') := exec op w in run (k x) w'
  end.

(** The operations a sequential execution performs, in order. *)
Fixpoint trace {A : Type} (p : Prog A) (w : W) : list Event :=
  match p with
  | Ret _ => []
  | Throw _ => []
  | Await op k => let (x, w') := exec op w in Ev op :: trace (k x) w'
  end.

(** One scheduling quantum: the synchronous operations up to and
    including the next awaited one.  A finished program stays put. *)
Fixpoint step {A : Type} (p : Prog A) (w : W) : Prog A * W :=
  match p with
  | Await op k =>
      let (x, w') := exec op w in
      if is_async op then (k x, w') else step (k x) w'
  | _ => (p, w)
  end.

Definition finished {A : Type} (p : Prog A) : bool :=
  match p with
  | Await _ _ => false
  | _ => true
  end.

(** Two requests in flight on one event loop. *)
Inductive Tid : Type := ReqA | ReqB.

Definition Duo (A : Type) : Type := (Prog A * Prog A * W)%type.

Definition sched_step {A : Type} (t : Tid) (c : Duo A) : Duo A :=
  let '(pa, pb, w) := c in
  match t with
  | ReqA => let (pa', w') := step pa w in (pa', pb, w')
  | ReqB => let (pb', w') := step pb w in (pa, pb', w')
  end.



Fixpoint sched_run {A : Type} (sched : list Tid) (c : Duo A) : Duo A :=
  match sched with
  | [] => c
  | t :: rest => sched_run rest (sched_step t c)
  end.

End Semantics.

End Free.

Arguments Ret {Op A} a.
Arguments Throw {Op A} e.
Arguments Await {Op A X} op k.
Arguments await {Op X} op.
Arguments await_or_throw {Op X} op.
Arguments Ev {Op X} op.

Declare Scope prog_scope.
Delimit Scope prog_scope with prog.
Notation "x <- c ;; k" := (bind c (fun x => k))
  (at level 61, c at next level, right associativity) : prog_scope.
Notation "' pat <- c ;; k" := (bind c (fun x => match x with pat => k end))
  (at level 61, pat pattern, c at next level, right associativity) : prog_scope.

(* ================================================================== *)
(** ** The auth server (TypeScript, Mongoose, cookies) *)

Module AuthServer.

(** *** Documents, requests and responses *)

Definition ObjectId : Type := nat.

(** [_id.toString()] and the cast Mongoose applies to a string id. *)
Definition ObjectId_toString (id : ObjectId) : string :=
  NilZero.string_of_uint (Nat.to_uint id).

Definition ObjectId_cast (s : string) : option ObjectId :=
  option_map Nat.of_uint (NilZero.uint_of_string s).

(** [userSchema]: [roles] defaults to [['user']], [createdAt] is set by
    the [timestamps] option. *)
Record User : Type := mkUser {
  u_id : ObjectId;
  u_firstName : string;
  u_lastName : string;
  u_email : string;
  u_password : string;
  u_roles : list string;
  u_createdAt : Z
}.

(** [refreshTokenSchema]: [expireAt] defaults to
    [Date.now() + REFRESH_TOKEN_TTL * 1000]. *)
Record RefreshToken : Type := mkRefreshToken {
  rt_id : ObjectId;
  rt_token : string;
  rt_userId : ObjectId;
  rt_expireAt : Z;
  rt_createdAt : Z
}.

(** The decoded payload of an access token. *)
Record JwtPayload : Type := mkJwtPayload {
  jwt_sub : option string;
  jwt_roles : list string;
  jwt_iat : Z;
  jwt_exp : Z
}.

Record Body : Type := mkBody {
  email : string;
  password : string;
  firstName : string;
  lastName : string
}.

Record Cookies : Type := mkCookies {
  accessToken : option string;
  refreshToken : option string
}.

Record Request : Type := mkRequest {
  body : Body;
  cookies : Cookies
}.

Inductive SameSite : Type := SameSiteNone | SameSiteLax.

Record Cookie : Type := mkCookie {
  ck_name : string;
  ck_value : string;
  ck_httpOnly : bool;
  ck_sameSite : SameSite;
  ck_secure : bool;
  ck_maxAge : option Z
}.

Inductive Json : Type :=
| NoBody
| JMessage (message : string)
| JMessageUser (message : string) (user : User).

Record Response : Type := mkResponse {
  res_statusCode : nat;
  res_headers : list (string * string);
  res_cookies : list Cookie;
  res_cleared : list string;
  res_body : Json
}.

(** A fresh response object: Express answers 200 unless told otherwise. *)
Definition res0 : Response := mkResponse 200 [] [] [] NoBody.

Definition res_status (res : Response) (code : nat) : Response :=
  mkResponse code (res_headers res) (res_cookies res) (res_cleared res) (res_body res).

Definition res_json (res : Response) (j : Json) : Response :=
  mkResponse (res_statusCode res) (res_headers res) (res_cookies res) (res_cleared res) j.

Definition res_setHeader (res : Response) (name value : string) : Response :=
  mkResponse (res_statusCode res) (res_headers res ++ [(name, value)])
             (res_cookies res) (res_cleared res) (res_body res).

Definition res_cookie (res : Response) (c : Cookie) : Response :=
  mkResponse (res_statusCode res) (res_headers res) (res_cookies res ++ [c])
             (res_cleared res) (res_body res).

Definition res_clearCookie (res : Response) (name : string) : Response :=
  mkResponse (res_statusCode res) (res_headers res) (res_cookies res)
             (res_cleared res ++ [name]) (res_body res).

(** *** Configuration and libraries

    [#config] and the [bcrypt] and [jsonwebtoken] packages are not part of
    the repository; the handlers are parametric in them. *)

Record Config : Type := mkConfig {
  ACCESS_JWT_SECRET : string;
  ACCESS_TOKEN_TTL : Z;
  REFRESH_TOKEN_TTL : Z;
  SALT_ROUNDS : nat;
  isProduction : bool
}.

Record Libs : Type := mkLibs {
  bcrypt_genSalt : nat -> string -> string;
  bcrypt_hash : string -> string -> string;
  bcrypt_compare : string -> string -> bool;
  jwt_sign : list string -> string -> Z -> string -> Z -> string;
  jwt_verify : string -> string -> Z -> Thrown + JwtPayload
}.

(** *** The world a request runs in: the two collections, the ObjectId
    counter, the clock, and the sources of randomness. *)

Record World : Type := mkWorld {
  users : list User;
  refreshTokens : list RefreshToken;
  nextId : nat;
  now : Z;
  uuidGen : nat -> string;
  uuidCtr : nat;
  randomBytes : nat -> string;
  randomCtr : nat
}.

Definition set_users (w : World) (us : list User) (n : nat) : World :=
  mkWorld us (refreshTokens w) n (now w) (uuidGen w) (uuidCtr w)
          (randomBytes w) (randomCtr w).

Definition set_refreshTokens (w : World) (ts : list RefreshToken) (n : nat) : World :=
  mkWorld (users w) ts n (now w) (uuidGen w) (uuidCtr w)
          (randomBytes w) (randomCtr w).

Definition draw_uuid (w : World) : string * World :=
  (uuidGen w (uuidCtr w),
   mkWorld (users w) (refreshTokens w) (nextId w) (now w) (uuidGen w) (S (uuidCtr w))
           (randomBytes w) (randomCtr w)).

Definition draw_random (w : World) : string * World :=
  (randomBytes w (randomCtr w),
   mkWorld (users w) (refreshTokens w) (nextId w) (now w) (uuidGen w) (uuidCtr w)
           (randomBytes w) (S (randomCtr w))).

(** Time passes between requests. *)
Definition set_now (t : Z) (w : World) : World :=
  mkWorld (users w) (refreshTokens w) (nextId w) t (uuidGen w) (uuidCtr w)
          (randomBytes w) (randomCtr w).

(** The TTL index [{ expireAt: 1 }, { expireAfterSeconds: 0 }]: the
    background task of the database removes the documents whose
    [expireAt] has passed. *)
Definition ttl_sweep (w : World) : World :=
  set_refreshTokens w
    (filter (fun r => Z.ltb (now w) (rt_expireAt r)) (refreshTokens w)) (nextId w).

(** [deleteOne]-style removal: the first match only. *)
Fixpoint remove_first {A : Type} (p : A -> bool) (l : list A) : list A :=
  match l with
  | [] => []
  | x :: t => if p x then t else x :: remove_first p t
  end.

Definition by_email (e : string) (u : User) : bool := String.eqb (u_email u) e.
Definition by_uid (id : ObjectId) (u : User) : bool := Nat.eqb (u_id u) id.
Definition by_token (v : string) (r : RefreshToken) : bool := String.eqb (rt_token r) v.
Definition by_rtid (id : ObjectId) (r : RefreshToken) : bool := Nat.eqb (rt_id r) id.
Definition by_userId (id : ObjectId) (r : RefreshToken) : bool := Nat.eqb (rt_userId r) id.

(** A write that violates a [unique: true] index. *)
Definition duplicate_key : Thrown :=
  IsError (mkError MongoServerError "E11000 duplicate key error" None).

Definition cast_error : Thrown :=
  IsError (mkError CastError "Cast to ObjectId failed" None).

(** *** Operations *)

Inductive Op : Type -> Type :=
| User_exists (email : string) : Op (option ObjectId)
| User_findOne (email : string) : Op (option User)
| User_findById (id : ObjectId) : Op (option User)
| User_findById_string (id : string) : Op (Thrown + option User)
| User_create (email password firstName lastName : string) : Op (Thrown + User)
| RefreshToken_findOne (token : string) : Op (option RefreshToken)
| RefreshToken_findByIdAndDelete (id : ObjectId) : Op (option RefreshToken)
| RefreshToken_deleteMany (userId : ObjectId) : Op nat
| RefreshToken_deleteOne (token : string) : Op nat
| RefreshToken_create (token : string) (userId : ObjectId) : Op (Thrown + RefreshToken)
| Bcrypt_genSalt (rounds : nat) : Op string
| Bcrypt_hash (data salt : string) : Op string
| Bcrypt_compare (data encrypted : string) : Op bool
| RandomUUID : Op string
| Jwt_sign (roles : list string) (secret : string) (expiresIn : Z) (subject : string) : Op string
| Jwt_verify (token secret : string) : Op (Thrown + JwtPayload).

(** Everything awaited yields to the event loop; [randomUUID], [jwt.sign]
    and [jwt.verify] are synchronous calls. *)
Definition is_async (X : Type) (op : Op X) : bool :=
  match op with
  | RandomUUID => false
  | Jwt_sign _ _ _ _ => false
  | Jwt_verify _ _ => false
  | _ => true
  end.

Section Handlers.

Variable cfg : Config.
Variable lib : Libs.

Definition exec (X : Type) (op : Op X) (w : World) : X * World :=
  match op in Op X return X * World with
  | User_exists e =>
      (option_map u_id (find (by_email e) (users w)), w)
  | User_findOne e =>
      (find (by_email e) (users w), w)
  | User_findById id =>
      (find (by_uid id) (users w), w)
  | User_findById_string s =>
      match ObjectId_cast s with
      | None => (inl cast_error, w)
      | Some id => (inr (find (by_uid id) (users w)), w)
      end
  | User_create e pw fn ln =>
      if existsb (by_email e) (users w) then (inl duplicate_key, w)
      else
        let u := mkUser (nextId w) fn ln e pw ["user"] (now w) in
        (inr u, set_users w (users w ++ [u]) (S (nextId w)))
  | RefreshToken_findOne v =>
      (find (by_token v) (refreshTokens w), w)
  | RefreshToken_findByIdAndDelete id =>
      (find (by_rtid id) (refreshTokens w),
       set_refreshTokens w (remove_first (by_rtid id) (refreshTokens w)) (nextId w))
  | RefreshToken_deleteMany uid =>
      (length (filter (by_userId uid) (refreshTokens w)),
       set_refreshTokens w
         (filter (fun r => negb (by_userId uid r)) (refreshTokens w)) (nextId w))
  | RefreshToken_deleteOne v =>
      ((if existsb (by_token v) (refreshTokens w) then 1 else 0)%nat,
       set_refreshTokens w (remove_first (by_token v) (refreshTokens w)) (nextId w))
  | RefreshToken_create v uid =>
      if existsb (by_token v) (refreshTokens w) then (inl duplicate_key, w)
      else
        let r := mkRefreshToken (nextId w) v uid
                   (now w + REFRESH_TOKEN_TTL cfg * 1000)%Z (now w) in
        (inr r, set_refreshTokens w (refreshTokens w ++ [r]) (S (nextId w)))
  | Bcrypt_genSalt rounds =>
      let (bytes, w') := draw_random w in (bcrypt_genSalt lib rounds bytes, w')
  | Bcrypt_hash data salt => (bcrypt_hash lib data salt, w)
  | Bcrypt_compare data encrypted => (bcrypt_compare lib data encrypted, w)
  | RandomUUID => draw_uuid w
  | Jwt_sign roles secret expiresIn subject =>
      (jwt_sign lib roles secret expiresIn subject (now w), w)
  | Jwt_verify token secret => (jwt_verify lib token secret (now w), w)
  end.

Local Open Scope prog_scope.

(** *** Utilities *)

Definition createTokens (userData : User) : Prog Op (string * string) :=
  (* refresh token *)
  refreshToken <- await RandomUUID ;;
  _ <- await_or_throw (RefreshToken_create refreshToken (u_id userData)) ;;
  (* access token *)
  accessToken <- await (Jwt_sign (u_roles userData) (ACCESS_JWT_SECRET cfg)
                                 (ACCESS_TOKEN_TTL cfg)
                                 (ObjectId_toString (u_id userData))) ;;
  Ret (refreshToken, accessToken).

Definition cookieOptions (name value : string) (maxAge : option Z) : Cookie :=
  mkCookie name value true
           (if isProduction cfg then SameSiteNone else SameSiteLax)
           (isProduction cfg) maxAge.

Definition setAuthCookies (res : Response) (refreshToken accessToken : string) : Response :=
  let res := res_cookie res
               (cookieOptions "refreshToken" refreshToken
                              (Some (REFRESH_TOKEN_TTL cfg * 1000)%Z)) in
  res_cookie res (cookieOptions "accessToken" accessToken None).

(** *** Controllers *)

Definition register (req : Request) : Prog Op Response :=
  let b := body req in
  userExists <- await (User_exists (email b)) ;;
  match userExists with
  | Some _ => Throw (new_Error "Email already exists" 409)
  | None =>
      salt <- await (Bcrypt_genSalt (SALT_ROUNDS cfg)) ;;
      hashedPW <- await (Bcrypt_hash (password b) salt) ;;
      user <- await_or_throw (User_create (email b) hashedPW (firstName b) (lastName b)) ;;
      ' (refreshToken, accessToken) <- createTokens user ;;
      let res := setAuthCookies res0 refreshToken accessToken in
      Ret (res_json (res_status res 201) (JMessage "Registered"))
  end.

Definition login (req : Request) : Prog Op Response :=
  let b := body req in
  user <- await (User_findOne (email b)) ;;
  match user with
  | None => Throw (new_Error "Incorrect credentials" 401)
  | Some user =>
      matched <- await (Bcrypt_compare (password b) (u_password user)) ;;
      if negb matched then Throw (new_Error "Incorrect credentials" 401)
      else
        _ <- await (RefreshToken_deleteMany (u_id user)) ;;
        ' (refreshToken, accessToken) <- createTokens user ;;
        let res := setAuthCookies res0 refreshToken accessToken in
        Ret (res_json (res_status res 200) (JMessage "Logged in"))
  end.

(** [next(err)] and [throw err] both land in the error handler. *)
Definition me (req : Request) : Prog Op Response :=
  match accessToken (cookies req) with
  | None => Throw (new_Error "Access token is required." 401)
  | Some token =>
      if String.eqb token "" then Throw (new_Error "Access token is required." 401)
      else
        try_catch
          (decoded <- await_or_throw (Jwt_verify token (ACCESS_JWT_SECRET cfg)) ;;
           match jwt_sub decoded with
           | None => Throw (new_Error "Invalid or expired access token." 403)
           | Some sub =>
               if String.eqb sub ""
               then Throw (new_Error "Invalid or expired access token." 403)
               else
                 user <- await_or_throw (User_findById_string sub) ;;
                 match user with
                 | None => Throw (new_Error "User not found" 404)
                 | Some user =>
                     Ret (res_json (res_status res0 200)
                                   (JMessageUser "Valid token" user))
                 end
           end)
          (fun error =>
             if instanceof_TokenExpiredError error
             then Throw (new_Error_code "Expired access token" 401
                                        "ACCESS_TOKEN_EXPIRED")
             else Throw (new_Error "Invalid access token." 401))
  end.

Definition logout (req : Request) : Prog Op Response :=
  let rt := refreshToken (cookies req) in
  _ <- (match rt with
        | None => Ret 0%nat
        | Some v => if String.eqb v "" then Ret 0%nat
                    else await (RefreshToken_deleteOne v)
        end) ;;
  let res := res_clearCookie res0 "refreshToken" in
  let res := res_clearCookie res "accessToken" in
  Ret (res_json res (JMessage "Successfully logged out")).

Definition refresh (req : Request) : Prog Op Response :=
  match refreshToken (cookies req) with
  | None => Throw (new_Error "Refresh token is required." 401)
  | Some v =>
      if String.eqb v "" then Throw (new_Error "Refresh token is required." 401)
      else
        storedToken <- await (RefreshToken_findOne v) ;;
        match storedToken with
        | None => Throw (new_Error "Refresh token not found." 403)
        | Some storedToken =>
            _ <- await (RefreshToken_findByIdAndDelete (rt_id storedToken)) ;;
            user <- await (User_findById (rt_userId storedToken)) ;;
            match user with
            | None => Throw (new_Error "User not found." 403)
            | Some user =>
                ' (newRefreshToken, newAccessToken) <- createTokens user ;;
                let res := setAuthCookies res0 newRefreshToken newAccessToken in
                Ret (res_json res (JMessage "Refreshed"))
            end
        end
  end.

(** *** Error handler *)

Definition www_authenticate_expired : string :=
  "Bearer error=" ++ dq ++ "token_expired" ++ dq ++
  ", error_description=" ++ dq ++ "The access token expired" ++ dq.

Definition cause_truthy (c : option Cause) : bool :=
  match c with
  | None => false
  | Some (CauseObject _ _) => true
  | Some (CauseNumber n) => negb (Nat.eqb n 0)
  end.

Definition cause_status (c : option Cause) : option nat :=
  match c with
  | Some (CauseObject s _) => s
  | _ => None
  end.

Definition cause_code (c : option Cause) : option string :=
  match c with
  | Some (CauseObject _ code) => code
  | _ => None
  end.

Definition errorHandler (err : Thrown) : Response :=
  match err with
  | IsError e =>
      let payload := JMessage (e_message e) in
      if cause_truthy (e_cause e) then
        let res :=
          match cause_code (e_cause e) with
          | Some code =>
              if String.eqb code "ACCESS_TOKEN_EXPIRED"
              then res_setHeader res0 "WWW-Authenticate" www_authenticate_expired
              else res0
          | None => res0
          end in
        res_json (res_status res (match cause_status (e_cause e) with
                                  | Some s => s
                                  | None => 500
                                  end)) payload
      else res_json (res_status res0 500) payload
  | NotAnError => res_json (res_status res0 500) (JMessage "Internal server error")
  end.

(** What the client receives for one request served alone. *)
Definition respond (r : Thrown + Response) : Response :=
  match r with
  | inl err => errorHandler err
  | inr res => res
  end.

Definition serve (h : Request -> Prog Op Response) (req : Request) (w : World)
  : Response * World :=
  let (r, w') := run exec (h req) w in (respond r, w').

End Handlers.

(** *** Vocabulary of the properties *)

(** What the collections guarantee by themselves: [_id] is a primary key,
    [token] and [email] carry a [unique] index, and every id in use was
    handed out by the ObjectId counter. *)
Definition store_ok (w : World) : Prop :=
  NoDup (map rt_id (refreshTokens w)) /\
  NoDup (map rt_token (refreshTokens w)) /\
  (forall r, In r (refreshTokens w) -> rt_id r < nextId w /\ rt_userId r < nextId w) /\
  NoDup (map u_id (users w)) /\
  NoDup (map u_email (users w)) /\
  (forall u, In u (users w) -> u_id u < nextId w).

(** The value [v] is no longer stored and [randomUUID] will not produce it
    again. *)
Definition retired (v : string) (w : World) : Prop :=
  (forall r, In r (refreshTokens w) -> rt_token r <> v) /\
  (forall n, uuidCtr w <= n -> uuidGen w n <> v).

(** [randomUUID] does not repeat a value that is stored, nor itself. *)
Definition uuid_source_ok (w : World) : Prop :=
  (forall n r, uuidCtr w <= n -> In r (refreshTokens w) -> rt_token r <> uuidGen w n) /\
  (forall n m, uuidCtr w <= n -> uuidCtr w <= m -> uuidGen w n = uuidGen w m -> n = m).

(** The RefreshToken rows of one user. *)
Definition tokens_of (uid : ObjectId) (w : World) : list RefreshToken :=
  filter (by_userId uid) (refreshTokens w).

(** The rows of [w'] that did not exist in [w]. *)
Definition new_rows (w w' : World) : list RefreshToken :=
  filter (fun r => negb (existsb (by_rtid (rt_id r)) (refreshTokens w)))
         (refreshTokens w').

(** A request that carries only a refresh cookie. *)
Definition refresh_request (v : string) : Request :=
  mkRequest (mkBody "" "" "" "") (mkCookies None (Some v)).

Definition has_header (name : string) (res : Response) : bool :=
  existsb (fun h => String.eqb (fst h) name) (res_headers res).

(** Whatever can happen between two requests of interest: other requests,
    time passing, the TTL task of the database. *)
Inductive Call : Type :=
| CallRegister (req : Request)
| CallLogin (req : Request)
| CallMe (req : Request)
| CallLogout (req : Request)
| CallRefresh (req : Request)
| Elapse (t : Z)
| TtlSweep.

(** The collection only changes by deletions and by rows whose token was
    drawn from [randomUUID] in the meantime. *)
Definition evolves (w w' : World) : Prop :=
  uuidGen w' = uuidGen w /\
  uuidCtr w <= uuidCtr w' /\
  (forall r, In r (refreshTokens w') ->
     In r (refreshTokens w) \/
     exists n, uuidCtr w <= n < uuidCtr w' /\ rt_token r = uuidGen w n).

(** Every operation but a [RefreshToken.create] with a caller-chosen token. *)
Definition benign (X : Type) (op : Op X) : Prop :=
  match op with
  | RefreshToken_create _ _ => False
  | _ => True
  end.

Definition outcome {A : Type} (p : Prog Op A) : option (Thrown + A) :=
  match p with
  | Ret a => Some (inr a)
  | Throw e => Some (inl e)
  | Await _ _ => None
  end.

Section Calls.

Variable cfg : Config.
Variable lib : Libs.

(** A program all of whose executions let the world evolve. *)
Definition safe {A : Type} (p : Prog Op A) : Prop :=
  forall w, evolves w (snd (run (exec cfg lib) p w)).

Definition run_call (c : Call) (w : World) : World :=
  match c with
  | CallRegister req => snd (run (exec cfg lib) (register cfg req) w)
  | CallLogin req => snd (run (exec cfg lib) (login cfg req) w)
  | CallMe req => snd (run (exec cfg lib) (me cfg req) w)
  | CallLogout req => snd (run (exec cfg lib) (logout req) w)
  | CallRefresh req => snd (run (exec cfg lib) (refresh cfg req) w)
  | Elapse t => set_now t w
  | TtlSweep => ttl_sweep w
  end.

Definition run_calls (cs : list Call) (w : World) : World :=
  fold_left (fun w c => run_call c w) cs w.

(** What [createTokens] does for [u] in [w] when the drawn value is not
    stored yet: the row it stores, the access token it signs, the world it
    leaves. *)
Definition issued_row (u : User) (w : World) : RefreshToken :=
  mkRefreshToken (nextId w) (uuidGen w (uuidCtr w)) (u_id u)
                 (now w + REFRESH_TOKEN_TTL cfg * 1000)%Z (now w).

Definition issued_access (u : User) (w : World) : string :=
  jwt_sign lib (u_roles u) (ACCESS_JWT_SECRET cfg) (ACCESS_TOKEN_TTL cfg)
           (ObjectId_toString (u_id u)) (now w).

Definition after_issue (u : User) (w : World) : World :=
  set_refreshTokens (snd (draw_uuid w)) (refreshTokens w ++ [issued_row u w])
                    (S (nextId w)).

(** The user [register] creates for body [b] in [w], and the world after
    [User.create]. *)
Definition registered_user (b : Body) (w : World) : User :=
  mkUser (nextId w) (firstName b) (lastName b) (email b)
         (bcrypt_hash lib (password b)
            (bcrypt_genSalt lib (SALT_ROUNDS cfg) (randomBytes w (randomCtr w))))
         ["user"] (now w).

Definition after_create_user (b : Body) (w : World) : World :=
  set_users (snd (draw_random w)) (users w ++ [registered_user b w]) (S (nextId w)).

(** How [jwt.verify] judges the access cookie of a request: rejected as
    expired, or rejected for another reason (bad signature, malformed). *)
Definition access_token_expired (req : Request) (w : World) : bool :=
  match accessToken (cookies req) with
  | Some token =>
      negb (String.eqb token "") &&
      match jwt_verify lib token (ACCESS_JWT_SECRET cfg) (now w) with
      | inl e => instanceof_TokenExpiredError e
      | inr _ => false
      end
  | None => false
  end.

Definition access_token_invalid (req : Request) (w : World) : bool :=
  match accessToken (cookies req) with
  | Some token =>
      negb (String.eqb token "") &&
      match jwt_verify lib token (ACCESS_JWT_SECRET cfg) (now w) with
      | inl e => negb (instanceof_TokenExpiredError e)
      | inr _ => false
      end
  | None => false
  end.

(** The world after [deleteMany({ userId })]. *)
Definition signed_out (uid : ObjectId) (w : World) : World :=
  set_refreshTokens w (filter (fun r => negb (by_userId uid r)) (refreshTokens w))
                    (nextId w).

(** What a successful [login] and a successful [register] answer. *)
Definition session_response (status : nat) (message : string) (u : User) (w : World)
  : Response :=
  res_json (res_status (setAuthCookies cfg res0 (uuidGen w (uuidCtr w))
                                       (issued_access u w))
                       status)
           (JMessage message).

(** The world after [findByIdAndDelete(st._id)]. *)
Definition rotated (st : RefreshToken) (w : World) : World :=
  set_refreshTokens w (remove_first (by_rtid (rt_id st)) (refreshTokens w)) (nextId w).






(** The status the client of a finished request sees. *)
Definition final_status (p : Prog Op Response) : option nat :=
  option_map (fun r => res_statusCode (respond r)) (outcome p).



(** Passive expiry as the claim states it: a stored row past its
    [expireAt] is refused even though it is still in the collection. *)
Definition expired_rows_are_refused : Prop :=
  forall (w : World) (r : RefreshToken),
    store_ok w -> uuid_source_ok w ->
    In r (refreshTokens w) -> rt_token r <> "" ->
    (rt_expireAt r < now w)%Z ->
    res_statusCode (fst (serve cfg lib (refresh cfg) (refresh_request (rt_token r)) w)) = 403.

End Calls.

End AuthServer.


(* ================================================================== *)
(** ** The earlier auth controllers (JavaScript, [sanitizedBody], numeric
    causes) *)

Module Legacy.

Definition ObjectId : Type := nat.

Record Location : Type := mkLocation {
  country : string;
  zipCode : string;
  city : string
}.

(** [userSchema] of [models/User.js].  [password] is declared
    [select: false]: a document that comes back from a query lacks the path
    unless the query selects it; the document [create] returns holds every
    path that was set. *)
Record UserDoc : Type := mkUserDoc {
  d_id : ObjectId;
  d_firstName : string;
  d_lastName : string;
  d_email : string;
  d_password : option string;
  d_location : Location;
  d_myPond : list ObjectId;
  d_createdAt : Z;
  d_updatedAt : Z
}.

Definition deselect_password (d : UserDoc) : UserDoc :=
  mkUserDoc (d_id d) (d_firstName d) (d_lastName d) (d_email d) None
            (d_location d) (d_myPond d) (d_createdAt d) (d_updatedAt d).

(** The body after [validateBody(userSchema)]. *)
Record SanitizedBody : Type := mkSanitizedBody {
  email : string;
  password : string;
  firstName : string;
  lastName : string
}.

Record Request : Type := mkRequest {
  sanitizedBody : SanitizedBody
}.

Inductive Json : Type :=
| NoBody
| JUser (user : UserDoc)
| JMessage (message : string).

Record Response : Type := mkResponse {
  res_statusCode : nat;
  res_cookies : list AuthServer.Cookie;
  res_body : Json
}.

Definition res0 : Response := mkResponse 200 [] NoBody.

Record Env : Type := mkEnv {
  JWT_SECRET : string;
  isProduction : bool
}.

Record Libs : Type := mkLibs {
  bcrypt_genSalt : nat -> string -> string;
  bcrypt_hash : string -> string -> string;
  bcrypt_compare : string -> string -> bool;
  jwt_sign : ObjectId -> string -> string -> Z -> string
}.

Record World : Type := mkWorld {
  users : list UserDoc;
  nextId : nat;
  now : Z;
  randomBytes : nat -> string;
  randomCtr : nat
}.

Definition by_email (e : string) (d : UserDoc) : bool := String.eqb (d_email d) e.

Inductive Op : Type -> Type :=
| User_findOne (email : string) : Op (option UserDoc)
| User_findOne_select_password (email : string) : Op (option UserDoc)
| User_create (body : SanitizedBody) (password : string) : Op (Thrown + UserDoc)
| Bcrypt_hash_rounds (data : string) (rounds : nat) : Op string
| Bcrypt_compare (data encrypted : string) : Op bool
| Jwt_sign (userId : ObjectId) (secret expiresIn : string) : Op string.

Definition is_async (X : Type) (op : Op X) : bool :=
  match op with
  | Jwt_sign _ _ _ => false
  | _ => true
  end.

Section Controllers.

Variable env : Env.
Variable lib : Libs.

Definition exec (X : Type) (op : Op X) (w : World) : X * World :=
  match op in Op X return X * World with
  | User_findOne e =>
      (option_map deselect_password (find (by_email e) (users w)), w)
  | User_findOne_select_password e =>
      (find (by_email e) (users w), w)
  | User_create b pw =>
      if existsb (by_email (email b)) (users w)
      then (inl AuthServer.duplicate_key, w)
      else
        let d := mkUserDoc (nextId w) (firstName b) (lastName b) (email b) (Some pw)
                           (mkLocation "Germany" "" "") [] (now w) (now w) in
        (inr d, mkWorld (users w ++ [d]) (S (nextId w)) (now w)
                        (randomBytes w) (randomCtr w))
  | Bcrypt_hash_rounds data rounds =>
      (bcrypt_hash lib data (bcrypt_genSalt lib rounds (randomBytes w (randomCtr w))),
       mkWorld (users w) (nextId w) (now w) (randomBytes w) (S (randomCtr w)))
  | Bcrypt_compare data encrypted => (bcrypt_compare lib data encrypted, w)
  | Jwt_sign uid secret expiresIn => (jwt_sign lib uid secret expiresIn (now w), w)
  end.

Local Open Scope prog_scope.

Definition signUp (req : Request) : Prog Op Response :=
  let b := sanitizedBody req in
  found <- await (User_findOne (email b)) ;;
  match found with
  | Some _ => Throw (new_Error_num "Email already exists" 400)
  | None =>
      hashedPassword <- await (Bcrypt_hash_rounds (password b) 10) ;;
      user <- await_or_throw (User_create b hashedPassword) ;;
      Ret (mkResponse (res_statusCode res0) (res_cookies res0) (JUser user))
  end.

Definition cookieOptions (name value : string) : AuthServer.Cookie :=
  AuthServer.mkCookie name value true
    (if isProduction env then AuthServer.SameSiteNone else AuthServer.SameSiteLax)
    (isProduction env) None.

(** [signIn] as the lecture builds it from [signUp], step by step. *)
Definition signIn (req : Request) : Prog Op Response :=
  let b := sanitizedBody req in
  user <- await (User_findOne_select_password (email b)) ;;
  match user with
  | None => Throw (new_Error_num "User not found" 404)
  | Some user =>
      match d_password user with
      | None => Throw (IsError (mkError PlainError "data and hash arguments required" None))
      | Some hash =>
          passwordMatch <- await (Bcrypt_compare (password b) hash) ;;
          if negb passwordMatch
          then Throw (new_Error_num "Invalid email or password" 401)
          else
            token <- await (Jwt_sign (d_id user) (JWT_SECRET env) "6d") ;;
            Ret (mkResponse 201 (res_cookies res0 ++ [cookieOptions "token" token])
                            (JMessage "Welcome back"))
      end
  end.

(** Registration as the claims state it, read on [signUp]: a duplicate
    email is refused with 409, and a fresh one is answered with a refresh
    and an access credential. *)
Definition duplicate_is_conflict : Prop :=
  forall (req : Request) (w : World) (d : UserDoc),
    find (by_email (email (sanitizedBody req))) (users w) = Some d ->
    exists err : Thrown,
      fst (run exec (signUp req) w) = inl err /\
      match err with
      | IsError e =>
          match e_cause e with
          | Some (CauseObject st _) => st = Some 409
          | Some (CauseNumber n) => n = 409
          | None => False
          end
      | NotAnError => False
      end.

Definition registration_issues_session : Prop :=
  forall (req : Request) (w : World),
    find (by_email (email (sanitizedBody req))) (users w) = None ->
    exists res : Response,
      fst (run exec (signUp req) w) = inr res /\
      existsb (fun c => String.eqb (AuthServer.ck_name c) "refreshToken") (res_cookies res)
      = true /\
      existsb (fun c => String.eqb (AuthServer.ck_name c) "accessToken") (res_cookies res)
      = true.

End Controllers.

End Legacy.

(** The status an error carries in its [cause], whichever of the two shapes
    the thrower used. *)
Definition carried_status (t : Thrown) : option nat :=
  match t with
  | IsError e =>
      match e_cause e with
      | Some (CauseObject s _) => s
      | Some (CauseNumber n) => Some n
      | None => None
      end
  | NotAnError => None
  end.

Definition thrown_message (t : Thrown) : option string :=
  match t with
  | IsError e => Some (e_message e)
  | NotAnError => None
  end.

(* ================================================================== *)
(** ** Vocabulary of the session flow *)

Module Flow.

Import AuthServer.

(** A request that carries only an access cookie. *)
Definition access_request (t : string) : Request :=
  mkRequest (mkBody "" "" "" "") (mkCookies (Some t) None).

(** The value of the cookie [name] in the [Set-Cookie] headers of a
    response, if there is one. *)
Definition cookie_value (name : string) (res : Response) : option string :=
  option_map ck_value (find (fun c => String.eqb (ck_name c) name) (res_cookies res)).

(** The controllers of the auth server. *)
Definition auth_controllers (cfg : Config) : list (Request -> Prog Op Response) :=
  [register cfg; login cfg; me cfg; logout; refresh cfg].

(** What [cookieOptions] promises of a cookie: not readable by scripts,
    [Secure] exactly in production, and [SameSite=None] only together with
    [Secure]. *)
Definition hardened (cfg : Config) (c : Cookie) : Prop :=
  ck_httpOnly c = true /\
  ck_secure c = isProduction cfg /\
  (ck_sameSite c = SameSiteNone -> ck_secure c = true).

(** The two cookies of a session: the refresh cookie lives as long as its
    row, the access cookie is a session cookie. *)
Definition session_cookies (cfg : Config) (res : Response) : Prop :=
  exists refreshValue accessValue : string,
    res_cookies res =
    [ mkCookie "refreshToken" refreshValue true
               (if isProduction cfg then SameSiteNone else SameSiteLax)
               (isProduction cfg) (Some (REFRESH_TOKEN_TTL cfg * 1000)%Z);
      mkCookie "accessToken" accessValue true
               (if isProduction cfg then SameSiteNone else SameSiteLax)
               (isProduction cfg) None ].

(** The user the subject of a decoded access token designates. *)
Definition payload_user (p : JwtPayload) (w : World) : option User :=
  match jwt_sub p with
  | None => None
  | Some sub =>
      if String.eqb sub "" then None
      else match ObjectId_cast sub with
           | None => None
           | Some id => find (by_uid id) (users w)
           end
  end.

End Flow.

(* ================================================================== *)
(** ** The Travel Journal API: the [authenticate] middleware and the posts
    controllers *)

Module Api.

Definition ObjectId : Type := AuthServer.ObjectId.

(** A post.  The [Post] model is not part of the repository: what the
    controllers show of it is the [_id], the [author] path they populate,
    and that every other path is set from the request body. *)
Record Post : Type := mkPost {
  p_id : ObjectId;
  p_author : ObjectId;
  p_fields : list (string * string)
}.

(** [req.body] of the routes that write, as the validation middleware in
    front of the controller passes it on. *)
Record PostBody : Type := mkPostBody {
  b_author : ObjectId;
  b_fields : list (string * string)
}.

(** A post after [populate('author')]: the [author] path holds the user
    document, or [null] when no such user exists. *)
Definition Populated : Type := (Post * option AuthServer.User)%type.

(** [req.user], set by [authenticate]. *)
Record ReqUser : Type := mkReqUser {
  ru_id : string;
  ru_roles : list string
}.

Record Request : Type := mkRequest {
  params_id : string;
  body : PostBody;
  accessToken : option string;
  user : option ReqUser
}.

Inductive Json : Type :=
| NoBody
| JPosts (posts : list Populated)
| JPost (post : Populated)
| JSuccess (success : string).

Record Response : Type := mkResponse {
  res_statusCode : nat;
  res_body : Json
}.

Definition res0 : Response := mkResponse 200 NoBody.

Definition res_status (res : Response) (code : nat) : Response :=
  mkResponse code (res_body res).

Definition res_json (res : Response) (j : Json) : Response :=
  mkResponse (res_statusCode res) j.

Record World : Type := mkWorld {
  posts : list Post;
  users : list AuthServer.User;
  nextId : nat;
  now : Z
}.

Definition set_posts (w : World) (ps : list Post) (n : nat) : World :=
  mkWorld ps (users w) n (now w).

Definition by_pid (id : ObjectId) (p : Post) : bool := Nat.eqb (p_id p) id.

Definition populate (w : World) (p : Post) : Populated :=
  (p, find (AuthServer.by_uid (p_author p)) (users w)).

(** [isValidObjectId(id)]: the string can be cast to an ObjectId. *)
Definition isValidObjectId (id : string) : bool :=
  match AuthServer.ObjectId_cast id with
  | Some _ => true
  | None => false
  end.

(** [$set] of one path: a document that has the path gets the new value in
    its place, a document that lacks it gets the path added. *)
Fixpoint set_path (name value : string) (fields : list (string * string))
  : list (string * string) :=
  match fields with
  | [] => [(name, value)]
  | f :: rest =>
      if String.eqb (fst f) name then (name, value) :: rest
      else f :: set_path name value rest
  end.

(** [$set] of the paths of an update, one after the other: the paths the
    update does not name stay as they are. *)
Definition set_paths (update fields : list (string * string)) : list (string * string) :=
  fold_left (fun acc f => set_path (fst f) (snd f) acc) update fields.

(** Reading one path of a document. *)
Definition path (name : string) (fields : list (string * string)) : option string :=
  option_map snd (find (fun f => String.eqb (fst f) name) fields).

(** [findByIdAndUpdate(id, update)] is a [$set] on the first document with
    the id: the paths the body names ([author] and those of [b_fields]) take
    its values, every other path and the [_id] stay. *)
Fixpoint update_first (id : ObjectId) (b : PostBody) (l : list Post) : list Post :=
  match l with
  | [] => []
  | p :: t =>
      if by_pid id p
      then mkPost (p_id p) (b_author b) (set_paths (b_fields b) (p_fields p)) :: t
      else p :: update_first id b t
  end.

Inductive Op : Type -> Type :=
| Post_find : Op (list Populated)
| Post_create (doc : PostBody) : Op Post
| Post_populate (p : Post) : Op Populated
| Post_findById (id : string) : Op (Thrown + option Populated)
| Post_findByIdAndUpdate (id : string) (update : PostBody) : Op (Thrown + option Populated)
| Post_findByIdAndDelete (id : string) : Op (Thrown + option Populated)
| Jwt_verify (token secret : string) : Op (Thrown + AuthServer.JwtPayload).

Definition is_async (X : Type) (op : Op X) : bool :=
  match op with
  | Jwt_verify _ _ => false
  | _ => true
  end.

Section Controllers.

(** [process.env.ACCESS_JWT_SECRET] and the [jsonwebtoken] package. *)
Variable secret : string.
Variable lib : AuthServer.Libs.

Definition exec (X : Type) (op : Op X) (w : World) : X * World :=
  match op in Op X return X * World with
  | Post_find => (map (populate w) (posts w), w)
  | Post_create doc =>
      let p := mkPost (nextId w) (b_author doc) (b_fields doc) in
      (p, set_posts w (posts w ++ [p]) (S (nextId w)))
  | Post_populate p => (populate w p, w)
  | Post_findById id =>
      match AuthServer.ObjectId_cast id with
      | None => (inl AuthServer.cast_error, w)
      | Some oid => (inr (option_map (populate w) (find (by_pid oid) (posts w))), w)
      end
  | Post_findByIdAndUpdate id update =>
      match AuthServer.ObjectId_cast id with
      | None => (inl AuthServer.cast_error, w)
      | Some oid =>
          let w' := set_posts w (update_first oid update (posts w)) (nextId w) in
          (inr (option_map (populate w') (find (by_pid oid) (posts w'))), w')
      end
  | Post_findByIdAndDelete id =>
      match AuthServer.ObjectId_cast id with
      | None => (inl AuthServer.cast_error, w)
      | Some oid =>
          (inr (option_map (populate w) (find (by_pid oid) (posts w))),
           set_posts w (AuthServer.remove_first (by_pid oid) (posts w)) (nextId w))
      end
  | Jwt_verify token key => (AuthServer.jwt_verify lib token key (now w), w)
  end.

Local Open Scope prog_scope.

(** *** Middleware *)

(** [authenticate].  The assignment of [req.user] reads [decoded], which is
    in scope inside the [try] block only; [next(err)] and [throw err] both
    land in the error handler, [next()] hands the request on. *)
Definition authenticate (req : Request) : Prog Op Request :=
  match accessToken req with
  | None => Throw (new_Error "Not authenticated" 401)
  | Some token =>
      if String.eqb token "" then Throw (new_Error "Not authenticated" 401)
      else
        try_catch
          (decoded <- await_or_throw (Jwt_verify token secret) ;;
           match AuthServer.jwt_sub decoded with
           | None => Throw (new_Error "Invalid or expired access token." 403)
           | Some sub =>
               if String.eqb sub ""
               then Throw (new_Error "Invalid or expired access token." 403)
               else
                 let user := mkReqUser sub (AuthServer.jwt_roles decoded) in
                 Ret (mkRequest (params_id req) (body req) (accessToken req) (Some user))
           end)
          (fun error =>
             if instanceof_TokenExpiredError error
             then Throw (new_Error_code "Expired access token" 401
                                        "ACCESS_TOKEN_EXPIRED")
             else Throw (new_Error "Invalid access token." 401))
  end.

(** *** Controllers *)

Definition getAllPosts (_req : Request) : Prog Op Response :=
  posts <- await Post_find ;;
  Ret (res_json res0 (JPosts posts)).

Definition createPost (req : Request) : Prog Op Response :=
  created <- await (Post_create (body req)) ;;
  newPost <- await (Post_populate created) ;;
  Ret (res_json (res_status res0 201) (JPost newPost)).

Definition not_found (id : string) : Thrown :=
  new_Error_num ("Post with id of " ++ id ++ " doesn't exist") 404.

Definition getSinglePost (req : Request) : Prog Op Response :=
  let id := params_id req in
  if negb (isValidObjectId id) then Throw (new_Error_num "Invalid id" 400)
  else
    post <- await_or_throw (Post_findById id) ;;
    match post with
    | None => Throw (not_found id)
    | Some post => Ret (res_json res0 (JPost post))
    end.

Definition updatePost (req : Request) : Prog Op Response :=
  let id := params_id req in
  if negb (isValidObjectId id) then Throw (new_Error_num "Invalid id" 400)
  else
    updatedPost <- await_or_throw (Post_findByIdAndUpdate id (body req)) ;;
    match updatedPost with
    | None => Throw (not_found id)
    | Some updatedPost => Ret (res_json res0 (JPost updatedPost))
    end.

Definition deletePost (req : Request) : Prog Op Response :=
  let id := params_id req in
  if negb (isValidObjectId id) then Throw (new_Error_num "Invalid id" 400)
  else
    deletedPost <- await_or_throw (Post_findByIdAndDelete id) ;;
    match deletedPost with
    | None => Throw (not_found id)
    | Some _ =>
        Ret (res_json res0 (JSuccess ("Post with id of " ++ id ++ " was deleted")))
    end.

(** *** Router *)

(** [.delete(authenticate, deletePost)]: the controller runs on the request
    the middleware hands on. *)
Definition delete_route (req : Request) : Prog Op Response :=
  authed <- authenticate req ;;
  deletePost authed.

(** [.post(authenticate, validateZod(postSchema), createPost)] and
    [.put(authenticate, validateZod(postSchema), updatePost)] for a body
    that passes the validation. *)
Definition post_route (req : Request) : Prog Op Response :=
  authed <- authenticate req ;;
  createPost authed.

Definition put_route (req : Request) : Prog Op Response :=
  authed <- authenticate req ;;
  updatePost authed.

(** The controllers that take an [:id]. *)
Definition id_controllers : list (Request -> Prog Op Response) :=
  [getSinglePost; updatePost; deletePost].

End Controllers.

(** How [jwt.verify] judges the access cookie of a request. *)
Inductive Verdict : Type :=
| Missing
| Expired
| Invalid
| Accepted (u : ReqUser).

Definition verdict (secret : string) (lib : AuthServer.Libs) (req : Request) (w : World)
  : Verdict :=
  match accessToken req with
  | None => Missing
  | Some token =>
      if String.eqb token "" then Missing
      else match AuthServer.jwt_verify lib token secret (now w) with
           | inl e => if instanceof_TokenExpiredError e then Expired else Invalid
           | inr p =>
               match AuthServer.jwt_sub p with
               | None => Invalid
               | Some sub =>
                   if String.eqb sub "" then Invalid
                   else Accepted (mkReqUser sub (AuthServer.jwt_roles p))
               end
           end
  end.

(** The ids in use were handed out by the counter, each once. *)
Definition posts_ok (w : World) : Prop :=
  NoDup (map p_id (posts w)) /\ (forall p, In p (posts w) -> p_id p < nextId w).

End Api.

(* ================================================================== *)
(** ** Reading the token out of the [Cookie] header by hand *)

Module CookieHeader.

Local Open Scope string_scope.

(** [s.split(sep)] for a non-empty separator: [piece] is the part read
    since the last separator, [skip] the characters of a separator that are
    still to be passed over. *)
Fixpoint split_from (sep : string) (skip : nat) (piece : string) (s : string)
  : list string :=
  match s with
  | EmptyString => [piece]
  | String c rest =>
      match skip with
      | S k => split_from sep k piece rest
      | O =>
          if prefix sep (String c rest)
          then piece :: split_from sep (String.length sep - 1) "" rest
          else split_from sep 0 (piece ++ String c "") rest
      end
  end.

Definition split (sep s : string) : list string := split_from sep 0 "" s.

(** What [Object.fromEntries] takes from an entry: its first element as
    the key, its second as the value. *)
Definition entry (parts : list string) : string * option string :=
  match parts with
  | [] => ("undefined", None)
  | [k] => (k, None)
  | k :: v :: _ => (k, Some v)
  end.

(** [Object.fromEntries(entries)[key]], for a key that [Object.prototype]
    does not define: the entries are written one after the other, a later
    one over an earlier one with the same key, and the read gives the value
    written last, [undefined] when there is none. *)
Fixpoint property (key : string) (entries : list (string * option string))
         (sofar : option string) : option string :=
  match entries with
  | [] => sofar
  | e :: rest => property key rest (if String.eqb (fst e) key then snd e else sofar)
  end.

(** [cookieArrays] for a request that has a [Cookie] header: the parts of
    every cookie, in the order sent. *)
Definition cookieArrays (header : string) : list (list string) :=
  let cookies := split "; " header in
  map (split "=") cookies.

(** [const { token } = Object.fromEntries(cookieArrays)] *)
Definition token_of (header : string) : option string :=
  property "token" (map entry (cookieArrays header)) None.

(** The header a client sends for its cookies: [name=value] pairs joined
    by a semicolon and a space. *)
Definition header_of (cookies : list (string * string)) : string :=
  String.concat "; " (map (fun c => fst c ++ "=" ++ snd c) cookies).

Fixpoint free_of (c : ascii) (s : string) : bool :=
  match s with
  | EmptyString => true
  | String x rest => negb (Ascii.eqb x c) && free_of c rest
  end.

(** Names and values without a semicolon and without an equals sign. *)
Definition plain (s : string) : bool := free_of ";" s && free_of "=" s.

End CookieHeader.

(* ================================================================== *)
(** ** Access tokens across services *)

Module Revocation.

Import AuthServer.

(** The calls that end or renew sessions, and the TTL task: everything but
    a registration and the clock. *)
Definition session_call (c : Call) : bool :=
  match c with
  | CallRegister _ => false
  | Elapse _ => false
  | _ => true
  end.

(** An API request carrying the access cookie of an auth-server request. *)
Definition forwarded (req : Request) (params_id : string) (body : Api.PostBody)
  : Api.Request :=
  Api.mkRequest params_id body (accessToken (cookies req)) None.

End Revocation.

(* ================================================================== *)
(** ** Two registrations in flight *)

Module Races.

Import AuthServer.

(** Two registrations in flight, interleaved by [sched]. *)
Definition register_race (cfg : Config) (lib : Libs) (reqA reqB : Request)
           (sched : list Tid) (w : World) : Duo Op World Response :=
  sched_run (exec cfg lib) is_async sched (register cfg reqA, register cfg reqB, w).

(** Both duplicate checks first, then the first registration to its end,
    then the second. *)
Definition checks_first : list Tid :=
  [ReqA; ReqB; ReqA; ReqA; ReqA; ReqA; ReqA; ReqB; ReqB; ReqB].

(** The same start, then the second registration to its end before the
    first goes on. *)
Definition checks_first_second_ahead : list Tid :=
  [ReqA; ReqB; ReqB; ReqB; ReqB; ReqB; ReqB; ReqA; ReqA; ReqA].

Section Stages.

Variable cfg : Config.

(** The stages of [register] between its awaits: after the check found
    no user, after the salt was drawn, after the password was hashed, after
    the user was stored, and after the RefreshToken row with token [r] was
    stored. *)
Definition register_respond (x : string * string) : Prog Op Response :=
  let (refreshToken, accessToken) := x in
  Ret (res_json (res_status (setAuthCookies cfg res0 refreshToken accessToken) 201)
                (JMessage "Registered")).

Definition register_issue (user : User) : Prog Op Response :=
  bind (createTokens cfg user) register_respond.

Definition register_create (b : Body) (hashedPW : string) : Prog Op Response :=
  bind (await_or_throw (User_create (email b) hashedPW (firstName b) (lastName b)))
       register_issue.

Definition register_hash (b : Body) (salt : string) : Prog Op Response :=
  bind (await (Bcrypt_hash (password b) salt)) (register_create b).

Definition register_salt (b : Body) : Prog Op Response :=
  bind (await (Bcrypt_genSalt (SALT_ROUNDS cfg))) (register_hash b).

Definition register_sign (u : User) (r : string) : Prog Op Response :=
  bind (bind (await (Jwt_sign (u_roles u) (ACCESS_JWT_SECRET cfg) (ACCESS_TOKEN_TTL cfg)
                              (ObjectId_toString (u_id u))))
             (fun accessToken => Ret (r, accessToken)))
       register_respond.

End Stages.

(** How many turns a schedule gives to one request. *)
Definition same_tid (a b : Tid) : bool :=
  match a, b with
  | ReqA, ReqA => true
  | ReqB, ReqB => true
  | _, _ => false
  end.

Definition turns (t : Tid) (sched : list Tid) : nat :=
  length (filter (same_tid t) sched).

(** [User.create] is the fourth awaited call of [register], so a request
    that had one to three turns has run its check and has not inserted. *)
Definition checked_not_inserted (t : Tid) (sched : list Tid) : bool :=
  Nat.leb 1 (turns t sched) && Nat.leb (turns t sched) 3.

(** The start of a schedule in which both checks come before either
    insert. *)
Definition checks_before_inserts (sched : list Tid) : bool :=
  checked_not_inserted ReqA sched && checked_not_inserted ReqB sched.

(** The collections, the ObjectId counter and the UUID source of [w1] are
    those of [w0]: only salts were drawn in between. *)
Definition same_store (w0 w1 : World) : Prop :=
  users w1 = users w0 /\ refreshTokens w1 = refreshTokens w0 /\
  nextId w1 = nextId w0 /\ uuidGen w1 = uuidGen w0 /\ uuidCtr w1 = uuidCtr w0.

End Races.

(* ================================================================== *)
(** ** A concrete deployment, for examples *)

Module Demo.

Import AuthServer.

Definition cfg : Config := mkConfig "s3cret" 900 604800 10 false.

(** An injective supply of values that never collides with the tokens the
    examples store by hand. *)
Fixpoint uuid_of (n : nat) : string :=
  match n with
  | O => "#"
  | S k => String "u" (uuid_of k)
  end.

Definition ends_with (s suffix : string) : bool :=
  String.eqb (substring (String.length s - String.length suffix)
                        (String.length suffix) s) suffix.

Definition jwt_expired : Thrown :=
  IsError (mkError TokenExpiredError "jwt expired" None).

Definition jwt_invalid : Thrown :=
  IsError (mkError JsonWebTokenError "invalid signature" None).

(** A toy signer: [subject.secret]; the token ["stale.jwt"] stands for one
    whose [exp] has passed. *)
Definition toy_verify (token secret : string) (t : Z) : Thrown + JwtPayload :=
  if String.eqb token "stale.jwt" then inl jwt_expired
  else match index 0 "." token with
       | Some i =>
           if String.eqb (substring (S i) (String.length token - S i) token) secret
           then inr (mkJwtPayload (Some (substring 0 i token)) ["user"] 0 0)
           else inl jwt_invalid
       | None => inl jwt_invalid
       end.

Definition lib : Libs :=
  mkLibs (fun _ bytes => bytes)
         (fun data salt => (salt ++ "$" ++ data)%string)
         (fun data encrypted => ends_with encrypted ("$" ++ data)%string)
         (fun _ secret _ subject _ => (subject ++ "." ++ secret)%string)
         toy_verify.

Definition ada : User :=
  mkUser 0 "Ada" "Lovelace" "ada@example.org" "salt$engine" ["user"] 0.

Definition row1 : RefreshToken := mkRefreshToken 1 "r-old" 0 1000 0.

(** One registered user holding one refresh token. *)
Definition world1 : World :=
  mkWorld [ada] [row1] 2 5 uuid_of 0 (fun _ => "salt") 0.

(** The same world long after [row1] has expired, before any TTL sweep. *)
Definition stale_world : World := set_now 2000 world1.

Definition empty_world : World :=
  mkWorld [] [] 0 0 uuid_of 0 (fun _ => "salt") 0.

Definition ada_body : Body := mkBody "ada@example.org" "engine" "Ada" "Lovelace".

Definition no_cookies : Cookies := mkCookies None None.

Definition bob_body : Body := mkBody "bob@example.org" "poetry" "Bob" "Byron".



(** Traffic after a rotation: a login, a rotation of the new value, the
    clock moving, a TTL sweep, a logout. *)
Definition between : list Call :=
  [ CallLogin (mkRequest ada_body no_cookies);
    CallRefresh (refresh_request "#");
    Elapse 99;
    TtlSweep;
    CallLogout (refresh_request "r-old") ].

Definition legacy_env : Legacy.Env := Legacy.mkEnv "s3cret" false.

Definition legacy_lib : Legacy.Libs :=
  Legacy.mkLibs (fun _ bytes => bytes)
                (fun data salt => (salt ++ "$" ++ data)%string)
                (fun data encrypted => ends_with encrypted ("$" ++ data)%string)
                (fun uid secret _ _ => (ObjectId_toString uid ++ "." ++ secret)%string).

Definition legacy_ada : Legacy.UserDoc :=
  Legacy.mkUserDoc 0 "Ada" "Lovelace" "ada@example.org" (Some "salt$engine")
                   (Legacy.mkLocation "Germany" "" "") [] 0 0.

Definition legacy_world1 : Legacy.World :=
  Legacy.mkWorld [legacy_ada] 1 5 (fun _ => "salt") 0.

Definition legacy_ada_request : Legacy.Request :=
  Legacy.mkRequest (Legacy.mkSanitizedBody "ada@example.org" "engine" "Ada" "Lovelace").

Definition legacy_unknown_request : Legacy.Request :=
  Legacy.mkRequest (Legacy.mkSanitizedBody "bob@example.org" "engine" "Bob" "Byron").

Definition legacy_wrong_password_request : Legacy.Request :=
  Legacy.mkRequest (Legacy.mkSanitizedBody "ada@example.org" "difference" "Ada" "Lovelace").

Definition legacy_empty : Legacy.World :=
  Legacy.mkWorld [] 0 0 (fun _ => "salt") 0.

Definition after_register : World :=
  snd (serve cfg lib (register cfg) (mkRequest ada_body no_cookies) empty_world).

Definition after_first_refresh : World :=
  snd (serve cfg lib (refresh cfg) (refresh_request "#") after_register).

(** A second user with a session of their own. *)
Definition bob : User :=
  mkUser 2 "Bob" "Byron" "bob@example.org" "salt$poetry" ["user"] 0.

Definition row_bob : RefreshToken := mkRefreshToken 3 "r-bob" 2 1000 0.

Definition world2 : World :=
  mkWorld [ada; bob] [row1; row_bob] 4 5 uuid_of 0 (fun _ => "salt") 0.

(** A session whose owner is no longer in the users collection. *)
Definition orphan_world : World :=
  mkWorld [] [row1] 2 5 uuid_of 0 (fun _ => "salt") 0.

Definition wrong_password_body : Body :=
  mkBody "ada@example.org" "difference" "Ada" "Lovelace".

(** The API with one post of Ada's, and a request of somebody else: the
    toy signer reads the token as subject 7. *)
Definition post1 : Api.Post :=
  Api.mkPost 3 0 [("title", "Notes on the engine"); ("image", "engine.png")].

Definition api_world : Api.World := Api.mkWorld [post1] [ada] 4 5.

Definition api_request (id : string) : Api.Request :=
  Api.mkRequest id (Api.mkPostBody 0 [("title", "Sketch")]) (Some "7.s3cret") None.

End Demo.

(* ================================================================== *)
(** ** Facts about programs *)

Unset Implicit Arguments.

Section ProgFacts.

Variable Op : Type -> Type.
Variable W : Type.
Variable exec : forall X : Type, Op X -> W -> X * W.
Variable is_async : forall X : Type, Op X -> bool.

Lemma run_bind (A B : Type) (p : Prog Op A) (f : A -> Prog Op B) (w : W) :
  run exec (bind p f) w =
  match run exec p w with
  | (inl e, w') => (inl e, w')
  | (inr a, w') => run exec (f a) w'
  end.
Proof.
  revert w; induction p as [a | e | X op k IH]; intros w; simpl; try reflexivity.
  destruct (exec _ op w) as [x w']. apply IH.
Qed.

Lemma trace_bind (A B : Type) (p : Prog Op A) (f : A -> Prog Op B) (w : W) :
  trace exec (bind p f) w =
  trace exec p w ++
  match run exec p w with
  | (inl _, _) => []
  | (inr a, w') => trace exec (f a) w'
  end.
Proof.
  revert w; induction p as [a | e | X op k IH]; intros w; simpl; try reflexivity.
  destruct (exec _ op w) as [x w']. simpl. f_equal. apply IH.
Qed.

Lemma run_try_catch (A : Type) (p : Prog Op A) (h : Thrown -> Prog Op A) (w : W) :
  run exec (try_catch p h) w =
  match run exec p w with
  | (inl e, w') => run exec (h e) w'
  | (inr a, w') => (inr a, w')
  end.
Proof.
  revert w; induction p as [a | e | X op k IH]; intros w; simpl; try reflexivity.
  destruct (exec _ op w) as [x w']. apply IH.
Qed.

(** A quantum is a prefix of the sequential execution. *)
Lemma run_step (A : Type) (p : Prog Op A) (w : W) :
  run exec (fst (step exec is_async p w)) (snd (step exec is_async p w)) = run exec p w.
Proof.
  revert w; induction p as [a | e | X op k IH]; intros w; simpl; try reflexivity.
  destruct (exec _ op w) as [x w'].
  destruct (is_async _ op); [reflexivity | apply IH].
Qed.

Lemma sched_run_cons_A (A : Type) (s : list Tid) (pa pb : Prog Op A) (w : W) :
  sched_run exec is_async (ReqA :: s) (pa, pb, w) =
  sched_run exec is_async s
            (fst (step exec is_async pa w), pb, snd (step exec is_async pa w)).
Proof. simpl. destruct (step exec is_async pa w); reflexivity. Qed.

Lemma sched_run_cons_B (A : Type) (s : list Tid) (pa pb : Prog Op A) (w : W) :
  sched_run exec is_async (ReqB :: s) (pa, pb, w) =
  sched_run exec is_async s
            (pa, fst (step exec is_async pb w), snd (step exec is_async pb w)).
Proof. simpl. destruct (step exec is_async pb w); reflexivity. Qed.


End ProgFacts.

(* ================================================================== *)
(** ** Facts about the collections *)

Section Collections.

Import AuthServer.

Lemma In_remove_first (A : Type) (p : A -> bool) (l : list A) (x : A) :
  In x (remove_first p l) -> In x l.
Proof.
  induction l as [| a t IH]; simpl; [tauto |].
  destruct (p a); simpl; intuition.
Qed.

Lemma filter_nil_of_all_false (A : Type) (p : A -> bool) (l : list A) :
  (forall x, In x l -> p x = false) -> filter p l = [].
Proof.
  induction l as [| a t IH]; simpl; intros H; [reflexivity |].
  rewrite (H a (or_introl eq_refl)). apply IH. intros x Hx. apply H. now right.
Qed.

Lemma NoDup_map_inj (A B : Type) (f : A -> B) (l : list A) (x y : A) :
  NoDup (map f l) -> In x l -> In y l -> f x = f y -> x = y.
Proof.
  induction l as [| a t IH]; simpl; [tauto |].
  intros Hnd Hx Hy Hxy. inversion Hnd as [| ? ? Hnotin Hnd']; subst.
  destruct Hx as [-> | Hx], Hy as [-> | Hy]; try reflexivity.
  - exfalso. apply Hnotin. rewrite Hxy. now apply in_map.
  - exfalso. apply Hnotin. rewrite <- Hxy. now apply in_map.
  - now apply IH.
Qed.

Lemma NoDup_map_remove_first (A B : Type) (f : A -> B) (p : A -> bool) (l : list A) :
  NoDup (map f l) -> NoDup (map f (remove_first p l)).
Proof.
  induction l as [| a t IH]; simpl; intros Hnd; [assumption |].
  inversion Hnd as [| ? ? Hnotin Hnd']; subst.
  destruct (p a); [assumption |].
  simpl. constructor; [| now apply IH].
  intros Hin. apply Hnotin. apply in_map_iff in Hin as [x [Hfx Hx]].
  apply in_map_iff. exists x. split; [assumption |]. eapply In_remove_first; eassumption.
Qed.

Lemma NoDup_map_filter (A B : Type) (keep : A -> bool) (key : A -> B) (rows : list A) :
  NoDup (map key rows) -> NoDup (map key (filter keep rows)).
Proof.
  induction rows as [| a t IH]; simpl; intros Hnd; [assumption |].
  inversion Hnd as [| ? ? Hnotin Hnd']; subst.
  destruct (keep a); [| now apply IH].
  simpl. constructor; [| now apply IH].
  intros Hin. apply Hnotin. apply in_map_iff in Hin as [x [Hfx Hx]].
  apply in_map_iff. exists x. split; [assumption |]. apply filter_In in Hx. tauto.
Qed.

Lemma NoDup_map_snoc (A B : Type) (f : A -> B) (l : list A) (a : A) :
  NoDup (map f l) -> (forall x, In x l -> f x <> f a) -> NoDup (map f (l ++ [a])).
Proof.
  induction l as [| b t IH]; simpl; intros Hnd Hfresh.
  - constructor; [simpl; tauto | constructor].
  - inversion Hnd as [| ? ? Hnotin Hnd']; subst. constructor.
    + rewrite map_app, in_app_iff. simpl. intros [Hin | [Heq | []]].
      * now apply Hnotin.
      * apply (Hfresh b); auto.
    + apply IH; auto.
Qed.

(** Deleting by [_id] removes every row with that id. *)
Lemma remove_first_by_rtid (l : list RefreshToken) (id : ObjectId) (x : RefreshToken) :
  NoDup (map rt_id l) -> In x (remove_first (by_rtid id) l) -> In x l /\ rt_id x <> id.
Proof.
  induction l as [| a t IH]; simpl; [tauto |].
  intros Hnd Hx. inversion Hnd as [| ? ? Hnotin Hnd']; subst.
  unfold by_rtid at 1 in Hx. destruct (Nat.eqb_spec (rt_id a) id) as [Heq | Hne].
  - split; [now right |]. intros Hid. apply Hnotin. rewrite Heq, <- Hid. now apply in_map.
  - destruct Hx as [-> | Hx]; [split; [now left | assumption] |].
    destruct (IH Hnd' Hx). split; [now right | assumption].
Qed.

Lemma find_by_token_spec (l : list RefreshToken) (v : string) (r : RefreshToken) :
  find (by_token v) l = Some r -> In r l /\ rt_token r = v.
Proof.
  intros H. apply find_some in H as [Hin Hv]. split; [assumption |].
  now apply String.eqb_eq.
Qed.

Lemma find_by_token_none (l : list RefreshToken) (v : string) :
  find (by_token v) l = None <-> (forall r, In r l -> rt_token r <> v).
Proof.
  split.
  - intros H r Hin Hv. pose proof (find_none _ _ H r Hin) as Hf.
    unfold by_token in Hf. apply String.eqb_neq in Hf. contradiction.
  - intros H. destruct (find (by_token v) l) as [r |] eqn:E; [| reflexivity].
    apply find_by_token_spec in E as [Hin Hv]. exfalso. now apply (H r).
Qed.

Lemma existsb_by_token_false (l : list RefreshToken) (v : string) :
  existsb (by_token v) l = false <-> (forall r, In r l -> rt_token r <> v).
Proof.
  split.
  - intros H r Hin Hv.
    assert (existsb (by_token v) l = true) as Ht.
    { apply existsb_exists. exists r. split; [assumption |]. now apply String.eqb_eq. }
    congruence.
  - intros H. destruct (existsb (by_token v) l) eqn:E; [| reflexivity].
    apply existsb_exists in E as [r [Hin Hv]]. apply String.eqb_eq in Hv.
    exfalso. now apply (H r).
Qed.

Lemma find_by_uid_spec (l : list User) (id : ObjectId) (u : User) :
  find (by_uid id) l = Some u -> In u l /\ u_id u = id.
Proof.
  intros H. apply find_some in H as [Hin Hv]. split; [assumption |].
  now apply Nat.eqb_eq.
Qed.

Lemma find_by_email_spec (l : list User) (e : string) (u : User) :
  find (by_email e) l = Some u -> In u l /\ u_email u = e.
Proof.
  intros H. apply find_some in H as [Hin Hv]. split; [assumption |].
  now apply String.eqb_eq.
Qed.

(** Rotation removes the presented value from a collection with a unique
    index on [token]. *)
Lemma rotated_value_is_gone (l : list RefreshToken) (v : string) (st x : RefreshToken) :
  NoDup (map rt_id l) -> NoDup (map rt_token l) ->
  find (by_token v) l = Some st ->
  In x (remove_first (by_rtid (rt_id st)) l) -> rt_token x <> v.
Proof.
  intros Hid Htok Hfind Hx Hv.
  apply find_by_token_spec in Hfind as [Hst Hstv].
  apply remove_first_by_rtid in Hx as [Hx Hne]; [| assumption].
  apply Hne. f_equal. eapply NoDup_map_inj with (f := rt_token); eauto. congruence.
Qed.

End Collections.

(* ================================================================== *)
(** ** The auth server: how the world evolves *)

Section Evolution.

Import AuthServer.

Variable cfg : Config.
Variable lib : Libs.

Lemma evolves_refl (w : World) : evolves w w.
Proof. repeat split; auto. Qed.

Lemma evolves_trans (w1 w2 w3 : World) :
  evolves w1 w2 -> evolves w2 w3 -> evolves w1 w3.
Proof.
  intros (Hg1 & Hc1 & Hr1) (Hg2 & Hc2 & Hr2). repeat split.
  - congruence.
  - lia.
  - intros r Hr. destruct (Hr2 r Hr) as [Hin | (n & Hn & Htok)].
    + destruct (Hr1 r Hin) as [Hin1 | (n & Hn & Htok)]; [now left |].
      right. exists n. split; [lia | assumption].
    + right. exists n. split; [lia | congruence].
Qed.

Lemma retired_evolves (v : string) (w w' : World) :
  retired v w -> evolves w w' -> retired v w'.
Proof.
  intros (Habs & Hgen) (Hg & Hc & Hr). split.
  - intros r Hin. destruct (Hr r Hin) as [Hold | (n & Hn & Htok)].
    + now apply Habs.
    + rewrite Htok. apply Hgen. lia.
  - intros n Hn. rewrite Hg. apply Hgen. lia.
Qed.

Lemma exec_evolves (X : Type) (op : Op X) (w : World) :
  benign op -> evolves w (snd (exec cfg lib op w)).
Proof.
  destruct op; simpl; intros Hb; try contradiction;
    repeat match goal with
           | |- context [if ?b then _ else _] => destruct b
           | |- context [match ?x with _ => _ end] => destruct x
           end; simpl; try apply evolves_refl;
    (repeat split; simpl; auto; intros r Hr; left;
     first [ eapply In_remove_first; eassumption
           | apply filter_In in Hr; tauto ]).
Qed.

Lemma safe_ret (A : Type) (a : A) : safe cfg lib (@Ret Op A a).
Proof. intros w. apply evolves_refl. Qed.

Lemma safe_throw (A : Type) (e : Thrown) : safe cfg lib (@Throw Op A e).
Proof. intros w. apply evolves_refl. Qed.

Lemma safe_await_k (A X : Type) (op : Op X) (k : X -> Prog Op A) :
  benign op -> (forall x, safe cfg lib (k x)) -> safe cfg lib (Await op k).
Proof.
  intros Hb Hk w. simpl.
  pose proof (exec_evolves _ op w Hb) as He.
  destruct (exec cfg lib op w) as [x w1]. simpl in He.
  eapply evolves_trans; [exact He | apply Hk].
Qed.

Lemma safe_bind (A B : Type) (p : Prog Op A) (f : A -> Prog Op B) :
  safe cfg lib p -> (forall a, safe cfg lib (f a)) -> safe cfg lib (bind p f).
Proof.
  intros Hp Hf w. rewrite run_bind. specialize (Hp w).
  destruct (run (exec cfg lib) p w) as [[e | a] w1]; simpl in *; [assumption |].
  eapply evolves_trans; [exact Hp | apply Hf].
Qed.

Lemma safe_try_catch (A : Type) (p : Prog Op A) (h : Thrown -> Prog Op A) :
  safe cfg lib p -> (forall e, safe cfg lib (h e)) -> safe cfg lib (try_catch p h).
Proof.
  intros Hp Hh w. rewrite run_try_catch. specialize (Hp w).
  destruct (run (exec cfg lib) p w) as [[e | a] w1]; simpl in *; [| assumption].
  eapply evolves_trans; [exact Hp | apply Hh].
Qed.

Lemma safe_await (X : Type) (op : Op X) : benign op -> safe cfg lib (await op).
Proof. intros Hb. apply safe_await_k; [assumption | intros x; apply safe_ret]. Qed.

Lemma safe_await_or_throw (X : Type) (op : Op (Thrown + X)) :
  benign op -> safe cfg lib (await_or_throw op).
Proof.
  intros Hb. apply safe_await_k; [assumption |].
  intros [e | x]; [apply safe_throw | apply safe_ret].
Qed.

(** [createTokens] in closed form. *)
Lemma run_createTokens (u : User) (w : World) :
  run (exec cfg lib) (createTokens cfg u) w =
  if existsb (by_token (uuidGen w (uuidCtr w))) (refreshTokens w)
  then (inl duplicate_key, snd (draw_uuid w))
  else (inr (uuidGen w (uuidCtr w), issued_access cfg lib u w), after_issue cfg u w).
Proof.
  unfold createTokens. cbn.
  destruct (existsb (by_token (uuidGen w (uuidCtr w))) (refreshTokens w)); reflexivity.
Qed.

Lemma safe_createTokens (u : User) : safe cfg lib (createTokens cfg u).
Proof.
  intros w. rewrite run_createTokens.
  destruct (existsb _ _); simpl.
  - repeat split; simpl; auto.
  - repeat split; simpl; auto.
    intros r Hr. apply in_app_iff in Hr as [Hr | [<- | []]]; [now left |].
    right. exists (uuidCtr w). split; [lia | reflexivity].
Qed.

Ltac safe_step :=
  first [ apply safe_ret
        | apply safe_throw
        | apply safe_createTokens
        | apply safe_await; exact I
        | apply safe_await_or_throw; exact I
        | apply safe_bind; [| intros ?]
        | apply safe_try_catch; [| intros ?]
        | match goal with
          | |- safe _ _ (match ?x with _ => _ end) => destruct x
          end ].

Lemma safe_register (req : Request) : safe cfg lib (register cfg req).
Proof. unfold register; cbv zeta; repeat safe_step. Qed.

Lemma safe_login (req : Request) : safe cfg lib (login cfg req).
Proof. unfold login; cbv zeta; repeat safe_step. Qed.

Lemma safe_me (req : Request) : safe cfg lib (me cfg req).
Proof. unfold me; repeat safe_step. Qed.

Lemma safe_logout (req : Request) : safe cfg lib (logout req).
Proof. unfold logout; cbv zeta; repeat safe_step. Qed.

Lemma safe_refresh (req : Request) : safe cfg lib (refresh cfg req).
Proof. unfold refresh; repeat safe_step. Qed.

Lemma run_call_evolves (c : Call) (w : World) : evolves w (run_call cfg lib c w).
Proof.
  destruct c; simpl.
  - apply safe_register.
  - apply safe_login.
  - apply safe_me.
  - apply safe_logout.
  - apply safe_refresh.
  - repeat split; simpl; auto.
  - repeat split; simpl; auto. intros r Hr. left. apply filter_In in Hr. tauto.
Qed.

Lemma run_calls_evolves (cs : list Call) (w : World) : evolves w (run_calls cfg lib cs w).
Proof.
  revert w; induction cs as [| c cs IH]; intros w; simpl.
  - apply evolves_refl.
  - eapply evolves_trans; [apply run_call_evolves | apply IH].
Qed.

(** [refresh] in closed form, for a request that carries a value. *)
Lemma run_refresh (req : Request) (v : string) (w : World) :
  refreshToken (cookies req) = Some v -> v <> "" ->
  run (exec cfg lib) (refresh cfg req) w =
  match find (by_token v) (refreshTokens w) with
  | None => (inl (new_Error "Refresh token not found." 403), w)
  | Some st =>
      let w1 := set_refreshTokens w (remove_first (by_rtid (rt_id st)) (refreshTokens w))
                                  (nextId w) in
      match find (by_uid (rt_userId st)) (users w) with
      | None => (inl (new_Error "User not found." 403), w1)
      | Some u =>
          if existsb (by_token (uuidGen w (uuidCtr w))) (refreshTokens w1)
          then (inl duplicate_key, snd (draw_uuid w1))
          else (inr (res_json (setAuthCookies cfg res0 (uuidGen w (uuidCtr w))
                                              (issued_access cfg lib u w1))
                              (JMessage "Refreshed")),
                after_issue cfg u w1)
      end
  end.
Proof.
  intros Hc Hv. unfold refresh. rewrite Hc.
  destruct (String.eqb_spec v ""); [contradiction |].
  cbn.
  destruct (find (by_token v) (refreshTokens w)) as [st |]; [| reflexivity].
  cbn.
  destruct (find (by_uid (rt_userId st)) (users w)) as [u |]; [| reflexivity].
  cbn.
  destruct (existsb _ _); reflexivity.
Qed.

Lemma run_refresh_missing (req : Request) (w : World) :
  falsy (refreshToken (cookies req)) = true ->
  run (exec cfg lib) (refresh cfg req) w =
  (inl (new_Error "Refresh token is required." 401), w).
Proof.
  unfold refresh, falsy.
  destruct (refreshToken (cookies req)) as [v |]; [| reflexivity].
  intros ->. reflexivity.
Qed.

End Evolution.

(* ================================================================== *)
(** ** The refresh handler *)

Section RefreshHandler.

Import AuthServer.

Variable cfg : Config.
Variable lib : Libs.

(** Deletions create nothing. *)
Lemma new_rows_nil (w w' : World) :
  (forall r, In r (refreshTokens w') -> In r (refreshTokens w)) -> new_rows w w' = [].
Proof.
  intros Hincl. unfold new_rows. apply filter_nil_of_all_false.
  intros r Hr. apply negb_false_iff. apply existsb_exists.
  exists r. split; [now apply Hincl |]. unfold by_rtid. apply Nat.eqb_refl.
Qed.

(** A successful rotation retires the presented value, provided
    [randomUUID] does not hand it out again. *)
Lemma refresh_retires (req : Request) (v : string) (res : Response) (w w1 : World) :
  store_ok w ->
  refreshToken (cookies req) = Some v ->
  run (exec cfg lib) (refresh cfg req) w = (inr res, w1) ->
  (forall n, uuidCtr w <= n -> uuidGen w n <> v) ->
  v <> "" /\ retired v w1.
Proof.
  intros (Hid & Htok & _) Hc Hrun Hgen.
  assert (v <> "") as Hv.
  { intros ->. rewrite run_refresh_missing in Hrun; [discriminate |].
    unfold falsy. now rewrite Hc. }
  split; [assumption |].
  rewrite (run_refresh cfg lib req _ w Hc Hv) in Hrun.
  destruct (find (by_token v) (refreshTokens w)) as [st |] eqn:Hfind; [| discriminate].
  cbv zeta in Hrun.
  destruct (find (by_uid (rt_userId st)) (users w)) as [u |]; [| discriminate].
  destruct (existsb _ _); [discriminate |].
  injection Hrun as _ <-. split.
  - simpl. intros r Hr. apply in_app_iff in Hr as [Hr | [<- | []]].
    + eapply rotated_value_is_gone; eassumption.
    + simpl. apply Hgen. lia.
  - simpl. intros n Hn. apply Hgen. lia.
Qed.

(** A retired value is refused, and the refusal changes nothing. *)
Lemma refresh_refuses_retired (req : Request) (v : string) (w : World) :
  refreshToken (cookies req) = Some v -> v <> "" -> retired v w ->
  run (exec cfg lib) (refresh cfg req) w =
  (inl (new_Error "Refresh token not found." 403), w).
Proof.
  intros Hc Hv (Habs & _). rewrite (run_refresh cfg lib req _ w Hc Hv).
  apply find_by_token_none in Habs. now rewrite Habs.
Qed.

(** C1. Rotation is single-use: once a refresh call presenting [v] has
    succeeded (the stored row was found and deleted, a new pair was issued),
    every later call presenting [v] -- whatever requests, clock changes and
    TTL sweeps happen in between -- is answered 403 Forbidden, sets no
    cookie and leaves the RefreshToken collection as it found it.  The
    collection is one with its unique indexes in force ([store_ok]), and
    [randomUUID] does not produce [v] again. *)
Theorem refresh_single_use
        (req : Request) (v : string) (res : Response) (w w1 : World) :
  store_ok w ->
  refreshToken (cookies req) = Some v ->
  run (exec cfg lib) (refresh cfg req) w = (inr res, w1) ->
  (forall n, uuidCtr w <= n -> uuidGen w n <> v) ->
  forall (between : list Call) (req' : Request),
    refreshToken (cookies req') = Some v ->
    let w2 := run_calls cfg lib between w1 in
    exists err : Thrown,
      run (exec cfg lib) (refresh cfg req') w2 = (inl err, w2) /\
      res_statusCode (errorHandler err) = 403 /\
      res_cookies (errorHandler err) = [] /\
      new_rows w2 (snd (run (exec cfg lib) (refresh cfg req') w2)) = [].
Proof.
  intros Hok Hc Hrun Hgen between req' Hc' w2.
  destruct (@refresh_retires req v res w w1 Hok Hc Hrun Hgen) as [Hv Hret].
  assert (retired v w2) as Hret2.
  { eapply retired_evolves; [exact Hret | apply run_calls_evolves]. }
  exists (new_Error "Refresh token not found." 403).
  rewrite (@refresh_refuses_retired req' v w2 Hc' Hv Hret2).
  repeat split. simpl. apply new_rows_nil. auto.
Qed.

(** C4. The refresh handler answers 401 exactly when the request carries
    no refresh credential (no cookie, or an empty one); a credential that
    [findOne] does not find, or whose owner is gone, is answered 403; and a
    failed call issues nothing: the error response sets no cookie and no
    RefreshToken row is created. *)
Theorem refresh_failure_kinds (req : Request) (w : World) :
  let out := run (exec cfg lib) (refresh cfg req) w in
  (res_statusCode (respond (fst out)) = 401 <->
   falsy (refreshToken (cookies req)) = true) /\
  (forall v : string,
      refreshToken (cookies req) = Some v -> v <> "" ->
      (find (by_token v) (refreshTokens w) = None \/
       exists st, find (by_token v) (refreshTokens w) = Some st /\
                  find (by_uid (rt_userId st)) (users w) = None) ->
      res_statusCode (respond (fst out)) = 403) /\
  (forall err : Thrown,
      fst out = inl err ->
      res_cookies (respond (fst out)) = [] /\ new_rows w (snd out) = []).
Proof.
  cbv zeta.
  destruct (falsy (refreshToken (cookies req))) eqn:Hf.
  - rewrite (run_refresh_missing cfg lib req w Hf). simpl. repeat split.
    + intros v Hc Hv _. unfold falsy in Hf. rewrite Hc in Hf.
      apply String.eqb_eq in Hf. contradiction.
    + apply new_rows_nil. auto.
  - unfold falsy in Hf.
    destruct (refreshToken (cookies req)) as [v |] eqn:Hc; [| discriminate].
    apply String.eqb_neq in Hf.
    rewrite (run_refresh cfg lib req _ w Hc Hf).
    destruct (find (by_token v) (refreshTokens w)) as [st |] eqn:Hfind.
    + cbv zeta.
      destruct (find (by_uid (rt_userId st)) (users w)) as [u |] eqn:Hu.
      * destruct (existsb _ _); simpl.
        -- repeat split; try discriminate.
           ++ intros v' Hv' _ [Hnone | (st' & Hst' & Hu')].
              ** injection Hv' as <-. congruence.
              ** injection Hv' as <-. congruence.
           ++ apply new_rows_nil. simpl. intros r Hr.
              eapply In_remove_first; eassumption.
        -- repeat split; try discriminate.
           intros v' Hv' _ [Hnone | (st' & Hst' & Hu')].
           ++ injection Hv' as <-. congruence.
           ++ injection Hv' as <-. congruence.
      * simpl. repeat split; try discriminate.
        apply new_rows_nil. simpl. intros r Hr.
        eapply In_remove_first; eassumption.
    + simpl. repeat split; try discriminate.
      apply new_rows_nil. auto.
Qed.

End RefreshHandler.

(* ================================================================== *)
(** ** Two rotations of the same value in flight *)

Section RotationRace.

Import AuthServer.

Variable cfg : Config.
Variable lib : Libs.







Section Serialised.

Variable v : string.
Variable st : RefreshToken.
Variable u : User.
Variable w : World.

Hypothesis Hok : store_ok w.
Hypothesis Hsrc : uuid_source_ok w.
Hypothesis Hv : v <> "".
Hypothesis Hst : find (by_token v) (refreshTokens w) = Some st.
Hypothesis Hu : find (by_uid (rt_userId st)) (users w) = Some u.













End Serialised.


End RotationRace.

(* ================================================================== *)
(** ** Expiry of refresh tokens *)

Section Expiry.

Import AuthServer.

Variable cfg : Config.
Variable lib : Libs.

Lemma find_by_token_In (l : list RefreshToken) (r : RefreshToken) :
  NoDup (map rt_token l) -> In r l -> find (by_token (rt_token r)) l = Some r.
Proof.
  intros Hnd Hin.
  destruct (find (by_token (rt_token r)) l) as [x |] eqn:E.
  - apply find_by_token_spec in E as [Hx Htok]. f_equal.
    eapply NoDup_map_inj with (f := rt_token); eauto.
  - exfalso. exact (proj1 (@find_by_token_none l (rt_token r)) E r Hin eq_refl).
Qed.

(** A rotation whose owner exists and whose drawn value is new succeeds. *)
Lemma refresh_honours_stored (req : Request) (r : RefreshToken) (u : User) (w : World) :
  store_ok w -> uuid_source_ok w ->
  In r (refreshTokens w) ->
  refreshToken (cookies req) = Some (rt_token r) -> rt_token r <> "" ->
  find (by_uid (rt_userId r)) (users w) = Some u ->
  exists res w',
    run (exec cfg lib) (refresh cfg req) w = (inr res, w') /\ res_statusCode res = 200.
Proof.
  intros (Hid & Htok & _) (Hfresh & _) Hin Hc Hv Hu.
  rewrite (run_refresh cfg lib req _ w Hc Hv).
  rewrite (find_by_token_In _ _ Htok Hin). cbv zeta. rewrite Hu.
  assert (existsb (by_token (uuidGen w (uuidCtr w)))
                  (refreshTokens
                     (set_refreshTokens w
                        (remove_first (by_rtid (rt_id r)) (refreshTokens w)) (nextId w)))
          = false) as ->.
  { apply existsb_by_token_false. simpl. intros x Hx.
    apply Hfresh; [lia |]. eapply In_remove_first; eassumption. }
  eexists. eexists. split; reflexivity.
Qed.

(** After the TTL task has run, a row past its [expireAt] is gone. *)
Lemma swept_value_is_gone (w : World) (r : RefreshToken) :
  NoDup (map rt_token (refreshTokens w)) ->
  In r (refreshTokens w) -> (rt_expireAt r <= now w)%Z ->
  find (by_token (rt_token r)) (refreshTokens (ttl_sweep w)) = None.
Proof.
  intros Hnd Hin Hexp. apply find_by_token_none. simpl.
  intros x Hx Htok. apply filter_In in Hx as [Hx Hlive].
  assert (x = r) as -> by (eapply NoDup_map_inj with (f := rt_token); eauto).
  apply Z.ltb_lt in Hlive. lia.
Qed.

(** C5, as the code has it.  Expiry is enforced by the TTL index alone:
    [findOne] does not look at [expireAt] or at the clock, so a stored row
    is found whatever the time, and a rotation presenting it succeeds like
    any other; only once the TTL task has physically removed the row does a
    call presenting its value fail with 403 Forbidden (and change nothing). *)
Theorem expiry_is_enforced_by_the_sweep
        (req : Request) (r : RefreshToken) (w : World) :
  store_ok w ->
  In r (refreshTokens w) ->
  (rt_expireAt r < now w)%Z ->
  refreshToken (cookies req) = Some (rt_token r) -> rt_token r <> "" ->
  (forall t : Z,
      fst (exec cfg lib (RefreshToken_findOne (rt_token r)) (set_now t w)) = Some r) /\
  (forall u : User,
      uuid_source_ok w -> find (by_uid (rt_userId r)) (users w) = Some u ->
      res_statusCode (fst (serve cfg lib (refresh cfg) req w)) = 200) /\
  serve cfg lib (refresh cfg) req (ttl_sweep w) =
  (errorHandler (new_Error "Refresh token not found." 403), ttl_sweep w) /\
  res_statusCode (fst (serve cfg lib (refresh cfg) req (ttl_sweep w))) = 403.
Proof.
  intros Hok Hin Hexp Hc Hv.
  pose proof Hok as (_ & Htok & _).
  assert (serve cfg lib (refresh cfg) req (ttl_sweep w) =
          (errorHandler (new_Error "Refresh token not found." 403), ttl_sweep w)) as Hswept.
  { unfold serve. rewrite (run_refresh cfg lib req _ _ Hc Hv).
    rewrite swept_value_is_gone; [reflexivity | assumption | assumption | lia]. }
  repeat split.
  - intros t. simpl. now apply find_by_token_In.
  - intros u Hsrc Hu.
    destruct (@refresh_honours_stored req r u w Hok Hsrc Hin Hc Hv Hu)
      as (res & w' & Hrun & Hst).
    unfold serve. rewrite Hrun. exact Hst.
  - exact Hswept.
  - rewrite Hswept. reflexivity.
Qed.

End Expiry.

(* ================================================================== *)
(** ** Issuing sessions: login and register *)

Section Sessions.

Import AuthServer.

Variable cfg : Config.
Variable lib : Libs.

(** The row [createTokens] appends is the only new one. *)
Lemma new_rows_after_issue (u : User) (w w1 : World) :
  (forall r, In r (refreshTokens w) -> rt_id r < nextId w) ->
  (forall r, In r (refreshTokens w1) -> In r (refreshTokens w)) ->
  nextId w <= nextId w1 ->
  new_rows w (after_issue cfg u w1) = [issued_row cfg u w1].
Proof.
  intros Hbound Hincl Hnext. unfold new_rows. simpl. rewrite filter_app.
  rewrite filter_nil_of_all_false.
  - simpl.
    assert (existsb (by_rtid (nextId w1)) (refreshTokens w) = false) as ->; [| reflexivity].
    destruct (existsb (by_rtid (nextId w1)) (refreshTokens w)) eqn:E; [| reflexivity].
    apply existsb_exists in E as (x & Hx & Hid). apply Nat.eqb_eq in Hid.
    specialize (Hbound x Hx). lia.
  - intros x Hx. apply negb_false_iff. apply existsb_exists.
    exists x. split; [now apply Hincl |]. unfold by_rtid. apply Nat.eqb_refl.
Qed.

Lemma filter_by_userId_signed_out (uid : ObjectId) (l : list RefreshToken) :
  filter (by_userId uid) (filter (fun r => negb (by_userId uid r)) l) = [].
Proof.
  apply filter_nil_of_all_false. intros x Hx.
  apply filter_In in Hx as [_ Hx]. now apply negb_true_iff in Hx.
Qed.

(** [login] in closed form. *)
Lemma run_login (req : Request) (w : World) :
  run (exec cfg lib) (login cfg req) w =
  match find (by_email (email (body req))) (users w) with
  | None => (inl (new_Error "Incorrect credentials" 401), w)
  | Some u =>
      if bcrypt_compare lib (password (body req)) (u_password u)
      then
        if existsb (by_token (uuidGen w (uuidCtr w)))
                   (refreshTokens (signed_out (u_id u) w))
        then (inl duplicate_key, snd (draw_uuid (signed_out (u_id u) w)))
        else (inr (session_response cfg lib 200 "Logged in" u (signed_out (u_id u) w)),
              after_issue cfg u (signed_out (u_id u) w))
      else (inl (new_Error "Incorrect credentials" 401), w)
  end.
Proof.
  unfold login. cbn.
  destruct (find (by_email (email (body req))) (users w)) as [u |]; [| reflexivity].
  cbn.
  destruct (bcrypt_compare lib (password (body req)) (u_password u)); [| reflexivity].
  cbn.
  destruct (existsb _ _); reflexivity.
Qed.

(** The operations of a [login] that got as far as storing the new row. *)
Lemma trace_login (req : Request) (u : User) (w : World) :
  find (by_email (email (body req))) (users w) = Some u ->
  bcrypt_compare lib (password (body req)) (u_password u) = true ->
  existsb (by_token (uuidGen w (uuidCtr w)))
          (refreshTokens (signed_out (u_id u) w)) = false ->
  trace (exec cfg lib) (login cfg req) w =
  [ Ev (User_findOne (email (body req)));
    Ev (Bcrypt_compare (password (body req)) (u_password u));
    Ev (RefreshToken_deleteMany (u_id u));
    Ev RandomUUID;
    Ev (RefreshToken_create (uuidGen w (uuidCtr w)) (u_id u));
    Ev (Jwt_sign (u_roles u) (ACCESS_JWT_SECRET cfg) (ACCESS_TOKEN_TTL cfg)
                 (ObjectId_toString (u_id u))) ].
Proof.
  intros Hu Hm Hnew. unfold login. cbn. rewrite Hu. cbn. rewrite Hm. cbn.
  cbn in Hnew. rewrite Hnew. reflexivity.
Qed.

(** C3. A successful login deletes every RefreshToken row of the user,
    then creates one, and only then answers: the operations run in that
    order, none of the earlier rows is left when the response is produced,
    the user's only row is the new one, and a refresh call presenting a
    value of one of the earlier rows is answered 403 Forbidden.  (The
    collection has its unique indexes in force and [randomUUID] does not
    repeat a stored value.) *)
Theorem login_supersedes_sessions
        (req : Request) (res : Response) (w w' : World) :
  store_ok w -> uuid_source_ok w ->
  run (exec cfg lib) (login cfg req) w = (inr res, w') ->
  exists u : User,
    find (by_email (email (body req))) (users w) = Some u /\
    trace (exec cfg lib) (login cfg req) w =
      [ Ev (User_findOne (email (body req)));
        Ev (Bcrypt_compare (password (body req)) (u_password u));
        Ev (RefreshToken_deleteMany (u_id u));
        Ev RandomUUID;
        Ev (RefreshToken_create (uuidGen w (uuidCtr w)) (u_id u));
        Ev (Jwt_sign (u_roles u) (ACCESS_JWT_SECRET cfg) (ACCESS_TOKEN_TTL cfg)
                     (ObjectId_toString (u_id u))) ] /\
    res = session_response cfg lib 200 "Logged in" u (signed_out (u_id u) w) /\
    tokens_of (u_id u) w' = [issued_row cfg u (signed_out (u_id u) w)] /\
    new_rows w w' = [issued_row cfg u (signed_out (u_id u) w)] /\
    (forall old : RefreshToken,
        In old (refreshTokens w) -> rt_userId old = u_id u ->
        ~ In old (refreshTokens w')) /\
    (forall (old : RefreshToken) (req' : Request),
        In old (refreshTokens w) -> rt_userId old = u_id u ->
        rt_token old <> "" ->
        refreshToken (cookies req') = Some (rt_token old) ->
        exists err : Thrown,
          run (exec cfg lib) (refresh cfg req') w' = (inl err, w') /\
          res_statusCode (errorHandler err) = 403).
Proof.
  intros Hok Hsrc Hrun.
  pose proof Hok as (Hid & Htok & Hbound & _).
  pose proof Hsrc as (Hfresh & _).
  rewrite run_login in Hrun.
  destruct (find (by_email (email (body req))) (users w)) as [u |] eqn:Hu;
    [| discriminate].
  destruct (bcrypt_compare lib (password (body req)) (u_password u)) eqn:Hm;
    [| discriminate].
  destruct (existsb _ _) eqn:Hnew; [discriminate |].
  injection Hrun as <- <-.
  exists u. split; [reflexivity |].
  split; [now apply trace_login |].
  split; [reflexivity |].
  split.
  { unfold tokens_of. simpl. rewrite filter_app, filter_by_userId_signed_out.
    simpl. unfold by_userId. simpl. now rewrite Nat.eqb_refl. }
  split.
  { apply new_rows_after_issue; [| | simpl; lia].
    - intros r Hr. now apply Hbound.
    - simpl. intros r Hr. apply filter_In in Hr. tauto. }
  split.
  { intros old Hold Huid. simpl. rewrite in_app_iff. intros [Hin | [Heq | []]].
    - apply filter_In in Hin as [_ Hneg]. unfold by_userId in Hneg.
      rewrite Huid, Nat.eqb_refl in Hneg. discriminate.
    - destruct (Hbound old Hold) as [Hlt _]. rewrite <- Heq in Hlt. simpl in Hlt. lia. }
  intros old req' Hold Huid Hne Hc.
  exists (new_Error "Refresh token not found." 403).
  split; [| reflexivity].
  apply refresh_refuses_retired with (v := rt_token old); [assumption | assumption |].
  split.
  - simpl. intros r Hr. apply in_app_iff in Hr as [Hr | [<- | []]].
    + apply filter_In in Hr as [Hr Hneg]. intros Heq.
      assert (r = old) as -> by (eapply NoDup_map_inj with (f := rt_token); eauto).
      unfold by_userId in Hneg. rewrite Huid, Nat.eqb_refl in Hneg. discriminate.
    + simpl. intros Heq. apply (Hfresh (uuidCtr w) old); [lia | assumption | congruence].
  - simpl. intros n Hn Heq. apply (Hfresh n old); [lia | assumption | congruence].
Qed.

Lemma existsb_by_email_of_find (e : string) (l : list User) :
  find (by_email e) l = None -> existsb (by_email e) l = false.
Proof.
  intros H. destruct (existsb (by_email e) l) eqn:E; [| reflexivity].
  apply existsb_exists in E as (x & Hx & Hex).
  pose proof (find_none _ _ H x Hx). congruence.
Qed.

(** [register] in closed form. *)
Lemma run_register (req : Request) (w : World) :
  run (exec cfg lib) (register cfg req) w =
  match find (by_email (email (body req))) (users w) with
  | Some _ => (inl (new_Error "Email already exists" 409), w)
  | None =>
      if existsb (by_token (uuidGen w (uuidCtr w))) (refreshTokens w)
      then (inl duplicate_key, snd (draw_uuid (after_create_user cfg lib (body req) w)))
      else (inr (session_response cfg lib 201 "Registered"
                   (registered_user cfg lib (body req) w)
                   (after_create_user cfg lib (body req) w)),
            after_issue cfg (registered_user cfg lib (body req) w)
                        (after_create_user cfg lib (body req) w))
  end.
Proof.
  unfold register. cbn.
  destruct (find (by_email (email (body req))) (users w)) as [u |] eqn:Hfind;
    [reflexivity |].
  cbn. rewrite (existsb_by_email_of_find _ _ Hfind). cbn.
  destruct (existsb _ _); reflexivity.
Qed.

(** What [register] does for an unused email. *)
Lemma register_issues_session (req : Request) (w : World) :
  store_ok w -> uuid_source_ok w ->
  find (by_email (email (body req))) (users w) = None ->
  let u := registered_user cfg lib (body req) w in
  let w1 := after_create_user cfg lib (body req) w in
  run (exec cfg lib) (register cfg req) w =
    (inr (session_response cfg lib 201 "Registered" u w1), after_issue cfg u w1) /\
  users (after_issue cfg u w1) = users w ++ [u] /\
  new_rows w (after_issue cfg u w1) = [issued_row cfg u w1] /\
  tokens_of (u_id u) (after_issue cfg u w1) = [issued_row cfg u w1] /\
  res_cookies (session_response cfg lib 201 "Registered" u w1) =
    [ cookieOptions cfg "refreshToken" (rt_token (issued_row cfg u w1))
                    (Some (REFRESH_TOKEN_TTL cfg * 1000)%Z);
      cookieOptions cfg "accessToken" (issued_access cfg lib u w1) None ].
Proof.
  intros (_ & _ & Hbound & _) (Hfresh & _) Hfind u w1.
  rewrite run_register, Hfind.
  assert (existsb (by_token (uuidGen w (uuidCtr w))) (refreshTokens w) = false) as ->.
  { apply existsb_by_token_false. intros r Hr. apply Hfresh; [lia | assumption]. }
  split; [reflexivity |].
  split; [reflexivity |].
  split.
  { apply new_rows_after_issue; [| auto | simpl; lia].
    intros r Hr. now apply Hbound. }
  split; [| reflexivity].
  unfold tokens_of. simpl. rewrite filter_app. simpl.
  unfold by_userId at 2. simpl. rewrite Nat.eqb_refl.
  rewrite filter_nil_of_all_false; [reflexivity |].
  intros r Hr. unfold by_userId. apply Nat.eqb_neq.
  destruct (Hbound r Hr). lia.
Qed.

End Sessions.

(* ================================================================== *)
(** ** Failures of login and registration, and the access token *)

Section Failures.

Import AuthServer.

Variable cfg : Config.
Variable lib : Libs.

(** X5. The two ways a login fails are one failure: an unknown email and
    a wrong password throw the same error, hence get the same response, and
    the world is left alone. *)
Lemma login_failures_are_indistinguishable
      (req1 req2 : Request) (u : User) (w : World) :
  find (by_email (email (body req1))) (users w) = None ->
  find (by_email (email (body req2))) (users w) = Some u ->
  bcrypt_compare lib (password (body req2)) (u_password u) = false ->
  run (exec cfg lib) (login cfg req1) w =
    (inl (new_Error "Incorrect credentials" 401), w) /\
  run (exec cfg lib) (login cfg req2) w =
    (inl (new_Error "Incorrect credentials" 401), w) /\
  serve cfg lib (login cfg) req1 w = serve cfg lib (login cfg) req2 w.
Proof.
  intros H1 H2 Hm. unfold serve. rewrite !run_login, H1, H2, Hm. repeat split.
Qed.

(** [me] in closed form: it only reads. *)
Lemma run_me (req : Request) (w : World) :
  run (exec cfg lib) (me cfg req) w =
  (match accessToken (cookies req) with
   | None => inl (new_Error "Access token is required." 401)
   | Some token =>
       if String.eqb token "" then inl (new_Error "Access token is required." 401)
       else
         match jwt_verify lib token (ACCESS_JWT_SECRET cfg) (now w) with
         | inl e =>
             if instanceof_TokenExpiredError e
             then inl (new_Error_code "Expired access token" 401 "ACCESS_TOKEN_EXPIRED")
             else inl (new_Error "Invalid access token." 401)
         | inr decoded =>
             match jwt_sub decoded with
             | None => inl (new_Error "Invalid access token." 401)
             | Some sub =>
                 if String.eqb sub "" then inl (new_Error "Invalid access token." 401)
                 else
                   match ObjectId_cast sub with
                   | None => inl (new_Error "Invalid access token." 401)
                   | Some id =>
                       match find (by_uid id) (users w) with
                       | None => inl (new_Error "Invalid access token." 401)
                       | Some user =>
                           inr (res_json (res_status res0 200)
                                         (JMessageUser "Valid token" user))
                       end
                   end
             end
         end
   end, w).
Proof.
  unfold me.
  destruct (accessToken (cookies req)) as [token |]; [| reflexivity].
  destruct (String.eqb token ""); [reflexivity |].
  rewrite run_try_catch. cbn.
  destruct (jwt_verify lib token (ACCESS_JWT_SECRET cfg) (now w)) as [e | decoded]; cbn.
  - destruct (instanceof_TokenExpiredError e); reflexivity.
  - destruct (jwt_sub decoded) as [sub |]; [| reflexivity].
    destruct (String.eqb sub ""); [reflexivity |]. cbn.
    destruct (ObjectId_cast sub) as [id |]; [| reflexivity]. cbn.
    destruct (find (by_uid id) (users w)); reflexivity.
Qed.

(** [logout] in closed form. *)
Lemma run_logout (req : Request) (w : World) :
  run (exec cfg lib) (logout req) w =
  (inr (res_json (res_clearCookie (res_clearCookie res0 "refreshToken") "accessToken")
                 (JMessage "Successfully logged out")),
   match refreshToken (cookies req) with
   | None => w
   | Some v =>
       if String.eqb v "" then w
       else set_refreshTokens w (remove_first (by_token v) (refreshTokens w)) (nextId w)
   end).
Proof.
  unfold logout. cbv zeta. rewrite run_bind.
  destruct (refreshToken (cookies req)) as [v |]; [| reflexivity].
  destruct (String.eqb v ""); reflexivity.
Qed.

(** C6. The error handler marks a response with the [WWW-Authenticate]
    header exactly when [jwt.verify] rejected the access token as expired;
    that response is a 401 whose header carries [token_expired].  A token
    rejected for any other reason (bad signature, malformed) gets the plain
    401 [Invalid access token.] with no header. *)
Theorem expired_access_token_is_marked (req : Request) (w : World) :
  let res := fst (serve cfg lib (me cfg) req w) in
  has_header "WWW-Authenticate" res = access_token_expired cfg lib req w /\
  (if access_token_expired cfg lib req w
   then res = mkResponse 401 [("WWW-Authenticate", www_authenticate_expired)] [] []
                         (JMessage "Expired access token")
   else res_headers res = []) /\
  (if access_token_invalid cfg lib req w
   then res = mkResponse 401 [] [] [] (JMessage "Invalid access token.")
   else True).
Proof.
  cbv zeta. unfold serve. rewrite run_me.
  unfold access_token_expired, access_token_invalid.
  destruct (accessToken (cookies req)) as [token |]; [| repeat split].
  destruct (String.eqb token ""); [repeat split |].
  destruct (jwt_verify lib token (ACCESS_JWT_SECRET cfg) (now w)) as [e | decoded].
  - destruct (instanceof_TokenExpiredError e); repeat split.
  - destruct (jwt_sub decoded) as [sub |]; [| repeat split].
    destruct (String.eqb sub ""); [repeat split |].
    destruct (ObjectId_cast sub) as [id |]; [| repeat split].
    destruct (find (by_uid id) (users w)); repeat split.
Qed.

End Failures.

(* ================================================================== *)
(** ** The store invariants hold in every reachable world *)

Section Invariants.

Import AuthServer.

Variable cfg : Config.
Variable lib : Libs.

(** Deleting rows keeps the indexes. *)
Lemma store_ok_fewer_rows (w : World) (rows : list RefreshToken) :
  store_ok w ->
  NoDup (map rt_id rows) -> NoDup (map rt_token rows) ->
  (forall r, In r rows -> In r (refreshTokens w)) ->
  store_ok (set_refreshTokens w rows (nextId w)).
Proof.
  intros (Hid & Htok & Hbound & Hu) Hid' Htok' Hincl.
  repeat split; simpl; try assumption; try apply Hu.
  - apply Hbound. now apply Hincl.
  - apply Hbound. now apply Hincl.
Qed.

Lemma store_ok_rotated (st : RefreshToken) (w : World) :
  store_ok w -> store_ok (rotated st w).
Proof.
  intros Hok. pose proof Hok as (Hid & Htok & _).
  apply store_ok_fewer_rows; try assumption.
  - now apply NoDup_map_remove_first.
  - now apply NoDup_map_remove_first.
  - intros r Hr. eapply In_remove_first; eassumption.
Qed.

Lemma store_ok_signed_out (uid : ObjectId) (w : World) :
  store_ok w -> store_ok (signed_out uid w).
Proof.
  intros Hok. pose proof Hok as (Hid & Htok & _).
  apply store_ok_fewer_rows; try assumption.
  - now apply NoDup_map_filter.
  - now apply NoDup_map_filter.
  - intros r Hr. apply filter_In in Hr. tauto.
Qed.

Lemma store_ok_ttl_sweep (w : World) : store_ok w -> store_ok (ttl_sweep w).
Proof.
  intros Hok. pose proof Hok as (Hid & Htok & _).
  apply store_ok_fewer_rows; try assumption.
  - now apply NoDup_map_filter.
  - now apply NoDup_map_filter.
  - intros r Hr. apply filter_In in Hr. tauto.
Qed.

Lemma store_ok_deleteOne (v : string) (w : World) :
  store_ok w ->
  store_ok (set_refreshTokens w (remove_first (by_token v) (refreshTokens w)) (nextId w)).
Proof.
  intros Hok. pose proof Hok as (Hid & Htok & _).
  apply store_ok_fewer_rows; try assumption.
  - now apply NoDup_map_remove_first.
  - now apply NoDup_map_remove_first.
  - intros r Hr. eapply In_remove_first; eassumption.
Qed.

(** Storing a row under a new token for a known user keeps the indexes. *)
Lemma store_ok_after_issue (u : User) (w : World) :
  store_ok w -> u_id u < nextId w ->
  existsb (by_token (uuidGen w (uuidCtr w))) (refreshTokens w) = false ->
  store_ok (after_issue cfg u w).
Proof.
  intros (Hid & Htok & Hbound & Huid & Hemail & Hubound) Hu Hnew.
  pose proof (proj1 (existsb_by_token_false _ _) Hnew) as Hnew'.
  repeat split; simpl; try assumption.
  - apply NoDup_map_snoc; [assumption |].
    intros x Hx. simpl. destruct (Hbound x Hx). lia.
  - apply NoDup_map_snoc; [assumption |].
    intros x Hx. simpl. now apply Hnew'.
  - apply in_app_iff in H as [Hr | [<- | []]]; simpl; [| lia].
    destruct (Hbound r Hr). lia.
  - apply in_app_iff in H as [Hr | [<- | []]]; simpl; [| lia].
    destruct (Hbound r Hr). lia.
  - intros x Hx. specialize (Hubound x Hx). lia.
Qed.

(** Creating a user under an unused email keeps the indexes. *)
Lemma store_ok_after_create_user (b : Body) (w : World) :
  store_ok w -> find (by_email (email b)) (users w) = None ->
  store_ok (after_create_user cfg lib b w).
Proof.
  intros (Hid & Htok & Hbound & Huid & Hemail & Hubound) Hfind.
  repeat split; simpl; try assumption.
  - destruct (Hbound r H). lia.
  - destruct (Hbound r H). lia.
  - apply NoDup_map_snoc; [assumption |].
    intros x Hx. simpl. specialize (Hubound x Hx). lia.
  - apply NoDup_map_snoc; [assumption |].
    intros x Hx. simpl. intros Heq.
    pose proof (find_none _ _ Hfind x Hx) as Hf. unfold by_email in Hf.
    apply String.eqb_neq in Hf. contradiction.
  - intros x Hx. apply in_app_iff in Hx as [Hx | [<- | []]]; simpl; [| lia].
    specialize (Hubound x Hx). lia.
Qed.

Lemma store_ok_run_call (c : Call) (w : World) :
  store_ok w -> store_ok (run_call cfg lib c w).
Proof.
  intros Hok. pose proof Hok as (_ & _ & _ & _ & _ & Hubound).
  destruct c as [req | req | req | req | req | t |]; unfold run_call.
  - rewrite run_register.
    destruct (find (by_email (email (body req))) (users w)) eqn:Hfind; [exact Hok |].
    pose proof (store_ok_after_create_user (body req) w Hok Hfind) as Hok1.
    destruct (existsb _ _) eqn:Hnew; simpl; [exact Hok1 |].
    apply store_ok_after_issue; [exact Hok1 | simpl; lia | exact Hnew].
  - rewrite run_login.
    destruct (find (by_email (email (body req))) (users w)) as [u |] eqn:Hfind;
      [| exact Hok].
    destruct (bcrypt_compare lib _ _); [| exact Hok].
    pose proof (store_ok_signed_out (u_id u) w Hok) as Hok1.
    destruct (existsb _ _) eqn:Hnew; simpl; [exact Hok1 |].
    apply store_ok_after_issue; [exact Hok1 | | exact Hnew].
    simpl. apply Hubound. apply find_by_email_spec in Hfind. tauto.
  - rewrite run_me. exact Hok.
  - rewrite run_logout. simpl.
    destruct (refreshToken (cookies req)) as [v |]; [| exact Hok].
    destruct (String.eqb v ""); [exact Hok | now apply store_ok_deleteOne].
  - destruct (falsy (refreshToken (cookies req))) eqn:Hf.
    + rewrite (run_refresh_missing cfg lib req w Hf). exact Hok.
    + unfold falsy in Hf.
      destruct (refreshToken (cookies req)) as [v |] eqn:Hc; [| discriminate].
      apply String.eqb_neq in Hf.
      rewrite (run_refresh cfg lib req v w Hc Hf).
      destruct (find (by_token v) (refreshTokens w)) as [st |]; [| exact Hok].
      cbv zeta. pose proof (store_ok_rotated st w Hok) as Hok1.
      destruct (find (by_uid (rt_userId st)) (users w)) as [u |] eqn:Hu;
        [| exact Hok1].
      destruct (existsb _ _) eqn:Hnew; simpl; [exact Hok1 |].
      apply (store_ok_after_issue u (rotated st w)); [exact Hok1 | | exact Hnew].
      simpl. apply Hubound. apply find_by_uid_spec in Hu. tauto.
  - exact Hok.
  - now apply store_ok_ttl_sweep.
Qed.

(** A supply of UUIDs that never repeats stays one as the world evolves. *)
Lemma uuid_source_ok_evolves (w w' : World) :
  uuid_source_ok w -> evolves w w' -> uuid_source_ok w'.
Proof.
  intros (Hfresh & Hinj) (Hgen & Hctr & Hrows). split.
  - intros n r Hn Hr. rewrite Hgen.
    destruct (Hrows r Hr) as [Hold | (k & Hk & Htok)].
    + apply Hfresh; [lia | assumption].
    + rewrite Htok. intros Heq. apply Hinj in Heq; lia.
  - intros n m Hn Hm. rewrite Hgen. intros Heq. apply Hinj; [lia | lia | assumption].
Qed.

(** The hypotheses of the lifecycle theorems are invariants: they hold in
    the empty world of a server whose UUID supply is injective, and every
    request, clock change and TTL sweep preserves them. *)
Lemma invariants_are_preserved (cs : list Call) (w : World) :
  store_ok w -> uuid_source_ok w ->
  store_ok (run_calls cfg lib cs w) /\ uuid_source_ok (run_calls cfg lib cs w).
Proof.
  intros Hok Hsrc. split.
  - revert w Hok Hsrc; induction cs as [| c cs IH]; intros w Hok Hsrc; simpl;
      [assumption |].
    apply IH; [now apply store_ok_run_call |].
    eapply uuid_source_ok_evolves; [exact Hsrc | apply run_call_evolves].
  - eapply uuid_source_ok_evolves; [exact Hsrc | apply run_calls_evolves].
Qed.

Lemma invariants_hold_initially
      (t : Z) (gen : nat -> string) (bytes : nat -> string) :
  (forall n m, gen n = gen m -> n = m) ->
  store_ok (mkWorld [] [] 0 t gen 0 bytes 0) /\
  uuid_source_ok (mkWorld [] [] 0 t gen 0 bytes 0).
Proof.
  intros Hinj. split.
  - repeat split; simpl; try apply NoDup_nil; contradiction.
  - split; simpl; [intros n r _ [] | intros n m _ _; apply Hinj].
Qed.

End Invariants.

(* ================================================================== *)
(** ** The earlier controllers *)

Section LegacyFacts.

Variable env : Legacy.Env.
Variable lib : Legacy.Libs.

Lemma legacy_existsb_of_find (e : string) (l : list Legacy.UserDoc) :
  find (Legacy.by_email e) l = None -> existsb (Legacy.by_email e) l = false.
Proof.
  intros H. destruct (existsb (Legacy.by_email e) l) eqn:E; [| reflexivity].
  apply existsb_exists in E as (x & Hx & Hex).
  pose proof (find_none _ _ H x Hx). congruence.
Qed.

Lemma find_snoc_fresh (A : Type) (f : A -> bool) (l : list A) (a : A) :
  find f l = None -> f a = true -> find f (l ++ [a]) = Some a.
Proof.
  induction l as [| b t IH]; simpl; intros Hn Ha.
  - now rewrite Ha.
  - destruct (f b); [discriminate | now apply IH].
Qed.

(** [signUp] refuses a known email with a 400 cause and touches nothing. *)
Lemma signUp_duplicate (req : Legacy.Request) (d : Legacy.UserDoc) (w : Legacy.World) :
  find (Legacy.by_email (Legacy.email (Legacy.sanitizedBody req))) (Legacy.users w) = Some d ->
  run (Legacy.exec lib) (Legacy.signUp req) w =
  (inl (new_Error_num "Email already exists" 400), w).
Proof. intros H. unfold Legacy.signUp. cbn. rewrite H. reflexivity. Qed.

(** [signIn] tells an unknown email from a wrong password. *)
Lemma signIn_unknown_email (req : Legacy.Request) (w : Legacy.World) :
  find (Legacy.by_email (Legacy.email (Legacy.sanitizedBody req))) (Legacy.users w) = None ->
  run (Legacy.exec lib) (Legacy.signIn env req) w =
  (inl (new_Error_num "User not found" 404), w).
Proof. intros H. unfold Legacy.signIn. cbn. rewrite H. reflexivity. Qed.

Lemma signIn_wrong_password
      (req : Legacy.Request) (d : Legacy.UserDoc) (h : string) (w : Legacy.World) :
  find (Legacy.by_email (Legacy.email (Legacy.sanitizedBody req))) (Legacy.users w) = Some d ->
  Legacy.d_password d = Some h ->
  Legacy.bcrypt_compare lib (Legacy.password (Legacy.sanitizedBody req)) h = false ->
  run (Legacy.exec lib) (Legacy.signIn env req) w =
  (inl (new_Error_num "Invalid email or password" 401), w).
Proof.
  intros H Hh Hm. unfold Legacy.signIn. cbn. rewrite H. cbn. rewrite Hh. cbn.
  rewrite Hm. reflexivity.
Qed.

(** [signUp] succeeds for an unused email and sets no cookie. *)
Lemma signUp_answers_with_the_created_document_aux
      (req : Legacy.Request) (w : Legacy.World) :
  find (Legacy.by_email (Legacy.email (Legacy.sanitizedBody req))) (Legacy.users w) = None ->
  exists w' : Legacy.World,
    run (Legacy.exec lib) (Legacy.signUp req) w =
    (inr (Legacy.mkResponse 200 []
            (Legacy.JUser
               (Legacy.mkUserDoc (Legacy.nextId w)
                  (Legacy.firstName (Legacy.sanitizedBody req))
                  (Legacy.lastName (Legacy.sanitizedBody req))
                  (Legacy.email (Legacy.sanitizedBody req))
                  (Some (Legacy.bcrypt_hash lib (Legacy.password (Legacy.sanitizedBody req))
                           (Legacy.bcrypt_genSalt lib 10
                              (Legacy.randomBytes w (Legacy.randomCtr w)))))
                  (Legacy.mkLocation "Germany" "" "") [] (Legacy.now w) (Legacy.now w)))),
     w').
Proof.
  intros Hfind. eexists.
  unfold Legacy.signUp. cbn. rewrite Hfind. cbn.
  rewrite (legacy_existsb_of_find _ _ Hfind). cbn. reflexivity.
Qed.

(** C10. For an unused email [signUp] answers 200 with the document
    [User.create] returned: it holds the bcrypt hash under [password],
    although the schema declares the path [select: false] and a query for
    the same document comes back without it.  No cookie is set and no token
    is signed: the only operations are the lookup, the hash and the
    insert. *)
Theorem signUp_answers_with_the_created_document
        (req : Legacy.Request) (w : Legacy.World) :
  let b := Legacy.sanitizedBody req in
  let hashed := Legacy.bcrypt_hash lib (Legacy.password b)
                  (Legacy.bcrypt_genSalt lib 10
                     (Legacy.randomBytes w (Legacy.randomCtr w))) in
  let d := Legacy.mkUserDoc (Legacy.nextId w) (Legacy.firstName b) (Legacy.lastName b)
             (Legacy.email b) (Some hashed)
             (Legacy.mkLocation "Germany" "" "") [] (Legacy.now w) (Legacy.now w) in
  find (Legacy.by_email (Legacy.email b)) (Legacy.users w) = None ->
  exists w' : Legacy.World,
    run (Legacy.exec lib) (Legacy.signUp req) w =
      (inr (Legacy.mkResponse 200 [] (Legacy.JUser d)), w') /\
    Legacy.users w' = Legacy.users w ++ [d] /\
    Legacy.d_password d = Some hashed /\
    fst (Legacy.exec lib (Legacy.User_findOne (Legacy.email b)) w') =
      Some (Legacy.deselect_password d) /\
    Legacy.d_password (Legacy.deselect_password d) = None /\
    trace (Legacy.exec lib) (Legacy.signUp req) w =
      [ Ev (Legacy.User_findOne (Legacy.email b));
        Ev (Legacy.Bcrypt_hash_rounds (Legacy.password b) 10);
        Ev (Legacy.User_create b hashed) ].
Proof.
  intros b hashed d Hfind.
  eexists. split.
  { unfold Legacy.signUp. cbn. fold b. rewrite Hfind. cbn.
    fold b. rewrite (legacy_existsb_of_find _ _ Hfind). cbn. reflexivity. }
  split; [reflexivity |].
  split; [reflexivity |].
  split.
  { cbn. rewrite find_snoc_fresh; [reflexivity | exact Hfind |].
    unfold Legacy.by_email. cbn. apply String.eqb_refl. }
  split; [reflexivity |].
  unfold Legacy.signUp. cbn. fold b. rewrite Hfind. cbn.
  fold b. rewrite (legacy_existsb_of_find _ _ Hfind). reflexivity.
Qed.

End LegacyFacts.

(* ================================================================== *)
(** ** Registration on both servers *)

Section Registration.

Import AuthServer.

Variable cfg : Config.
Variable lib : Libs.
Variable legacy_lib : Legacy.Libs.

(** C8, as the code has it.  A registration whose email is already taken
    is refused before anything is written: [register] answers 409 with
    [Email already exists] after the single [User.exists] lookup, [signUp]
    rejects with the same message and a 400 cause; either way the world is
    unchanged, so no second User exists. *)
Theorem duplicate_registration_is_refused
        (req : Request) (u : User) (w : World)
        (lreq : Legacy.Request) (d : Legacy.UserDoc) (lw : Legacy.World) :
  find (by_email (email (body req))) (users w) = Some u ->
  find (Legacy.by_email (Legacy.email (Legacy.sanitizedBody lreq))) (Legacy.users lw)
  = Some d ->
  serve cfg lib (register cfg) req w =
    (mkResponse 409 [] [] [] (JMessage "Email already exists"), w) /\
  trace (exec cfg lib) (register cfg req) w = [Ev (User_exists (email (body req)))] /\
  run (Legacy.exec legacy_lib) (Legacy.signUp lreq) lw =
    (inl (new_Error_num "Email already exists" 400), lw) /\
  carried_status (new_Error_num "Email already exists" 400) = Some 400.
Proof.
  intros Hu Hd. split.
  { unfold serve. rewrite run_register, Hu. reflexivity. }
  split.
  { unfold register. cbn. rewrite Hu. reflexivity. }
  split; [now apply signUp_duplicate with (d := d) | reflexivity].
Qed.

(** The operations of a [register] that got as far as signing. *)
Lemma trace_register (req : Request) (w : World) :
  find (by_email (email (body req))) (users w) = None ->
  existsb (by_token (uuidGen w (uuidCtr w))) (refreshTokens w) = false ->
  trace (exec cfg lib) (register cfg req) w =
  [ Ev (User_exists (email (body req)));
    Ev (Bcrypt_genSalt (SALT_ROUNDS cfg));
    Ev (Bcrypt_hash (password (body req))
                    (bcrypt_genSalt lib (SALT_ROUNDS cfg) (randomBytes w (randomCtr w))));
    Ev (User_create (email (body req))
                    (u_password (registered_user cfg lib (body req) w))
                    (firstName (body req)) (lastName (body req)));
    Ev RandomUUID;
    Ev (RefreshToken_create (uuidGen w (uuidCtr w)) (nextId w));
    Ev (Jwt_sign ["user"] (ACCESS_JWT_SECRET cfg) (ACCESS_TOKEN_TTL cfg)
                 (ObjectId_toString (nextId w))) ].
Proof.
  intros Hfind Hnew. unfold register. cbn. rewrite Hfind. cbn.
  rewrite (existsb_by_email_of_find _ _ Hfind). cbn. rewrite Hnew. reflexivity.
Qed.

(** C9, as the code has it.  For an unused email (and a [randomUUID] that
    does not repeat a stored value) [register] answers 201 [Registered],
    appends the user, creates exactly one RefreshToken row, linked to that
    user and the only row the user has, and hands the client both
    credentials: the [refreshToken] cookie holds the value of that row,
    drawn from [randomUUID], and the [accessToken] cookie holds the token
    [jwt.sign] made for the roles of the new user with the access secret,
    the access TTL and the user's id as subject; signing is the last of the
    operations of the request.  [signUp] creates the user as well but issues
    no session: it sets no cookie. *)
Theorem registration_on_both_servers
        (req : Request) (w : World) (lreq : Legacy.Request) (lw : Legacy.World) :
  store_ok w -> uuid_source_ok w ->
  find (by_email (email (body req))) (users w) = None ->
  find (Legacy.by_email (Legacy.email (Legacy.sanitizedBody lreq))) (Legacy.users lw)
  = None ->
  (exists (res : Response) (w' : World) (u : User) (row : RefreshToken),
      run (exec cfg lib) (register cfg req) w = (inr res, w') /\
      res_statusCode res = 201 /\
      users w' = users w ++ [u] /\ u_email u = email (body req) /\
      new_rows w w' = [row] /\ tokens_of (u_id u) w' = [row] /\
      rt_userId row = u_id u /\
      rt_token row = uuidGen w (uuidCtr w) /\
      u_roles u = ["user"] /\
      res_cookies res =
        [ cookieOptions cfg "refreshToken" (rt_token row)
                        (Some (REFRESH_TOKEN_TTL cfg * 1000)%Z);
          cookieOptions cfg "accessToken"
                        (jwt_sign lib (u_roles u) (ACCESS_JWT_SECRET cfg)
                                  (ACCESS_TOKEN_TTL cfg) (ObjectId_toString (u_id u))
                                  (now w))
                        None ] /\
      res_body res = JMessage "Registered" /\
      trace (exec cfg lib) (register cfg req) w =
        [ Ev (User_exists (email (body req)));
          Ev (Bcrypt_genSalt (SALT_ROUNDS cfg));
          Ev (Bcrypt_hash (password (body req))
                          (bcrypt_genSalt lib (SALT_ROUNDS cfg)
                                          (randomBytes w (randomCtr w))));
          Ev (User_create (email (body req)) (u_password u)
                          (firstName (body req)) (lastName (body req)));
          Ev RandomUUID;
          Ev (RefreshToken_create (rt_token row) (u_id u));
          Ev (Jwt_sign (u_roles u) (ACCESS_JWT_SECRET cfg) (ACCESS_TOKEN_TTL cfg)
                       (ObjectId_toString (u_id u))) ]) /\
  (exists (lres : Legacy.Response) (lw' : Legacy.World),
      run (Legacy.exec legacy_lib) (Legacy.signUp lreq) lw = (inr lres, lw') /\
      Legacy.res_cookies lres = []).
Proof.
  intros Hok Hsrc Hfind Hlfind. split.
  - destruct (register_issues_session cfg lib req w Hok Hsrc Hfind)
      as (Hrun & Husers & Hnew & Htok & Hcookies).
    eexists. eexists. eexists. eexists.
    split; [exact Hrun |].
    split; [reflexivity |].
    split; [exact Husers |].
    split; [reflexivity |].
    split; [exact Hnew |].
    split; [exact Htok |].
    split; [reflexivity |].
    split; [reflexivity |].
    split; [reflexivity |].
    split; [exact Hcookies |].
    split; [reflexivity |].
    apply trace_register; [exact Hfind |].
    apply existsb_by_token_false. intros r Hr.
    destruct Hsrc as (Hfresh & _). apply Hfresh; [lia | assumption].
  - destruct (signUp_answers_with_the_created_document_aux legacy_lib lreq lw Hlfind)
      as (lw' & Hrun).
    eexists. eexists. split; [exact Hrun | reflexivity].
Qed.

End Registration.

(* ================================================================== *)
(** ** The properties on the concrete deployment *)

Section OnDemo.

Import AuthServer.

Lemma uuid_of_not_r_old (n : nat) : Demo.uuid_of n <> "r-old".
Proof. destruct n; simpl; discriminate. Qed.

Lemma store_ok_world1 : store_ok Demo.world1.
Proof.
  unfold store_ok; simpl.
  repeat match goal with
         | |- _ /\ _ => split
         | |- NoDup _ => constructor; simpl
         | |- ~ _ => tauto
         | |- forall _, _ => intros ? [<- | []]; simpl; lia
         end.
Qed.

End OnDemo.

Lemma refresh_single_use_witness :
  exists err : Thrown,
    run (AuthServer.exec Demo.cfg Demo.lib)
        (AuthServer.refresh Demo.cfg (AuthServer.refresh_request "r-old"))
        (AuthServer.run_calls Demo.cfg Demo.lib Demo.between
           (snd (run (AuthServer.exec Demo.cfg Demo.lib)
                     (AuthServer.refresh Demo.cfg (AuthServer.refresh_request "r-old"))
                     Demo.world1))) =
    (inl err,
     AuthServer.run_calls Demo.cfg Demo.lib Demo.between
       (snd (run (AuthServer.exec Demo.cfg Demo.lib)
                 (AuthServer.refresh Demo.cfg (AuthServer.refresh_request "r-old"))
                 Demo.world1))) /\
    AuthServer.res_statusCode (AuthServer.errorHandler err) = 403.
Proof.
  destruct (@refresh_single_use Demo.cfg Demo.lib
              (AuthServer.refresh_request "r-old") "r-old"
              (AuthServer.res_json
                 (AuthServer.setAuthCookies Demo.cfg AuthServer.res0 "#" "0.s3cret")
                 (AuthServer.JMessage "Refreshed"))
              Demo.world1
              (snd (run (AuthServer.exec Demo.cfg Demo.lib)
                        (AuthServer.refresh Demo.cfg (AuthServer.refresh_request "r-old"))
                        Demo.world1))
              store_ok_world1 eq_refl eq_refl
              (fun n _ => uuid_of_not_r_old n)
              Demo.between (AuthServer.refresh_request "r-old") eq_refl)
    as (err & Hrun & Hstatus & _).
  exists err. split; assumption.
Defined.

Lemma uuid_of_inj (n m : nat) : Demo.uuid_of n = Demo.uuid_of m -> n = m.
Proof.
  revert m; induction n as [| n IH]; intros [| m]; simpl; intros H;
    try reflexivity; try discriminate.
  injection H as H. f_equal. now apply IH.
Qed.

Lemma uuid_source_ok_world1 (t : Z) : AuthServer.uuid_source_ok (AuthServer.set_now t Demo.world1).
Proof.
  split; simpl.
  - intros n r _ [<- | []]. simpl. intros H. symmetry in H. revert H.
    apply uuid_of_not_r_old.
  - intros n m _ _. apply uuid_of_inj.
Qed.

Lemma store_ok_stale_world : AuthServer.store_ok Demo.stale_world.
Proof. exact store_ok_world1. Qed.

(** C5, as the claim states it, fails: [row1] expired at 1000, the clock
    reads 2000, no sweep has run, and the rotation is served with 200. *)
Lemma expired_row_is_honoured :
  ~ AuthServer.expired_rows_are_refused Demo.cfg Demo.lib.
Proof.
  intros H.
  specialize (H Demo.stale_world Demo.row1 store_ok_stale_world
                (uuid_source_ok_world1 2000) (or_introl eq_refl)).
  simpl in H.
  assert (200 = 403) as Habs; [| discriminate].
  apply H; [discriminate | lia].
Qed.

Lemma expiry_is_enforced_by_the_sweep_witness :
  fst (AuthServer.exec Demo.cfg Demo.lib (AuthServer.RefreshToken_findOne "r-old")
         (AuthServer.set_now 5000 Demo.stale_world)) = Some Demo.row1 /\
  AuthServer.res_statusCode
    (fst (AuthServer.serve Demo.cfg Demo.lib (AuthServer.refresh Demo.cfg)
            (AuthServer.refresh_request "r-old") Demo.stale_world)) = 200 /\
  AuthServer.res_statusCode
    (fst (AuthServer.serve Demo.cfg Demo.lib (AuthServer.refresh Demo.cfg)
            (AuthServer.refresh_request "r-old")
            (AuthServer.ttl_sweep Demo.stale_world))) = 403.
Proof.
  destruct (@expiry_is_enforced_by_the_sweep Demo.cfg Demo.lib
              (AuthServer.refresh_request "r-old") Demo.row1 Demo.stale_world
              store_ok_stale_world (or_introl eq_refl) eq_refl eq_refl
              ltac:(discriminate))
    as (Hfind & Hhonour & _ & Hrefuse).
  split; [apply Hfind |].
  split; [| exact Hrefuse].
  apply (Hhonour Demo.ada (uuid_source_ok_world1 2000) eq_refl).
Defined.



Lemma login_supersedes_sessions_witness :
  exists u : AuthServer.User,
    AuthServer.tokens_of (AuthServer.u_id u)
      (AuthServer.after_issue Demo.cfg Demo.ada (AuthServer.signed_out 0 Demo.world1)) =
    [AuthServer.issued_row Demo.cfg u (AuthServer.signed_out (AuthServer.u_id u) Demo.world1)] /\
    ~ In Demo.row1
         (AuthServer.refreshTokens
            (AuthServer.after_issue Demo.cfg Demo.ada
               (AuthServer.signed_out 0 Demo.world1))).
Proof.
  destruct (@login_supersedes_sessions Demo.cfg Demo.lib
              (AuthServer.mkRequest Demo.ada_body Demo.no_cookies)
              (AuthServer.session_response Demo.cfg Demo.lib 200 "Logged in" Demo.ada
                 (AuthServer.signed_out 0 Demo.world1))
              Demo.world1
              (AuthServer.after_issue Demo.cfg Demo.ada
                 (AuthServer.signed_out 0 Demo.world1))
              store_ok_world1 (uuid_source_ok_world1 5) eq_refl)
    as (u & Hu & _ & _ & Htokens & _ & Hgone & _).
  exists u. split; [exact Htokens |].
  injection Hu as <-. apply Hgone; [now left | reflexivity].
Defined.

(** C7 on [signIn]: an unknown email is answered [User not found] with
    cause 404, a wrong password [Invalid email or password] with cause 401;
    the caller can tell the two apart. *)
Lemma signIn_reveals_unknown_email :
  fst (run (Legacy.exec Demo.legacy_lib)
           (Legacy.signIn Demo.legacy_env Demo.legacy_unknown_request)
           Demo.legacy_world1) = inl (new_Error_num "User not found" 404) /\
  fst (run (Legacy.exec Demo.legacy_lib)
           (Legacy.signIn Demo.legacy_env Demo.legacy_wrong_password_request)
           Demo.legacy_world1) = inl (new_Error_num "Invalid email or password" 401) /\
  fst (run (Legacy.exec Demo.legacy_lib)
           (Legacy.signIn Demo.legacy_env Demo.legacy_unknown_request)
           Demo.legacy_world1) <>
  fst (run (Legacy.exec Demo.legacy_lib)
           (Legacy.signIn Demo.legacy_env Demo.legacy_wrong_password_request)
           Demo.legacy_world1).
Proof.
  rewrite (signIn_unknown_email Demo.legacy_env Demo.legacy_lib
             Demo.legacy_unknown_request Demo.legacy_world1 eq_refl).
  rewrite (signIn_wrong_password Demo.legacy_env Demo.legacy_lib
             Demo.legacy_wrong_password_request Demo.legacy_ada "salt$engine"
             Demo.legacy_world1 eq_refl eq_refl eq_refl).
  repeat split. simpl. discriminate.
Qed.

(** C8, as the claim states it, fails on [signUp]: the duplicate is
    refused with a 400 cause, not 409. *)
Lemma signUp_duplicate_is_not_409 :
  ~ Legacy.duplicate_is_conflict Demo.legacy_lib.
Proof.
  intros H.
  destruct (H Demo.legacy_ada_request Demo.legacy_world1 Demo.legacy_ada eq_refl)
    as (err & Herr & Hstatus).
  rewrite (signUp_duplicate Demo.legacy_lib Demo.legacy_ada_request
             Demo.legacy_ada Demo.legacy_world1 eq_refl) in Herr.
  simpl in Herr. injection Herr as <-. simpl in Hstatus. discriminate.
Qed.

Lemma duplicate_registration_is_refused_witness :
  AuthServer.serve Demo.cfg Demo.lib (AuthServer.register Demo.cfg)
    (AuthServer.mkRequest Demo.ada_body Demo.no_cookies) Demo.world1 =
  (AuthServer.mkResponse 409 [] [] [] (AuthServer.JMessage "Email already exists"),
   Demo.world1) /\
  run (Legacy.exec Demo.legacy_lib) (Legacy.signUp Demo.legacy_ada_request)
      Demo.legacy_world1 =
  (inl (new_Error_num "Email already exists" 400), Demo.legacy_world1).
Proof.
  destruct (@duplicate_registration_is_refused Demo.cfg Demo.lib Demo.legacy_lib
              (AuthServer.mkRequest Demo.ada_body Demo.no_cookies) Demo.ada Demo.world1
              Demo.legacy_ada_request Demo.legacy_ada Demo.legacy_world1
              eq_refl eq_refl)
    as (Hreg & _ & Hsign & _).
  split; assumption.
Defined.

(** C9, as the claim states it, fails on [signUp]: the registration
    succeeds and no credential is handed to the client. *)
Lemma signUp_issues_no_session :
  ~ Legacy.registration_issues_session Demo.legacy_lib.
Proof.
  intros H.
  destruct (H Demo.legacy_ada_request Demo.legacy_empty eq_refl)
    as (res & Hres & Hrefresh & _).
  vm_compute in Hres. injection Hres as <-. discriminate.
Qed.

Lemma registration_on_both_servers_witness :
  (exists (res : AuthServer.Response) (w' : AuthServer.World),
      run (AuthServer.exec Demo.cfg Demo.lib)
          (AuthServer.register Demo.cfg
             (AuthServer.mkRequest Demo.bob_body Demo.no_cookies)) Demo.world1
      = (inr res, w') /\
      AuthServer.res_statusCode res = 201 /\
      length (AuthServer.new_rows Demo.world1 w') = 1) /\
  (exists (lres : Legacy.Response) (lw' : Legacy.World),
      run (Legacy.exec Demo.legacy_lib) (Legacy.signUp Demo.legacy_ada_request)
          Demo.legacy_empty = (inr lres, lw') /\
      Legacy.res_cookies lres = []).
Proof.
  destruct (@registration_on_both_servers Demo.cfg Demo.lib Demo.legacy_lib
              (AuthServer.mkRequest Demo.bob_body Demo.no_cookies) Demo.world1
              Demo.legacy_ada_request Demo.legacy_empty
              store_ok_world1 (uuid_source_ok_world1 5) eq_refl eq_refl)
    as ((res & w' & u & row & Hrun & Hst & _ & _ & Hnew & _) & Hlegacy).
  split; [| exact Hlegacy].
  exists res, w'. split; [exact Hrun |]. split; [exact Hst |].
  rewrite Hnew. reflexivity.
Defined.

Lemma signUp_answers_with_the_created_document_witness :
  exists w' : Legacy.World,
    fst (run (Legacy.exec Demo.legacy_lib) (Legacy.signUp Demo.legacy_ada_request)
             Demo.legacy_empty) =
    inr (Legacy.mkResponse 200 []
           (Legacy.JUser
              (Legacy.mkUserDoc 0 "Ada" "Lovelace" "ada@example.org"
                 (Some "salt$engine") (Legacy.mkLocation "Germany" "" "") [] 0 0))) /\
    fst (Legacy.exec Demo.legacy_lib (Legacy.User_findOne "ada@example.org") w') =
    Some (Legacy.mkUserDoc 0 "Ada" "Lovelace" "ada@example.org"
            None (Legacy.mkLocation "Germany" "" "") [] 0 0).
Proof.
  destruct (@signUp_answers_with_the_created_document Demo.legacy_lib
              Demo.legacy_ada_request Demo.legacy_empty eq_refl)
    as (w' & Hrun & _ & _ & Hquery & _).
  exists w'. split; [now rewrite Hrun | exact Hquery].
Defined.

(* ================================================================== *)
(** ** Worked scenarios *)

(** Register, rotate, replay the old value, use the new access token. *)
Example register_then_rotate :
  map AuthServer.ck_value
      (AuthServer.res_cookies
         (fst (AuthServer.serve Demo.cfg Demo.lib (AuthServer.register Demo.cfg)
                 (AuthServer.mkRequest Demo.ada_body Demo.no_cookies)
                 Demo.empty_world))) = ["#"; "0.s3cret"] /\
  map AuthServer.ck_value
      (AuthServer.res_cookies
         (fst (AuthServer.serve Demo.cfg Demo.lib (AuthServer.refresh Demo.cfg)
                 (AuthServer.refresh_request "#") Demo.after_register)))
  = ["u#"; "0.s3cret"] /\
  AuthServer.res_statusCode
    (fst (AuthServer.serve Demo.cfg Demo.lib (AuthServer.refresh Demo.cfg)
            (AuthServer.refresh_request "#") Demo.after_first_refresh)) = 403 /\
  AuthServer.res_statusCode
    (fst (AuthServer.serve Demo.cfg Demo.lib (AuthServer.me Demo.cfg)
            (AuthServer.mkRequest Demo.ada_body
               (AuthServer.mkCookies (Some "0.s3cret") None))
            Demo.after_first_refresh)) = 200.
Proof. repeat split; vm_compute; reflexivity. Qed.

(** An expired access token, a tampered one, and none at all. *)
Example me_on_three_cookies :
  fst (AuthServer.serve Demo.cfg Demo.lib (AuthServer.me Demo.cfg)
         (AuthServer.mkRequest Demo.ada_body
            (AuthServer.mkCookies (Some "stale.jwt") None)) Demo.world1) =
  AuthServer.mkResponse 401
    [("WWW-Authenticate", AuthServer.www_authenticate_expired)] [] []
    (AuthServer.JMessage "Expired access token") /\
  fst (AuthServer.serve Demo.cfg Demo.lib (AuthServer.me Demo.cfg)
         (AuthServer.mkRequest Demo.ada_body
            (AuthServer.mkCookies (Some "0.forged") None)) Demo.world1) =
  AuthServer.mkResponse 401 [] [] [] (AuthServer.JMessage "Invalid access token.") /\
  fst (AuthServer.serve Demo.cfg Demo.lib (AuthServer.me Demo.cfg)
         (AuthServer.mkRequest Demo.ada_body Demo.no_cookies) Demo.world1) =
  AuthServer.mkResponse 401 [] [] [] (AuthServer.JMessage "Access token is required.").
Proof. repeat split. Qed.

(** Logging out twice with the same value is harmless. *)
Example logout_twice :
  AuthServer.refreshTokens
    (AuthServer.run_calls Demo.cfg Demo.lib
       [ AuthServer.CallLogout (AuthServer.refresh_request "r-old");
         AuthServer.CallLogout (AuthServer.refresh_request "r-old") ]
       Demo.world1) = [] /\
  AuthServer.res_cleared
    (fst (AuthServer.serve Demo.cfg Demo.lib AuthServer.logout
            (AuthServer.refresh_request "r-old") Demo.world1))
  = ["refreshToken"; "accessToken"].
Proof. split; reflexivity. Qed.

(* ================================================================== *)
(** ** Identifiers and deletions *)

Section Identifiers.

Import AuthServer.

Lemma to_uint_not_Nil (n : nat) : Nat.to_uint n <> Decimal.Nil.
Proof.
  intros E. pose proof (Unsigned.of_to n) as Hn. rewrite E in Hn. simpl in Hn.
  subst n. discriminate E.
Qed.

(** Casting the string form of an [_id] gives the [_id] back. *)
Lemma ObjectId_cast_toString (id : ObjectId) : ObjectId_cast (ObjectId_toString id) = Some id.
Proof.
  unfold ObjectId_cast, ObjectId_toString.
  rewrite NilZero.usu by apply to_uint_not_Nil.
  simpl. apply f_equal. apply Unsigned.of_to.
Qed.

Lemma ObjectId_toString_nonempty (id : ObjectId) : ObjectId_toString id <> "".
Proof.
  unfold ObjectId_toString. pose proof (to_uint_not_Nil id) as Hn.
  destruct (Nat.to_uint id); simpl; discriminate.
Qed.

Lemma find_by_uid_of_In (l : list User) (u : User) :
  NoDup (map u_id l) -> In u l -> find (by_uid (u_id u)) l = Some u.
Proof.
  intros Hnd Hin.
  destruct (find (by_uid (u_id u)) l) as [x |] eqn:E.
  - apply find_by_uid_spec in E as [Hx Hid]. f_equal.
    eapply NoDup_map_inj with (f := u_id); eauto.
  - pose proof (find_none _ _ E u Hin) as Hf. unfold by_uid in Hf.
    rewrite Nat.eqb_refl in Hf. discriminate.
Qed.

(** With a unique index on [token], [deleteOne({ token })] removes every
    row holding the value. *)
Lemma remove_first_by_token (l : list RefreshToken) (v : string) :
  NoDup (map rt_token l) ->
  remove_first (by_token v) l = filter (fun r => negb (by_token v r)) l.
Proof.
  induction l as [| a t IH]; simpl; intros Hnd; [reflexivity |].
  inversion Hnd as [| ? ? Hnotin Hnd']; subst.
  destruct (by_token v a) eqn:Ea; simpl.
  - symmetry. apply String.eqb_eq in Ea.
    assert (forall x, In x t -> negb (by_token v x) = true) as Hall.
    { intros x Hx. apply negb_true_iff. unfold by_token. apply String.eqb_neq.
      intros Hv. apply Hnotin. rewrite Ea, <- Hv. now apply in_map. }
    clear -Hall. induction t as [| b t IH]; simpl; [reflexivity |].
    rewrite (Hall b (or_introl eq_refl)). f_equal. apply IH.
    intros x Hx. apply Hall. now right.
  - f_equal. now apply IH.
Qed.

End Identifiers.

Section SessionFlow.

Import AuthServer.
Import Flow.

Variable cfg : Config.
Variable lib : Libs.

Lemma filter_idempotent (A : Type) (p : A -> bool) (l : list A) :
  filter p (filter p l) = filter p l.
Proof.
  induction l as [| a t IH]; simpl; [reflexivity |].
  destruct (p a) eqn:E; simpl; [rewrite E; f_equal |]; exact IH.
Qed.

Lemma filter_filter_weaker (A : Type) (p q : A -> bool) (l : list A) :
  (forall x, p x = true -> q x = true) -> filter p (filter q l) = filter p l.
Proof.
  intros Hpq. induction l as [| a t IH]; simpl; [reflexivity |].
  destruct (q a) eqn:Eq; simpl.
  - destruct (p a); [f_equal |]; exact IH.
  - destruct (p a) eqn:Ep; [| exact IH].
    rewrite (Hpq a Ep) in Eq. discriminate.
Qed.

Lemma In_remove_first_other (A : Type) (p : A -> bool) (l : list A) (x : A) :
  In x l -> p x = false -> In x (remove_first p l).
Proof.
  induction l as [| a t IH]; simpl; [tauto |].
  intros [-> | Hx] Hp.
  - rewrite Hp. now left.
  - destruct (p a); [assumption | right; now apply IH].
Qed.

Lemma filter_remove_first_length (A : Type) (p q : A -> bool) (l : list A) (x : A) :
  find q l = Some x ->
  length (filter p l) = length (filter p (remove_first q l)) + (if p x then 1 else 0).
Proof.
  induction l as [| a t IH]; simpl; [discriminate |].
  destruct (q a) eqn:Eq.
  - intros [= ->]. destruct (p x); simpl; lia.
  - intros Hfind. simpl. destruct (p a); simpl; rewrite (IH Hfind); reflexivity.
Qed.

Lemma find_by_rtid_of_In (l : list RefreshToken) (r : RefreshToken) :
  NoDup (map rt_id l) -> In r l -> find (by_rtid (rt_id r)) l = Some r.
Proof.
  intros Hnd Hin.
  destruct (find (by_rtid (rt_id r)) l) as [x |] eqn:E.
  - apply find_some in E as [Hx Hid]. apply Nat.eqb_eq in Hid. f_equal.
    eapply NoDup_map_inj with (f := rt_id); eauto.
  - pose proof (find_none _ _ E r Hin) as Hf. unfold by_rtid in Hf.
    rewrite Nat.eqb_refl in Hf. discriminate.
Qed.

(** X1. [logout] with a refresh cookie deletes the rows holding the
    presented value and no other: every other session stays, no user is
    touched, and the answer is 200 with both cookies cleared and none set. *)
Theorem logout_deletes_only_the_presented_row (req : Request) (v : string) (w : World) :
  store_ok w ->
  refreshToken (cookies req) = Some v -> v <> "" ->
  let out := run (exec cfg lib) (logout req) w in
  fst out = inr (mkResponse 200 [] [] ["refreshToken"; "accessToken"]
                            (JMessage "Successfully logged out")) /\
  refreshTokens (snd out) = filter (fun r => negb (by_token v r)) (refreshTokens w) /\
  find (by_token v) (refreshTokens (snd out)) = None /\
  (forall r, In r (refreshTokens w) -> rt_token r <> v -> In r (refreshTokens (snd out))) /\
  users (snd out) = users w.
Proof.
  intros (_ & Htok & _) Hc Hv. cbv zeta. rewrite run_logout, Hc.
  rewrite (proj2 (String.eqb_neq v "") Hv). simpl.
  rewrite (remove_first_by_token _ _ Htok).
  split; [reflexivity |]. split; [reflexivity |]. split; [| split; [| reflexivity]].
  - apply find_by_token_none. intros r Hr. apply filter_In in Hr as [_ Hr].
    apply negb_true_iff in Hr. now apply String.eqb_neq.
  - intros r Hr Hne. apply filter_In. split; [assumption |].
    apply negb_true_iff. now apply String.eqb_neq.
Qed.

(** X2. A value that was logged out is never honoured again: whatever
    requests, clock changes and TTL sweeps follow the logout, a refresh
    presenting it is answered 403 and changes nothing.  ([randomUUID] does
    not produce the value again.) *)
Theorem logged_out_value_is_refused (req : Request) (v : string) (w : World) :
  store_ok w ->
  refreshToken (cookies req) = Some v -> v <> "" ->
  (forall n, uuidCtr w <= n -> uuidGen w n <> v) ->
  forall (later : list Call) (req' : Request),
    refreshToken (cookies req') = Some v ->
    let w1 := snd (run (exec cfg lib) (logout req) w) in
    let w2 := run_calls cfg lib later w1 in
    serve cfg lib (refresh cfg) req' w2 =
    (mkResponse 403 [] [] [] (JMessage "Refresh token not found."), w2).
Proof.
  intros (_ & Htok & _) Hc Hv Hgen later req' Hc'. cbv zeta.
  assert (retired v (snd (run (exec cfg lib) (logout req) w))) as Hret.
  { rewrite run_logout, Hc. rewrite (proj2 (String.eqb_neq v "") Hv). simpl.
    rewrite (remove_first_by_token _ _ Htok). split; simpl.
    - intros r Hr. apply filter_In in Hr as [_ Hr].
      apply negb_true_iff in Hr. now apply String.eqb_neq.
    - exact Hgen. }
  unfold serve.
  rewrite (refresh_refuses_retired cfg lib req' v _ Hc' Hv); [reflexivity |].
  eapply retired_evolves; [exact Hret | apply run_calls_evolves].
Qed.

(** X3. Logging out twice is logging out once: the second call answers
    the same and leaves the collection as the first one left it. *)
Theorem logout_is_idempotent (req : Request) (w : World) :
  store_ok w ->
  let once := run (exec cfg lib) (logout req) w in
  run (exec cfg lib) (logout req) (snd once) = once.
Proof.
  intros (_ & Htok & _). cbv zeta. rewrite !run_logout. simpl. f_equal.
  destruct (refreshToken (cookies req)) as [v |]; [| reflexivity].
  destruct (String.eqb v ""); [reflexivity |]. simpl.
  rewrite (remove_first_by_token (remove_first _ _) v)
    by now apply NoDup_map_remove_first.
  rewrite (remove_first_by_token _ _ Htok), filter_idempotent.
  reflexivity.
Qed.

Lemma users_run_call (c : Call) (w : World) :
  incl (users w) (users (run_call cfg lib c w)).
Proof.
  destruct c as [req | req | req | req | req | t |]; unfold run_call.
  - rewrite run_register.
    destruct (find _ _); [apply incl_refl |].
    destruct (existsb _ _); simpl; apply incl_appl, incl_refl.
  - rewrite run_login.
    destruct (find _ _) as [u |]; [| apply incl_refl].
    destruct (bcrypt_compare _ _ _); [| apply incl_refl].
    destruct (existsb _ _); simpl; apply incl_refl.
  - rewrite run_me. apply incl_refl.
  - rewrite run_logout. simpl.
    destruct (refreshToken (cookies req)) as [v |]; [| apply incl_refl].
    destruct (String.eqb v ""); apply incl_refl.
  - destruct (falsy (refreshToken (cookies req))) eqn:Hf.
    + rewrite (run_refresh_missing cfg lib req w Hf). apply incl_refl.
    + unfold falsy in Hf.
      destruct (refreshToken (cookies req)) as [v |] eqn:Hc; [| discriminate].
      apply String.eqb_neq in Hf.
      rewrite (run_refresh cfg lib req v w Hc Hf).
      destruct (find _ _) as [st |]; [| apply incl_refl]. cbv zeta.
      destruct (find _ _) as [u |]; [| apply incl_refl].
      destruct (existsb _ _); simpl; apply incl_refl.
  - apply incl_refl.
  - apply incl_refl.
Qed.

(** X4. Whatever requests are served, clock changes and TTL sweeps
    included, every RefreshToken row of the collection was there before or
    holds a value drawn from [randomUUID] in the meantime -- no handler
    stores a value chosen by a client -- and no user document is removed. *)
Theorem traffic_stores_only_drawn_tokens (cs : list Call) (w : World) :
  evolves w (run_calls cfg lib cs w) /\
  incl (users w) (users (run_calls cfg lib cs w)).
Proof.
  split; [apply run_calls_evolves |].
  revert w; induction cs as [| c cs IH]; intros w; simpl; [apply incl_refl |].
  eapply incl_tran; [apply users_run_call | apply IH].
Qed.

End SessionFlow.

Section AccessTokens.

Import AuthServer.
Import Flow.

Variable cfg : Config.
Variable lib : Libs.

(** X6. The access cookie a successful [login] sets opens [me]: at any
    time at which [jwt.verify] accepts it and decodes the subject it was
    signed with, [me] answers 200 with the stored document of the user who
    logged in, the password hash included, and changes nothing. *)
Theorem issued_access_token_opens_me (req : Request) (res : Response) (w w' : World) :
  store_ok w ->
  run (exec cfg lib) (login cfg req) w = (inr res, w') ->
  exists (u : User) (token : string),
    find (by_email (email (body req))) (users w) = Some u /\
    cookie_value "accessToken" res = Some token /\
    forall (t : Z) (p : JwtPayload),
      token <> "" ->
      jwt_verify lib token (ACCESS_JWT_SECRET cfg) t = inr p ->
      jwt_sub p = Some (ObjectId_toString (u_id u)) ->
      serve cfg lib (me cfg) (access_request token) (set_now t w') =
      (mkResponse 200 [] [] [] (JMessageUser "Valid token" u), set_now t w').
Proof.
  intros (_ & _ & _ & Huid & _) Hrun. rewrite run_login in Hrun.
  destruct (find (by_email (email (body req))) (users w)) as [u |] eqn:Hu;
    [| discriminate].
  destruct (bcrypt_compare lib _ _); [| discriminate].
  destruct (existsb _ _); [discriminate |].
  injection Hrun as <- <-.
  exists u, (issued_access cfg lib u (signed_out (u_id u) w)).
  split; [reflexivity |]. split; [reflexivity |].
  intros t p Hne Hverify Hsub. unfold serve. rewrite run_me.
  cbn [access_request accessToken cookies].
  rewrite (proj2 (String.eqb_neq _ "") Hne).
  cbn [now set_now]. rewrite Hverify, Hsub.
  rewrite (proj2 (String.eqb_neq _ "") (ObjectId_toString_nonempty (u_id u))).
  rewrite ObjectId_cast_toString. cbn [users set_now after_issue set_refreshTokens
    draw_uuid snd signed_out].
  apply find_by_email_spec in Hu as [Hin _].
  rewrite (find_by_uid_of_In _ _ Huid Hin). reflexivity.
Qed.

(** X7. [me] reads and never writes, sets no cookie, and answers 200 or
    401 only: the 403 [Invalid or expired access token.] and the 404 [User
    not found] are thrown inside the [try] block, so the [catch] turns them
    into the 401 [Invalid access token.], as it does a subject that is not
    an ObjectId. *)
Theorem me_answers_200_or_401 (req : Request) (w : World) :
  let out := serve cfg lib (me cfg) req w in
  snd out = w /\
  res_cookies (fst out) = [] /\
  (res_statusCode (fst out) = 200 \/ res_statusCode (fst out) = 401) /\
  (forall (token : string) (p : JwtPayload),
      accessToken (cookies req) = Some token -> token <> "" ->
      jwt_verify lib token (ACCESS_JWT_SECRET cfg) (now w) = inr p ->
      fst out = match payload_user p w with
                | Some u => mkResponse 200 [] [] [] (JMessageUser "Valid token" u)
                | None => mkResponse 401 [] [] [] (JMessage "Invalid access token.")
                end).
Proof.
  cbv zeta. unfold serve. rewrite run_me. cbn [fst snd].
  split; [reflexivity |].
  destruct (accessToken (cookies req)) as [token |] eqn:Hc.
  - destruct (String.eqb token "") eqn:He.
    + simpl. repeat split; auto. intros token' p [= <-] Hne.
      apply String.eqb_eq in He. contradiction.
    + destruct (jwt_verify lib token (ACCESS_JWT_SECRET cfg) (now w)) as [e | p] eqn:Hv.
      * destruct (instanceof_TokenExpiredError e); simpl; repeat split; auto;
          intros token' p [= <-] _; rewrite Hv; discriminate.
      * assert (forall token' p',
                   Some token = Some token' -> token' <> "" ->
                   jwt_verify lib token' (ACCESS_JWT_SECRET cfg) (now w) = inr p' ->
                   p' = p) as Hsame.
        { intros token' p' [= <-] _ Hv'. congruence. }
        unfold payload_user.
        destruct (jwt_sub p) as [sub |] eqn:Hs.
        -- destruct (String.eqb sub "") eqn:Hsub.
           ++ simpl. repeat split; auto. intros token' p' H1 H2 H3.
              rewrite (Hsame _ _ H1 H2 H3), Hs, Hsub. reflexivity.
           ++ destruct (ObjectId_cast sub) as [id |] eqn:Hid.
              ** destruct (find (by_uid id) (users w)) as [u |] eqn:Hu.
                 --- simpl. repeat split; auto. intros token' p' H1 H2 H3.
                     rewrite (Hsame _ _ H1 H2 H3), Hs, Hsub, Hid, Hu. reflexivity.
                 --- simpl. repeat split; auto. intros token' p' H1 H2 H3.
                     rewrite (Hsame _ _ H1 H2 H3), Hs, Hsub, Hid, Hu. reflexivity.
              ** simpl. repeat split; auto. intros token' p' H1 H2 H3.
                 rewrite (Hsame _ _ H1 H2 H3), Hs, Hsub, Hid. reflexivity.
        -- simpl. repeat split; auto. intros token' p' H1 H2 H3.
           rewrite (Hsame _ _ H1 H2 H3), Hs. reflexivity.
  - simpl. repeat split; auto. intros token' p [=].
Qed.

End AccessTokens.

Section Cookies.

Import AuthServer.
Import Flow.

Variable cfg : Config.
Variable lib : Libs.

Lemma hardened_cookieOptions (name value : string) (maxAge : option Z) :
  hardened cfg (cookieOptions cfg name value maxAge).
Proof.
  unfold hardened, cookieOptions. simpl.
  destruct (isProduction cfg); repeat split; auto; discriminate.
Qed.

Lemma session_response_cookies (status : nat) (message : string) (u : User) (w : World) :
  let res := session_response cfg lib status message u w in
  Forall (hardened cfg) (res_cookies res) /\ session_cookies cfg res /\
  res_statusCode res = status.
Proof.
  cbv zeta. split; [| split; [| reflexivity]].
  - simpl. repeat constructor; apply hardened_cookieOptions.
  - eexists _, _. reflexivity.
Qed.

Lemma errorHandler_sets_no_cookie (err : Thrown) : res_cookies (errorHandler err) = [].
Proof.
  destruct err as [e |]; [| reflexivity]. unfold errorHandler.
  destruct (cause_truthy (e_cause e)); [| reflexivity].
  destruct (cause_code (e_cause e)) as [code |]; [| reflexivity].
  destruct (String.eqb code "ACCESS_TOKEN_EXPIRED"); reflexivity.
Qed.

Lemma me_sets_no_cookie (req : Request) (w : World) :
  res_cookies (fst (serve cfg lib (me cfg) req w)) = [].
Proof.
  unfold serve. rewrite run_me. cbn [fst].
  repeat match goal with
         | |- context [match ?x with _ => _ end] => destruct x
         end; reflexivity.
Qed.

(** X8. Whatever a controller of the auth server answers, every cookie it sets is
    [httpOnly], [Secure] exactly in production and [SameSite=None] only
    together with [Secure]; a response either sets no cookie or sets the
    two session cookies -- [refreshToken] with [maxAge] of the refresh TTL
    in milliseconds, [accessToken] without -- and then its status is 200 or
    201: no error response carries a credential. *)
Theorem auth_cookies_are_hardened :
  Forall (fun h : Request -> Prog Op Response =>
            forall (req : Request) (w : World),
              let res := fst (serve cfg lib h req w) in
              Forall (hardened cfg) (res_cookies res) /\
              (res_cookies res = [] \/
               session_cookies cfg res /\
               (res_statusCode res = 200 \/ res_statusCode res = 201)))
         (auth_controllers cfg).
Proof.
  assert (forall err : Thrown,
             Forall (hardened cfg) (res_cookies (errorHandler err)) /\
             (res_cookies (errorHandler err) = [] \/
              session_cookies cfg (errorHandler err) /\
              (res_statusCode (errorHandler err) = 200 \/
               res_statusCode (errorHandler err) = 201))) as Herr.
  { intros err. rewrite errorHandler_sets_no_cookie. split; [constructor | now left]. }
  assert (forall (status : nat) (message : string) (u : User) (w : World),
             status = 200 \/ status = 201 ->
             let res := session_response cfg lib status message u w in
             Forall (hardened cfg) (res_cookies res) /\
             (res_cookies res = [] \/
              session_cookies cfg res /\
              (res_statusCode res = 200 \/ res_statusCode res = 201))) as Hok.
  { intros status message u w Hst.
    destruct (session_response_cookies status message u w) as (H1 & H2 & H3).
    cbv zeta. split; [exact H1 |]. right. split; [exact H2 |]. now rewrite H3. }
  unfold auth_controllers. repeat apply Forall_cons; [| | | | | apply Forall_nil];
    intros req w; cbv zeta; unfold serve.
  - rewrite run_register.
    destruct (find _ _); [apply Herr |].
    destruct (existsb _ _); [apply Herr |].
    apply (Hok 201). now right.
  - rewrite run_login.
    destruct (find _ _) as [u |]; [| apply Herr].
    destruct (bcrypt_compare _ _ _); [| apply Herr].
    destruct (existsb _ _); [apply Herr |].
    apply (Hok 200). now left.
  - pose proof (me_sets_no_cookie req w) as Hnone. unfold serve in Hnone.
    destruct (run (exec cfg lib) (me cfg req) w) as [r w']. cbn [fst] in *.
    rewrite Hnone. split; [constructor | now left].
  - rewrite run_logout. simpl. split; [constructor | now left].
  - destruct (falsy (refreshToken (cookies req))) eqn:Hf.
    + rewrite (run_refresh_missing cfg lib req w Hf). apply Herr.
    + unfold falsy in Hf.
      destruct (refreshToken (cookies req)) as [v |] eqn:Hc; [| discriminate].
      apply String.eqb_neq in Hf.
      rewrite (run_refresh cfg lib req v w Hc Hf).
      destruct (find _ _) as [st |]; [| apply Herr]. cbv zeta.
      destruct (find _ _) as [u |]; [| apply Herr].
      destruct (existsb _ _); [apply Herr |].
      cbn [fst respond]. split.
      * simpl. repeat constructor; apply hardened_cookieOptions.
      * right. split; [eexists _, _; reflexivity | now left].
Qed.

End Cookies.

Section Rotation.

Import AuthServer.
Import Flow.

Variable cfg : Config.
Variable lib : Libs.

Lemma find_app_fresh (A : Type) (f : A -> bool) (l : list A) (a : A) :
  (forall x, In x l -> f x = false) -> f a = true -> find f (l ++ [a]) = Some a.
Proof.
  induction l as [| b t IH]; simpl; intros Hn Ha.
  - now rewrite Ha.
  - rewrite (Hn b (or_introl eq_refl)). apply IH; [| assumption].
    intros x Hx. apply Hn. now right.
Qed.

(** The row [st] is found by its token, its owner [u] exists, and the next
    UUID is not stored: the rotation goes through. *)
Lemma run_refresh_found (v : string) (st : RefreshToken) (u : User) (w : World) :
  v <> "" ->
  find (by_token v) (refreshTokens w) = Some st ->
  find (by_uid (rt_userId st)) (users w) = Some u ->
  (forall r, In r (refreshTokens w) -> rt_token r <> uuidGen w (uuidCtr w)) ->
  run (exec cfg lib) (refresh cfg (refresh_request v)) w =
  (inr (res_json (setAuthCookies cfg res0 (uuidGen w (uuidCtr w))
                                 (issued_access cfg lib u (rotated st w)))
                 (JMessage "Refreshed")),
   after_issue cfg u (rotated st w)).
Proof.
  intros Hv Hst Hu Hfresh.
  rewrite (run_refresh cfg lib (refresh_request v) v w eq_refl Hv), Hst.
  cbv zeta. rewrite Hu.
  assert (existsb (by_token (uuidGen w (uuidCtr w)))
                  (refreshTokens
                     (set_refreshTokens w
                        (remove_first (by_rtid (rt_id st)) (refreshTokens w)) (nextId w)))
          = false) as ->; [| reflexivity].
  apply existsb_by_token_false. simpl. intros r Hr. apply Hfresh.
  eapply In_remove_first; eassumption.
Qed.

(** X9. The refresh cookie a successful [login] sets is redeemable: its
    value is the token of the row just stored, and presenting it to
    [refresh] -- at whatever time, as long as the row is there -- is
    answered 200 with a new pair of session cookies whose refresh value is
    a different one, while the presented value is no longer stored. *)
Theorem issued_refresh_cookie_is_redeemable
        (req : Request) (res : Response) (w w' : World) :
  store_ok w -> uuid_source_ok w ->
  uuidGen w (uuidCtr w) <> "" ->
  run (exec cfg lib) (login cfg req) w = (inr res, w') ->
  exists (u : User) (v : string),
    find (by_email (email (body req))) (users w) = Some u /\
    cookie_value "refreshToken" res = Some v /\
    find (by_token v) (refreshTokens w') = Some (issued_row cfg u (signed_out (u_id u) w)) /\
    forall t : Z,
      let out := serve cfg lib (refresh cfg) (refresh_request v) (set_now t w') in
      res_statusCode (fst out) = 200 /\
      session_cookies cfg (fst out) /\
      (exists v' : string, cookie_value "refreshToken" (fst out) = Some v' /\ v' <> v) /\
      find (by_token v) (refreshTokens (snd out)) = None.
Proof.
  intros Hok Hsrc Hne Hrun.
  pose proof Hok as (Hid & Htok & Hbound & Huid & _ & Hubound).
  pose proof Hsrc as (Hfresh & Hinj).
  rewrite run_login in Hrun.
  destruct (find (by_email (email (body req))) (users w)) as [u |] eqn:Hu;
    [| discriminate].
  destruct (bcrypt_compare lib _ _); [| discriminate].
  destruct (existsb _ _) eqn:Hnew; [discriminate |].
  injection Hrun as <- <-.
  set (w0 := signed_out (u_id u) w) in *.
  set (v := uuidGen w (uuidCtr w)) in *.
  assert (forall r, In r (refreshTokens w0) -> rt_token r <> v) as Hnew'.
  { apply existsb_by_token_false. exact Hnew. }
  assert (find (by_token v) (refreshTokens (after_issue cfg u w0)) =
          Some (issued_row cfg u w0)) as Hfind.
  { simpl. apply find_app_fresh.
    - intros x Hx. unfold by_token. apply String.eqb_neq. now apply Hnew'.
    - unfold by_token. simpl. apply String.eqb_refl. }
  exists u, v. split; [reflexivity |]. split; [reflexivity |]. split; [exact Hfind |].
  intros t. cbv zeta. unfold serve.
  apply find_by_email_spec in Hu as [Hin _].
  assert (store_ok w0) as Hok0 by (apply store_ok_signed_out; exact Hok).
  assert (store_ok (after_issue cfg u w0)) as Hok1.
  { apply store_ok_after_issue; [exact Hok0 | | exact Hnew].
    simpl. now apply Hubound. }
  pose proof Hok1 as (Hid1 & Htok1 & _).
  rewrite (run_refresh_found v (issued_row cfg u w0) u (set_now t (after_issue cfg u w0))
             Hne Hfind).
  - cbn [fst snd respond]. split; [reflexivity |].
    split; [eexists _, _; reflexivity |]. split.
    + eexists. split; [reflexivity |]. simpl. intros Heq.
      apply Hinj in Heq; lia.
    + apply find_by_token_none. simpl. intros r Hr.
      apply in_app_iff in Hr as [Hr | [<- | []]].
      * eapply rotated_value_is_gone; [exact Hid1 | exact Htok1 | exact Hfind | exact Hr].
      * simpl. intros Heq. apply Hinj in Heq; lia.
  - simpl. now apply find_by_uid_of_In.
  - simpl. intros r Hr Heq. apply in_app_iff in Hr as [Hr | [<- | []]].
    + apply filter_In in Hr as [Hr _].
      apply (Hfresh (S (uuidCtr w)) r); [lia | assumption | assumption].
    + simpl in Heq. apply Hinj in Heq; lia.
Qed.

(** X10. A successful [refresh] replaces one row by one row of the same
    user: every session other than the presented one survives, every user
    holds as many sessions as before, and no user document changes. *)
Theorem refresh_keeps_other_sessions
        (req : Request) (v : string) (res : Response) (w w' : World) :
  store_ok w ->
  refreshToken (cookies req) = Some v ->
  run (exec cfg lib) (refresh cfg req) w = (inr res, w') ->
  users w' = users w /\
  (forall r, In r (refreshTokens w) -> rt_token r <> v -> In r (refreshTokens w')) /\
  (forall uid, length (tokens_of uid w') = length (tokens_of uid w)).
Proof.
  intros (Hid & Htok & _) Hc Hrun.
  assert (v <> "") as Hv.
  { intros ->. rewrite run_refresh_missing in Hrun; [discriminate |].
    unfold falsy. now rewrite Hc. }
  rewrite (run_refresh cfg lib req _ w Hc Hv) in Hrun.
  destruct (find (by_token v) (refreshTokens w)) as [st |] eqn:Hfind; [| discriminate].
  cbv zeta in Hrun.
  destruct (find (by_uid (rt_userId st)) (users w)) as [u |] eqn:Hu; [| discriminate].
  destruct (existsb _ _); [discriminate |].
  injection Hrun as _ <-.
  apply find_by_token_spec in Hfind as [Hst Hstv].
  apply find_by_uid_spec in Hu as [_ Huid].
  split; [reflexivity |]. split.
  - intros r Hr Hne. simpl. apply in_app_iff. left.
    apply In_remove_first_other; [assumption |].
    unfold by_rtid. apply Nat.eqb_neq. intros Heq. apply Hne.
    rewrite <- Hstv. f_equal.
    eapply NoDup_map_inj with (f := rt_id); eauto.
  - intros uid. unfold tokens_of. simpl. rewrite filter_app, length_app.
    rewrite (filter_remove_first_length _ (by_userId uid) (by_rtid (rt_id st))
               (refreshTokens w) st (find_by_rtid_of_In _ _ Hid Hst)).
    simpl. unfold by_userId at 2 4. simpl. rewrite Huid.
    destruct (Nat.eqb (rt_userId st) uid); reflexivity.
Qed.

(** X11. [login] touches the sessions of the user who logs in and of no
    one else: whether it succeeds or fails, the rows of every other user
    and all user documents are left as they were. *)
Theorem login_leaves_other_users_alone (req : Request) (w : World) (uid : ObjectId) :
  (forall u, find (by_email (email (body req))) (users w) = Some u -> u_id u <> uid) ->
  let w' := snd (run (exec cfg lib) (login cfg req) w) in
  tokens_of uid w' = tokens_of uid w /\ users w' = users w.
Proof.
  intros Hother. cbv zeta. rewrite run_login.
  destruct (find (by_email (email (body req))) (users w)) as [u |] eqn:Hu;
    [| split; reflexivity].
  specialize (Hother u eq_refl).
  assert (filter (by_userId uid)
                 (filter (fun r => negb (by_userId (u_id u) r)) (refreshTokens w)) =
          filter (by_userId uid) (refreshTokens w)) as Hkeep.
  { apply filter_filter_weaker. intros x Hx. apply negb_true_iff.
    unfold by_userId in *. apply Nat.eqb_eq in Hx. apply Nat.eqb_neq. congruence. }
  destruct (bcrypt_compare lib _ _); [| split; reflexivity].
  destruct (existsb _ _); simpl; unfold tokens_of; simpl.
  - split; [exact Hkeep | reflexivity].
  - rewrite filter_app, Hkeep. simpl. unfold by_userId at 2. simpl.
    rewrite (proj2 (Nat.eqb_neq _ _) Hother). rewrite app_nil_r.
    split; reflexivity.
Qed.

(** X12. [refresh] deletes the stored row before it looks for its owner:
    when the owner no longer exists the call is answered 403 [User not
    found.], nothing is issued, and the presented value is consumed all the
    same, the other rows staying in place. *)
Theorem refresh_consumes_the_row_of_a_missing_owner
        (req : Request) (v : string) (st : RefreshToken) (w : World) :
  store_ok w ->
  refreshToken (cookies req) = Some v -> v <> "" ->
  find (by_token v) (refreshTokens w) = Some st ->
  find (by_uid (rt_userId st)) (users w) = None ->
  let out := serve cfg lib (refresh cfg) req w in
  fst out = mkResponse 403 [] [] [] (JMessage "User not found.") /\
  find (by_token v) (refreshTokens (snd out)) = None /\
  new_rows w (snd out) = [] /\
  (forall r, In r (refreshTokens w) -> rt_token r <> v -> In r (refreshTokens (snd out))).
Proof.
  intros (Hid & Htok & _) Hc Hv Hfind Hu. cbv zeta. unfold serve.
  rewrite (run_refresh cfg lib req _ w Hc Hv), Hfind. cbv zeta. rewrite Hu.
  cbn [fst snd respond]. split; [reflexivity |]. split; [| split].
  - apply find_by_token_none. simpl. intros r Hr.
    eapply rotated_value_is_gone; eassumption.
  - apply new_rows_nil. simpl. intros r Hr. eapply In_remove_first; eassumption.
  - intros r Hr Hne. simpl.
    apply find_by_token_spec in Hfind as [Hst Hstv].
    apply In_remove_first_other; [assumption |].
    unfold by_rtid. apply Nat.eqb_neq. intros Heq. apply Hne.
    rewrite <- Hstv. f_equal.
    eapply NoDup_map_inj with (f := rt_id); eauto.
Qed.

End Rotation.

Section RegisterThenLogin.

Import AuthServer.
Import Flow.

Variable cfg : Config.
Variable lib : Libs.

(** X13. A user who has just registered can log in: with the registered
    email, a password that [bcrypt.compare] matches against the stored hash
    is answered 200 with the session cookies, the session of the
    registration being superseded by the new one, and a password it does
    not match is answered 401 [Incorrect credentials] with nothing
    changed.  (The email was unused, the indexes are in force and
    [randomUUID] does not repeat a stored value.) *)
Theorem registered_user_can_log_in (req : Request) (w : World) :
  store_ok w -> uuid_source_ok w ->
  find (by_email (email (body req))) (users w) = None ->
  let u := registered_user cfg lib (body req) w in
  let w1 := snd (run (exec cfg lib) (register cfg req) w) in
  find (by_email (email (body req))) (users w1) = Some u /\
  forall req' : Request,
    email (body req') = email (body req) ->
    (bcrypt_compare lib (password (body req')) (u_password u) = true ->
     exists res : Response,
       fst (run (exec cfg lib) (login cfg req') w1) = inr res /\
       res_statusCode res = 200 /\
       session_cookies cfg res /\
       tokens_of (u_id u) (snd (run (exec cfg lib) (login cfg req') w1)) =
         [issued_row cfg u (signed_out (u_id u) w1)]) /\
    (bcrypt_compare lib (password (body req')) (u_password u) = false ->
     serve cfg lib (login cfg) req' w1 =
       (mkResponse 401 [] [] [] (JMessage "Incorrect credentials"), w1)).
Proof.
  intros Hok Hsrc Hfind. cbv zeta.
  destruct (register_issues_session cfg lib req w Hok Hsrc Hfind)
    as (Hrun & Husers & _).
  pose proof (uuid_source_ok_evolves _ _ Hsrc (run_call_evolves cfg lib (CallRegister req) w))
    as Hsrc1.
  unfold run_call in Hsrc1. rewrite Hrun in *. cbn [snd] in *.
  set (u := registered_user cfg lib (body req) w) in *.
  set (w1 := after_issue cfg u (after_create_user cfg lib (body req) w)) in *.
  assert (find (by_email (email (body req))) (users w1) = Some u) as Hu.
  { rewrite Husers. apply find_app_fresh.
    - intros x Hx. exact (find_none _ _ Hfind x Hx).
    - unfold by_email. simpl. apply String.eqb_refl. }
  split; [exact Hu |].
  intros req' He. split; intros Hm.
  - rewrite run_login, He, Hu, Hm.
    assert (existsb (by_token (uuidGen w1 (uuidCtr w1)))
                    (refreshTokens (signed_out (u_id u) w1)) = false) as ->.
    { apply existsb_by_token_false. intros r Hr.
      destruct Hsrc1 as (Hfresh & _). apply Hfresh; [lia |].
      simpl in Hr. apply filter_In in Hr. tauto. }
    eexists. split; [reflexivity |]. split; [reflexivity |].
    split; [eexists _, _; reflexivity |].
    unfold tokens_of. cbn [snd].
    change (refreshTokens (after_issue cfg u (signed_out (u_id u) w1)))
      with (filter (fun r => negb (by_userId (u_id u) r)) (refreshTokens w1)
            ++ [issued_row cfg u (signed_out (u_id u) w1)]).
    rewrite filter_app, filter_by_userId_signed_out. simpl.
    unfold by_userId. simpl. now rewrite Nat.eqb_refl.
  - unfold serve. rewrite run_login, He, Hu, Hm. reflexivity.
Qed.

End RegisterThenLogin.

(* ================================================================== *)
(** ** The API: who gets through [authenticate] *)

Section ApiFacts.

Import Api.

Variable secret : string.
Variable lib : AuthServer.Libs.

(** [authenticate] in closed form. *)
Lemma run_authenticate (req : Request) (w : World) :
  run (exec lib) (authenticate secret req) w =
  (match verdict secret lib req w with
   | Missing => inl (new_Error "Not authenticated" 401)
   | Expired => inl (new_Error_code "Expired access token" 401 "ACCESS_TOKEN_EXPIRED")
   | Invalid => inl (new_Error "Invalid access token." 401)
   | Accepted u => inr (mkRequest (params_id req) (body req) (accessToken req) (Some u))
   end, w).
Proof.
  unfold authenticate, verdict.
  destruct (accessToken req) as [token |]; [| reflexivity].
  destruct (String.eqb token ""); [reflexivity |].
  rewrite run_try_catch. cbn.
  destruct (AuthServer.jwt_verify lib token secret (now w)) as [e | decoded]; cbn.
  - destruct (instanceof_TokenExpiredError e); reflexivity.
  - destruct (AuthServer.jwt_sub decoded) as [sub |]; [| reflexivity].
    destruct (String.eqb sub ""); reflexivity.
Qed.

(** X14. [authenticate] hands a request on exactly when [jwt.verify]
    accepts its access cookie and the payload has a subject; [req.user]
    is then the subject and the roles of the token.  Every refusal is a
    401 -- the 403 thrown for a missing subject is caught by the
    surrounding [catch] --, only an expired token is marked with the
    [WWW-Authenticate] header, and the middleware changes nothing. *)
Theorem authenticate_passes_verified_subjects (req : Request) (w : World) :
  let out := run (exec lib) (authenticate secret req) w in
  snd out = w /\
  (forall (token : string) (p : AuthServer.JwtPayload) (sub : string),
      accessToken req = Some token -> token <> "" ->
      AuthServer.jwt_verify lib token secret (now w) = inr p ->
      AuthServer.jwt_sub p = Some sub -> sub <> "" ->
      fst out = inr (mkRequest (params_id req) (body req) (accessToken req)
                               (Some (mkReqUser sub (AuthServer.jwt_roles p))))) /\
  (falsy (accessToken req) = true ->
   fst out = inl (new_Error "Not authenticated" 401)) /\
  match fst out with
  | inr req' =>
      exists (token : string) (p : AuthServer.JwtPayload) (sub : string),
        accessToken req = Some token /\ token <> "" /\
        AuthServer.jwt_verify lib token secret (now w) = inr p /\
        AuthServer.jwt_sub p = Some sub /\ sub <> "" /\
        req' = mkRequest (params_id req) (body req) (accessToken req)
                         (Some (mkReqUser sub (AuthServer.jwt_roles p)))
  | inl err =>
      AuthServer.res_statusCode (AuthServer.errorHandler err) = 401 /\
      AuthServer.res_cookies (AuthServer.errorHandler err) = [] /\
      (AuthServer.has_header "WWW-Authenticate" (AuthServer.errorHandler err) = true <->
       exists (token : string) (e : Thrown),
         accessToken req = Some token /\ token <> "" /\
         AuthServer.jwt_verify lib token secret (now w) = inl e /\
         instanceof_TokenExpiredError e = true)
  end.
Proof.
  cbv zeta. rewrite run_authenticate. cbn [fst snd]. split; [reflexivity |].
  unfold verdict. split; [| split].
  { intros token p sub Hc Hne Hv Hs Hsub.
    rewrite Hc, (proj2 (String.eqb_neq _ _) Hne), Hv, Hs,
      (proj2 (String.eqb_neq _ _) Hsub).
    reflexivity. }
  { unfold falsy. destruct (accessToken req) as [token |]; [| reflexivity].
    intros ->. reflexivity. }
  destruct (accessToken req) as [token |] eqn:Hc.
  - destruct (String.eqb token "") eqn:He.
    + simpl. repeat split; try discriminate.
      intros (token' & e & [= <-] & Hne & _). apply String.eqb_eq in He. contradiction.
    + apply String.eqb_neq in He.
      destruct (AuthServer.jwt_verify lib token secret (now w)) as [e | p] eqn:Hv.
      * destruct (instanceof_TokenExpiredError e) eqn:Hx; simpl; repeat split;
          try discriminate.
        -- intros _. exists token, e. repeat split; assumption.
        -- intros (token' & e' & [= <-] & _ & Hv' & Hx'). congruence.
      * destruct (AuthServer.jwt_sub p) as [sub |] eqn:Hs.
        -- destruct (String.eqb sub "") eqn:Hsub.
           ++ simpl. repeat split; try discriminate.
              intros (token' & e' & [= <-] & _ & Hv' & _). congruence.
           ++ apply String.eqb_neq in Hsub.
              exists token, p, sub. repeat split; assumption.
        -- simpl. repeat split; try discriminate.
           intros (token' & e' & [= <-] & _ & Hv' & _). congruence.
  - simpl. repeat split; try discriminate.
    intros (token' & e & [=] & _).
Qed.

Lemma run_protected (h : Request -> Prog Op Response) (req : Request) (w : World) :
  run (exec lib) (bind (authenticate secret req) h) w =
  match verdict secret lib req w with
  | Missing => (inl (new_Error "Not authenticated" 401), w)
  | Expired =>
      (inl (new_Error_code "Expired access token" 401 "ACCESS_TOKEN_EXPIRED"), w)
  | Invalid => (inl (new_Error "Invalid access token." 401), w)
  | Accepted u =>
      run (exec lib)
          (h (mkRequest (params_id req) (body req) (accessToken req) (Some u))) w
  end.
Proof.
  rewrite run_bind, run_authenticate.
  destruct (verdict secret lib req w); reflexivity.
Qed.

(** X15. The routes behind [authenticate] -- creating, updating and
    deleting a post -- do nothing for a request whose access cookie is
    missing, expired or invalid: the collection is left as it was and the
    request is answered 401. *)
Theorem protected_routes_need_a_session :
  Forall (fun route : Request -> Prog Op Response =>
            forall (req : Request) (w : World),
              (forall u : ReqUser, verdict secret lib req w <> Accepted u) ->
              exists err : Thrown,
                run (exec lib) (route req) w = (inl err, w) /\
                AuthServer.res_statusCode (AuthServer.errorHandler err) = 401)
         [post_route secret; put_route secret; delete_route secret].
Proof.
  repeat apply Forall_cons; [| | | apply Forall_nil]; intros req w Hno;
    unfold post_route, put_route, delete_route; rewrite run_protected;
    (destruct (verdict secret lib req w) as [| | | u];
     [ eexists; split; reflexivity
     | eexists; split; reflexivity
     | eexists; split; reflexivity
     | exfalso; exact (Hno u eq_refl) ]).
Qed.

End ApiFacts.

(* ================================================================== *)
(** ** The API: the posts controllers *)

Section PostsFacts.

Import Api.

Variable secret : string.
Variable lib : AuthServer.Libs.

Lemma set_posts_same (w : World) : set_posts w (posts w) (nextId w) = w.
Proof. destruct w; reflexivity. Qed.

Lemma find_by_pid_spec (l : list Post) (id : ObjectId) (p : Post) :
  find (by_pid id) l = Some p -> In p l /\ p_id p = id.
Proof.
  intros H. apply find_some in H as [Hin Hv]. split; [assumption |].
  now apply Nat.eqb_eq.
Qed.

Lemma update_first_missing (id : ObjectId) (b : PostBody) (l : list Post) :
  find (by_pid id) l = None -> update_first id b l = l.
Proof.
  induction l as [| p t IH]; simpl; [reflexivity |].
  destruct (by_pid id p); [discriminate |]. intros H. f_equal. now apply IH.
Qed.

Lemma remove_first_missing (A : Type) (f : A -> bool) (l : list A) :
  find f l = None -> AuthServer.remove_first f l = l.
Proof.
  induction l as [| p t IH]; simpl; [reflexivity |].
  destruct (f p); [discriminate |]. intros H. f_equal. now apply IH.
Qed.

Lemma isValidObjectId_cast (id : string) (oid : ObjectId) :
  AuthServer.ObjectId_cast id = Some oid -> isValidObjectId id = true.
Proof. unfold isValidObjectId. now intros ->. Qed.

(** The controllers that take an [:id], in closed form. *)
Lemma run_getSinglePost (req : Request) (w : World) :
  run (exec lib) (getSinglePost req) w =
  match AuthServer.ObjectId_cast (params_id req) with
  | None => (inl (new_Error_num "Invalid id" 400), w)
  | Some oid =>
      match find (by_pid oid) (posts w) with
      | None => (inl (not_found (params_id req)), w)
      | Some p => (inr (mkResponse 200 (JPost (populate w p))), w)
      end
  end.
Proof.
  unfold getSinglePost, isValidObjectId. cbv zeta.
  destruct (AuthServer.ObjectId_cast (params_id req)) as [oid |] eqn:Hc;
    [| reflexivity].
  cbn. rewrite Hc. destruct (find (by_pid oid) (posts w)); reflexivity.
Qed.

Lemma run_deletePost (req : Request) (w : World) :
  run (exec lib) (deletePost req) w =
  match AuthServer.ObjectId_cast (params_id req) with
  | None => (inl (new_Error_num "Invalid id" 400), w)
  | Some oid =>
      match find (by_pid oid) (posts w) with
      | None => (inl (not_found (params_id req)), w)
      | Some p =>
          (inr (mkResponse 200
                  (JSuccess ("Post with id of " ++ params_id req ++ " was deleted"))),
           set_posts w (AuthServer.remove_first (by_pid oid) (posts w)) (nextId w))
      end
  end.
Proof.
  unfold deletePost, isValidObjectId. cbv zeta.
  destruct (AuthServer.ObjectId_cast (params_id req)) as [oid |] eqn:Hc;
    [| reflexivity].
  cbn. rewrite Hc.
  destruct (find (by_pid oid) (posts w)) eqn:Hf; cbn; [reflexivity |].
  rewrite (remove_first_missing _ _ _ Hf), set_posts_same. reflexivity.
Qed.

Lemma run_updatePost (req : Request) (w : World) :
  run (exec lib) (updatePost req) w =
  match AuthServer.ObjectId_cast (params_id req) with
  | None => (inl (new_Error_num "Invalid id" 400), w)
  | Some oid =>
      match find (by_pid oid) (posts w) with
      | None => (inl (not_found (params_id req)), w)
      | Some p =>
          let w' := set_posts w (update_first oid (body req) (posts w)) (nextId w) in
          (inr (mkResponse 200
                  (JPost (populate w' (mkPost (p_id p) (b_author (body req))
                                              (set_paths (b_fields (body req))
                                                         (p_fields p)))))),
           w')
      end
  end.
Proof.
  unfold updatePost, isValidObjectId. cbv zeta.
  destruct (AuthServer.ObjectId_cast (params_id req)) as [oid |] eqn:Hc;
    [| reflexivity].
  cbn. rewrite Hc.
  destruct (find (by_pid oid) (posts w)) as [p |] eqn:Hf.
  - assert (find (by_pid oid) (update_first oid (body req) (posts w)) =
            Some (mkPost (p_id p) (b_author (body req))
                         (set_paths (b_fields (body req)) (p_fields p)))) as Hu.
    { clear Hc. induction (posts w) as [| q t IH]; simpl in *; [discriminate |].
      destruct (by_pid oid q) eqn:Eq.
      - injection Hf as <-. simpl. unfold by_pid in *. simpl. now rewrite Eq.
      - simpl. rewrite Eq. now apply IH. }
    cbn. rewrite Hu. reflexivity.
  - rewrite (update_first_missing _ _ _ Hf). cbn. rewrite Hf. cbn.
    rewrite set_posts_same. reflexivity.
Qed.

Lemma errorHandler_number (message : string) (n : nat) :
  AuthServer.errorHandler (new_Error_num message n) =
  AuthServer.mkResponse 500 [] [] [] (AuthServer.JMessage message).
Proof.
  unfold AuthServer.errorHandler, new_Error_num. simpl.
  destruct (Nat.eqb n 0); reflexivity.
Qed.

(** X16. The controllers that take an [:id] refuse a malformed id with
    [Invalid id] and an id no post has with [Post with id of ... doesn't
    exist], in both cases before anything is written.  They attach the
    status as a bare number ([cause: 400], [cause: 404]), where the error
    handler reads [cause.status]: every failure of these controllers
    reaches the client with status 500. *)
Theorem post_id_failures_are_answered_500 :
  Forall (fun h : Request -> Prog Op Response =>
            forall (req : Request) (w : World),
              let out := run (exec lib) (h req) w in
              (AuthServer.ObjectId_cast (params_id req) = None ->
               out = (inl (new_Error_num "Invalid id" 400), w)) /\
              (forall oid : ObjectId,
                  AuthServer.ObjectId_cast (params_id req) = Some oid ->
                  find (by_pid oid) (posts w) = None ->
                  out = (inl (not_found (params_id req)), w)) /\
              (forall err : Thrown,
                  fst out = inl err ->
                  snd out = w /\
                  (carried_status err = Some 400 \/ carried_status err = Some 404) /\
                  AuthServer.res_statusCode (AuthServer.errorHandler err) = 500))
         id_controllers.
Proof.
  unfold id_controllers. repeat apply Forall_cons; [| | | apply Forall_nil];
    intros req w; cbv zeta;
    [rewrite run_getSinglePost | rewrite run_updatePost | rewrite run_deletePost];
    (destruct (AuthServer.ObjectId_cast (params_id req)) as [oid |];
     [ destruct (find (by_pid oid) (posts w)) as [p |] eqn:Hf;
       [ split; [discriminate |]; split;
         [ intros oid' [= <-] Hnone; congruence | intros err; discriminate ]
       | split; [discriminate |]; split;
         [ reflexivity
         | intros err [= <-]; split; [reflexivity |]; split;
           [now right | apply (f_equal AuthServer.res_statusCode (errorHandler_number _ _))] ] ]
     | split; [reflexivity |]; split;
       [ discriminate
       | intros err [= <-]; split; [reflexivity |]; split; [now left | reflexivity] ] ]).
Qed.

End PostsFacts.

Section PostsLifecycle.

Import Api.

Variable secret : string.
Variable lib : AuthServer.Libs.

Lemma remove_first_by_pid (l : list Post) (id : ObjectId) :
  NoDup (map p_id l) ->
  AuthServer.remove_first (by_pid id) l = filter (fun q => negb (by_pid id q)) l.
Proof.
  induction l as [| a t IH]; simpl; intros Hnd; [reflexivity |].
  inversion Hnd as [| ? ? Hnotin Hnd']; subst.
  destruct (by_pid id a) eqn:Ea; simpl.
  - symmetry. apply Nat.eqb_eq in Ea.
    assert (forall x, In x t -> negb (by_pid id x) = true) as Hall.
    { intros x Hx. apply negb_true_iff. unfold by_pid. apply Nat.eqb_neq.
      intros Hv. apply Hnotin. rewrite Ea, <- Hv. now apply in_map. }
    clear -Hall. induction t as [| b t IH]; simpl; [reflexivity |].
    rewrite (Hall b (or_introl eq_refl)). f_equal. apply IH.
    intros x Hx. apply Hall. now right.
  - f_equal. now apply IH.
Qed.

Lemma find_filter_out (l : list Post) (id : ObjectId) :
  find (by_pid id) (filter (fun q => negb (by_pid id q)) l) = None.
Proof.
  induction l as [| a t IH]; simpl; [reflexivity |].
  destruct (by_pid id a) eqn:Ea; simpl; [exact IH |]. now rewrite Ea.
Qed.

Lemma find_filter_other (l : list Post) (id id' : ObjectId) :
  id' <> id ->
  find (by_pid id') (filter (fun q => negb (by_pid id q)) l) = find (by_pid id') l.
Proof.
  intros Hne. induction l as [| a t IH]; simpl; [reflexivity |].
  destruct (by_pid id a) eqn:Ea; simpl.
  - destruct (by_pid id' a) eqn:Ea'; [| exact IH].
    unfold by_pid in *. apply Nat.eqb_eq in Ea, Ea'. congruence.
  - destruct (by_pid id' a); [reflexivity | exact IH].
Qed.

(** X17. The delete route checks that the caller is signed in and nothing
    more: whoever the access token belongs to -- the author of the post,
    another user, a user that no longer exists --, an existing post is
    deleted and the request answered 200; the other posts stay. *)
Theorem any_session_may_delete_any_post
        (req : Request) (w : World) (caller : ReqUser) (oid : ObjectId) (p : Post) :
  posts_ok w ->
  verdict secret lib req w = Accepted caller ->
  AuthServer.ObjectId_cast (params_id req) = Some oid ->
  find (by_pid oid) (posts w) = Some p ->
  let out := run (exec lib) (delete_route secret req) w in
  fst out = inr (mkResponse 200
                   (JSuccess ("Post with id of " ++ params_id req ++ " was deleted"))) /\
  posts (snd out) = filter (fun q => negb (by_pid oid q)) (posts w) /\
  ~ In p (posts (snd out)) /\
  users (snd out) = users w.
Proof.
  intros (Hnd & _) Hv Hc Hf. cbv zeta. unfold delete_route.
  rewrite run_protected, Hv, run_deletePost. cbn [params_id].
  rewrite Hc, Hf. cbn [fst snd posts set_posts users].
  rewrite (remove_first_by_pid _ _ Hnd).
  split; [reflexivity |]. split; [reflexivity |]. split; [| reflexivity].
  intros Hin. apply filter_In in Hin as [_ Hneg].
  apply find_by_pid_spec in Hf as [_ Hid]. unfold by_pid in Hneg.
  rewrite Hid, Nat.eqb_refl in Hneg. discriminate.
Qed.

(** X18. A deleted post is gone: after [deletePost] has answered 200,
    reading the post and deleting it again both fail with [Post with id of
    ... doesn't exist], and every other post reads as before. *)
Theorem deleted_post_is_gone (req : Request) (w : World) (oid : ObjectId) (p : Post) :
  posts_ok w ->
  AuthServer.ObjectId_cast (params_id req) = Some oid ->
  find (by_pid oid) (posts w) = Some p ->
  let w' := snd (run (exec lib) (deletePost req) w) in
  (forall req' : Request,
      params_id req' = params_id req ->
      run (exec lib) (getSinglePost req') w' = (inl (not_found (params_id req)), w') /\
      run (exec lib) (deletePost req') w' = (inl (not_found (params_id req)), w')) /\
  (forall (req' : Request) (oid' : ObjectId),
      AuthServer.ObjectId_cast (params_id req') = Some oid' -> oid' <> oid ->
      fst (run (exec lib) (getSinglePost req') w') =
      fst (run (exec lib) (getSinglePost req') w)).
Proof.
  intros (Hnd & _) Hc Hf. cbv zeta. rewrite run_deletePost, Hc, Hf. cbn [snd].
  rewrite (remove_first_by_pid _ _ Hnd). split.
  - intros req' Hid. rewrite run_getSinglePost, run_deletePost, Hid, Hc.
    cbn [posts set_posts]. rewrite find_filter_out. split; reflexivity.
  - intros req' oid' Hc' Hne. rewrite !run_getSinglePost, Hc'.
    cbn [posts set_posts]. rewrite (find_filter_other _ _ _ Hne).
    destruct (find (by_pid oid') (posts w)); reflexivity.
Qed.

Lemma find_snoc_new (l : list Post) (p : Post) :
  (forall q, In q l -> p_id q <> p_id p) -> find (by_pid (p_id p)) (l ++ [p]) = Some p.
Proof.
  intros Hnew. induction l as [| a t IH]; simpl.
  - unfold by_pid. now rewrite Nat.eqb_refl.
  - unfold by_pid at 1. rewrite (proj2 (Nat.eqb_neq _ _) (Hnew a (or_introl eq_refl))).
    apply IH. intros q Hq. apply Hnew. now right.
Qed.

(** X19. A post created through the protected route is stored under a new
    id with the author and the paths of the request body -- whoever the
    access token belongs to: the controller does not look at [req.user] --
    and is answered 201; from then on [getSinglePost] with that id answers
    the same populated post, and [getAllPosts] lists it last. *)
Theorem created_post_is_retrievable (req : Request) (w : World) (caller : ReqUser) :
  posts_ok w ->
  verdict secret lib req w = Accepted caller ->
  let out := run (exec lib) (post_route secret req) w in
  let p := mkPost (nextId w) (b_author (body req)) (b_fields (body req)) in
  fst out = inr (mkResponse 201 (JPost (populate w p))) /\
  posts (snd out) = posts w ++ [p] /\
  posts_ok (snd out) /\
  (forall req' : Request,
      params_id req' = AuthServer.ObjectId_toString (p_id p) ->
      run (exec lib) (getSinglePost req') (snd out) =
      (inr (mkResponse 200 (JPost (populate w p))), snd out)) /\
  (forall req' : Request,
      fst (run (exec lib) (getAllPosts req') (snd out)) =
      inr (mkResponse 200 (JPosts (map (populate w) (posts w) ++ [populate w p])))).
Proof.
  intros (Hnd & Hbound) Hv. cbv zeta. unfold post_route.
  rewrite run_protected, Hv. cbn.
  split; [reflexivity |]. split; [reflexivity |]. split; [| split].
  - split; simpl.
    + apply NoDup_map_snoc; [assumption |]. intros x Hx. simpl.
      specialize (Hbound x Hx). lia.
    + intros q Hq. apply in_app_iff in Hq as [Hq | [<- | []]]; simpl; [| lia].
      specialize (Hbound q Hq). lia.
  - intros req' Hid. rewrite run_getSinglePost, Hid, ObjectId_cast_toString.
    cbn [posts set_posts p_id].
    pose proof (find_snoc_new (posts w)
                  (mkPost (nextId w) (b_author (body req)) (b_fields (body req))))
      as Hnew.
    cbn [p_id] in Hnew. rewrite Hnew; [reflexivity |].
    intros q Hq. specialize (Hbound q Hq). lia.
  - intros req'. cbn. rewrite map_app. reflexivity.
Qed.

Lemma update_first_ids (id : ObjectId) (b : PostBody) (l : list Post) :
  map p_id (update_first id b l) = map p_id l.
Proof.
  induction l as [| a t IH]; simpl; [reflexivity |].
  destruct (by_pid id a); simpl; [reflexivity | now rewrite IH].
Qed.

Lemma update_first_other (id id' : ObjectId) (b : PostBody) (l : list Post) :
  id' <> id -> find (by_pid id') (update_first id b l) = find (by_pid id') l.
Proof.
  intros Hne. induction l as [| a t IH]; simpl; [reflexivity |].
  destruct (by_pid id a) eqn:Ea; simpl.
  - unfold by_pid in *. simpl. apply Nat.eqb_eq in Ea.
    rewrite (proj2 (Nat.eqb_neq (p_id a) id')); [reflexivity | congruence].
  - destruct (by_pid id' a); [reflexivity | exact IH].
Qed.

Lemma path_set_path (name name' value : string) (fields : list (string * string)) :
  path name (set_path name' value fields) =
  if String.eqb name' name then Some value else path name fields.
Proof.
  unfold path. induction fields as [| f rest IH]; simpl.
  - destruct (String.eqb name' name); reflexivity.
  - destruct (String.eqb_spec (fst f) name') as [Hf | Hf]; simpl.
    + destruct (String.eqb_spec name' name) as [Hn | Hn]; [reflexivity |].
      rewrite (proj2 (String.eqb_neq (fst f) name)); [reflexivity | congruence].
    + destruct (String.eqb_spec (fst f) name) as [Hn | Hn]; [| exact IH].
      rewrite (proj2 (String.eqb_neq name' name)); [reflexivity | congruence].
Qed.

Lemma path_app (name : string) (a b : list (string * string)) :
  path name (a ++ b) =
  match path name a with
  | Some value => Some value
  | None => path name b
  end.
Proof.
  unfold path. induction a as [| f rest IH]; simpl; [reflexivity |].
  destruct (String.eqb (fst f) name); [reflexivity | exact IH].
Qed.

Lemma find_update_first (id : ObjectId) (b : PostBody) (l : list Post) (p : Post) :
  find (by_pid id) l = Some p ->
  find (by_pid id) (update_first id b l) =
  Some (mkPost (p_id p) (b_author b) (set_paths (b_fields b) (p_fields p))).
Proof.
  induction l as [| q t IH]; simpl; [discriminate |].
  destruct (by_pid id q) eqn:Eq.
  - intros [= <-]. simpl. unfold by_pid in *. simpl. now rewrite Eq.
  - intros Hf. simpl. rewrite Eq. now apply IH.
Qed.

(** After a [$set], a path reads as the update says -- the last time it
    names the path -- and as before when the update does not name it. *)
Lemma path_set_paths (name : string) (update fields : list (string * string)) :
  path name (set_paths update fields) =
  match path name (rev update) with
  | Some value => Some value
  | None => path name fields
  end.
Proof.
  unfold set_paths. revert fields.
  induction update as [| f rest IH]; intros fields; simpl; [reflexivity |].
  rewrite IH, path_app, path_set_path.
  destruct (path name (rev rest)); [reflexivity |].
  destruct (String.eqb (fst f) name) eqn:E; unfold path; simpl; rewrite E;
    reflexivity.
Qed.

(** X20. [updatePost] rewrites one post in place, as a [$set]: the post
    keeps its [_id] and its position, takes the author of the body, and
    path by path the value the body gives it (the last one, if the body
    names a path twice), while every path the body does not name stays as
    it was; the answer is the updated post, no post is added or removed, and
    every other post reads as before. *)
Theorem updated_post_keeps_its_place
        (req : Request) (w : World) (oid : ObjectId) (p : Post) :
  AuthServer.ObjectId_cast (params_id req) = Some oid ->
  find (by_pid oid) (posts w) = Some p ->
  let out := run (exec lib) (updatePost req) w in
  let p' := mkPost oid (b_author (body req))
                   (set_paths (b_fields (body req)) (p_fields p)) in
  fst out = inr (mkResponse 200 (JPost (populate w p'))) /\
  map p_id (posts (snd out)) = map p_id (posts w) /\
  find (by_pid oid) (posts (snd out)) = Some p' /\
  (forall name : string,
      path name (p_fields p') =
      match path name (rev (b_fields (body req))) with
      | Some value => Some value
      | None => path name (p_fields p)
      end) /\
  (forall oid' : ObjectId,
      oid' <> oid -> find (by_pid oid') (posts (snd out)) = find (by_pid oid') (posts w)) /\
  users (snd out) = users w.
Proof.
  intros Hc Hf. cbv zeta. rewrite run_updatePost, Hc, Hf. cbv zeta. cbn [fst snd].
  pose proof (find_by_pid_spec _ _ _ Hf) as [_ Hid]. rewrite Hid.
  split; [reflexivity |]. split; [apply update_first_ids |].
  split; [| split; [| split]].
  - cbn [posts set_posts]. rewrite (find_update_first _ _ _ _ Hf), Hid. reflexivity.
  - intros name. cbn [p_fields]. apply path_set_paths.
  - intros oid' Hne. cbn [posts set_posts]. now apply update_first_other.
  - reflexivity.
Qed.

End PostsLifecycle.

(* ================================================================== *)
(** ** The cookie header *)

Section CookieHeaderFacts.

Import CookieHeader.

Local Open Scope string_scope.

Lemma append_snoc (a : string) (x : ascii) (b : string) :
  (a ++ String x "") ++ b = a ++ String x b.
Proof. induction a as [| y a IH]; simpl; [reflexivity | now rewrite IH]. Qed.

Lemma append_empty_r (a : string) : a ++ "" = a.
Proof. induction a as [| y a IH]; simpl; [reflexivity | now rewrite IH]. Qed.

Lemma free_of_append (c : ascii) (a b : string) :
  free_of c (a ++ b) = free_of c a && free_of c b.
Proof.
  induction a as [| y a IH]; simpl; [reflexivity |].
  rewrite IH. now rewrite andb_assoc.
Qed.

Lemma prefix_append (a b : string) : prefix a (a ++ b) = true.
Proof.
  induction a as [| y a IH]; simpl; [now destruct b |].
  destruct (ascii_dec y y); [exact IH | contradiction].
Qed.

(** A stretch without the first character of the separator is read into
    the current piece. *)
Lemma split_from_free (c0 : ascii) (sep' s tail piece : string) :
  free_of c0 s = true ->
  split_from (String c0 sep') 0 piece (s ++ tail) =
  split_from (String c0 sep') 0 (piece ++ s) tail.
Proof.
  revert piece. induction s as [| x s IH]; intros piece Hfree.
  - simpl. now rewrite append_empty_r.
  - simpl in Hfree. apply andb_true_iff in Hfree as [Hx Hs].
    apply negb_true_iff in Hx. apply Ascii.eqb_neq in Hx.
    cbn [append split_from prefix].
    destruct (ascii_dec c0 x) as [Heq | _]; [congruence |].
    rewrite (IH _ Hs), append_snoc. reflexivity.
Qed.

Lemma split_from_skip (sep r tail piece : string) :
  split_from sep (String.length r) piece (r ++ tail) = split_from sep 0 piece tail.
Proof.
  induction r as [| x r IH]; simpl; [reflexivity | exact IH].
Qed.

(** A separator closes the current piece. *)
Lemma split_from_sep (c0 : ascii) (sep' tail piece : string) :
  split_from (String c0 sep') 0 piece (String c0 sep' ++ tail) =
  piece :: split_from (String c0 sep') 0 "" tail.
Proof.
  cbn [append split_from].
  change (String c0 (sep' ++ tail)) with (String c0 sep' ++ tail).
  rewrite prefix_append. cbn [String.length]. rewrite Nat.sub_1_r. cbn [Nat.pred].
  now rewrite split_from_skip.
Qed.

Lemma split_free (c0 : ascii) (sep' s : string) :
  free_of c0 s = true -> split (String c0 sep') s = [s].
Proof.
  intros Hfree. unfold split.
  rewrite <- (append_empty_r s) at 1.
  rewrite (split_from_free c0 sep' s "" "" Hfree). reflexivity.
Qed.

(** Splitting what was joined gives the pieces back. *)
Lemma split_concat (c0 : ascii) (sep' : string) (pieces : list string) :
  pieces <> [] ->
  Forall (fun s => free_of c0 s = true) pieces ->
  split (String c0 sep') (String.concat (String c0 sep') pieces) = pieces.
Proof.
  intros Hne Hall. unfold split.
  induction pieces as [| p rest IH]; [contradiction |].
  inversion Hall as [| ? ? Hp Hrest]; subst.
  destruct rest as [| q rest].
  - simpl. rewrite <- (append_empty_r p) at 1.
    rewrite (split_from_free c0 sep' p "" "" Hp). reflexivity.
  - change (String.concat (String c0 sep') (p :: q :: rest))
      with (p ++ String c0 sep' ++ String.concat (String c0 sep') (q :: rest)).
    rewrite (split_from_free c0 sep' p _ "" Hp).
    change ("" ++ p) with p. rewrite split_from_sep.
    f_equal. apply IH; [discriminate | assumption].
Qed.

Lemma split_pair (name value : string) :
  free_of "=" name = true -> free_of "=" value = true ->
  split "=" (name ++ "=" ++ value) = [name; value].
Proof.
  intros Hn Hv.
  apply (split_concat "="%char "" [name; value]); [discriminate |].
  repeat constructor; assumption.
Qed.

Lemma plain_pair (name value : string) :
  plain name = true -> plain value = true ->
  free_of ";" (name ++ "=" ++ value) = true.
Proof.
  unfold plain. intros Hn Hv.
  apply andb_true_iff in Hn as [Hn _]. apply andb_true_iff in Hv as [Hv _].
  rewrite !free_of_append, Hn, Hv. reflexivity.
Qed.

(** The arrays made from the header of clean cookies are the cookies, name
    and value, in the order sent. *)
Lemma cookieArrays_header_of (cookies : list (string * string)) :
  cookies <> [] ->
  Forall (fun c => plain (fst c) = true /\ plain (snd c) = true) cookies ->
  cookieArrays (header_of cookies) = map (fun c => [fst c; snd c]) cookies.
Proof.
  intros Hne Hall. unfold cookieArrays, header_of. cbv zeta.
  rewrite (split_concat ";"%char " ").
  - rewrite !map_map. apply map_ext_in. intros [n v] Hin.
    rewrite Forall_forall in Hall. destruct (Hall _ Hin) as [Hn Hv].
    cbn [fst snd] in *. unfold plain in Hn, Hv.
    apply andb_true_iff in Hn as [_ Hn]. apply andb_true_iff in Hv as [_ Hv].
    rewrite (split_pair n v Hn Hv). reflexivity.
  - destruct cookies; [contradiction | discriminate].
  - rewrite Forall_map. eapply Forall_impl; [| exact Hall].
    intros [n v] [Hn Hv]. now apply plain_pair.
Qed.

Lemma property_app (key : string) (a b : list (string * option string))
      (sofar : option string) :
  property key (a ++ b) sofar = property key b (property key a sofar).
Proof.
  revert sofar. induction a as [| e a IH]; intros sofar; simpl; [reflexivity |].
  apply IH.
Qed.

Lemma property_absent (key : string) (l : list (string * option string))
      (sofar : option string) :
  (forall e, In e l -> fst e <> key) -> property key l sofar = sofar.
Proof.
  revert sofar. induction l as [| e l IH]; intros sofar Hno; simpl; [reflexivity |].
  rewrite (proj2 (String.eqb_neq _ _) (Hno e (or_introl eq_refl))).
  apply IH. intros x Hx. apply Hno. now right.
Qed.

(** X21. The hand-written cookie parsing ([split('; ')], [split('=')],
    [Object.fromEntries]) reads back what a client sends: for cookies whose
    names and values hold neither a semicolon nor an equals sign,
    [cookieArrays] has the name and the value of every cookie, in the order
    sent, and [token], read from the object made of them, is the value of
    the last cookie named [token]. *)
Theorem cookie_header_round_trip
        (before after : list (string * string)) (value : string) :
  Forall (fun c => plain (fst c) = true /\ plain (snd c) = true)
         (before ++ ("token", value) :: after) ->
  (forall c, In c after -> fst c <> "token") ->
  let header := header_of (before ++ ("token", value) :: after) in
  cookieArrays header =
    map (fun c => [fst c; snd c]) (before ++ ("token", value) :: after) /\
  token_of header = Some value.
Proof.
  intros Hall Hlast. cbv zeta.
  assert ((before ++ ("token", value) :: after)%list <> []) as Hne
      by (destruct before; discriminate).
  pose proof (cookieArrays_header_of _ Hne Hall) as Harr.
  split; [exact Harr |].
  unfold token_of. rewrite Harr, map_map.
  change (fun c : string * string => entry [fst c; snd c])
    with (fun c : string * string => (fst c, Some (snd c))).
  rewrite map_app, property_app. simpl.
  apply property_absent. intros e He.
  apply in_map_iff in He as (c & <- & Hc). simpl. now apply Hlast.
Qed.

(** X22. A value that holds an equals sign does not survive the parsing:
    [split('=')] cuts the cookie at every equals sign and
    [Object.fromEntries] keeps the first two parts, so [token] is the value
    up to its first equals sign. *)
Theorem cookie_value_is_cut_at_equals (head tail : string) :
  plain head = true -> free_of ";" tail = true ->
  token_of ("token=" ++ head ++ "=" ++ tail) = Some head.
Proof.
  unfold plain. intros Hh Ht. apply andb_true_iff in Hh as [Hsemi Heq].
  unfold token_of, cookieArrays. cbv zeta.
  rewrite (split_free ";"%char " ").
  - cbn [map]. unfold split.
    change ("token=" ++ head ++ "=" ++ tail)
      with ("token" ++ "=" ++ (head ++ "=" ++ tail)).
    rewrite (split_from_free "="%char "" "token" _ "" eq_refl).
    rewrite (split_from_sep "="%char "").
    rewrite (split_from_free "="%char "" head _ "" Heq).
    rewrite (split_from_sep "="%char "").
    reflexivity.
  - change ("token=" ++ head ++ "=" ++ tail) with ("token=" ++ (head ++ "=" ++ tail)).
    rewrite !free_of_append, Hsemi, Ht. reflexivity.
Qed.

End CookieHeaderFacts.

(* ================================================================== *)
(** ** Signing in after signing up, and two registrations at once *)

Section LegacySignIn.

Variable env : Legacy.Env.
Variable lib : Legacy.Libs.

(** X23. A user who signed up can sign in: with the same email and a
    password that [bcrypt.compare] matches against the stored hash,
    [signIn] answers 201 [Welcome back] and sets one cookie, [token], a JWT
    signed for the id [signUp] gave the user, [httpOnly] and [Secure]
    exactly in production; signing in writes nothing. *)
Theorem signUp_then_signIn (req req' : Legacy.Request) (w : Legacy.World) :
  find (Legacy.by_email (Legacy.email (Legacy.sanitizedBody req))) (Legacy.users w) = None ->
  Legacy.email (Legacy.sanitizedBody req') = Legacy.email (Legacy.sanitizedBody req) ->
  Legacy.bcrypt_compare lib (Legacy.password (Legacy.sanitizedBody req'))
    (Legacy.bcrypt_hash lib (Legacy.password (Legacy.sanitizedBody req))
       (Legacy.bcrypt_genSalt lib 10 (Legacy.randomBytes w (Legacy.randomCtr w)))) = true ->
  let w1 := snd (run (Legacy.exec lib) (Legacy.signUp req) w) in
  run (Legacy.exec lib) (Legacy.signIn env req') w1 =
  (inr (Legacy.mkResponse 201
          [AuthServer.mkCookie "token"
             (Legacy.jwt_sign lib (Legacy.nextId w) (Legacy.JWT_SECRET env) "6d"
                              (Legacy.now w))
             true
             (if Legacy.isProduction env
              then AuthServer.SameSiteNone else AuthServer.SameSiteLax)
             (Legacy.isProduction env) None]
          (Legacy.JMessage "Welcome back")),
   w1).
Proof.
  intros Hfind He Hm. cbv zeta.
  unfold Legacy.signUp. cbn. rewrite Hfind. cbn.
  rewrite (legacy_existsb_of_find _ _ Hfind). cbn.
  unfold Legacy.signIn. cbn. rewrite He.
  rewrite find_snoc_fresh;
    [| exact Hfind | unfold Legacy.by_email; cbn; apply String.eqb_refl].
  cbn. rewrite Hm. reflexivity.
Qed.

End LegacySignIn.

Set Implicit Arguments.

Section RegisterRace.

Import AuthServer.
Import Races.

Variable cfg : Config.
Variable lib : Libs.

Lemma sched_run_app (s1 s2 : list Tid) (c : Duo Op World Response) :
  sched_run (exec cfg lib) is_async (s1 ++ s2) c =
  sched_run (exec cfg lib) is_async s2 (sched_run (exec cfg lib) is_async s1 c).
Proof.
  revert c. induction s1 as [| t s1 IH]; intros c; [reflexivity |].
  cbn [app sched_run]. apply IH.
Qed.

Lemma step_check (req : Request) (w : World) :
  find (by_email (email (body req))) (users w) = None ->
  step (exec cfg lib) is_async (register cfg req) w = (register_salt cfg (body req), w).
Proof.
  intros H. unfold register. cbn [bind await step exec is_async]. rewrite H. reflexivity.
Qed.

Lemma step_salt (b : Body) (w : World) :
  step (exec cfg lib) is_async (register_salt cfg b) w =
  (register_hash cfg b (bcrypt_genSalt lib (SALT_ROUNDS cfg) (randomBytes w (randomCtr w))),
   snd (draw_random w)).
Proof. reflexivity. Qed.

Lemma step_hash (b : Body) (salt : string) (w : World) :
  step (exec cfg lib) is_async (register_hash cfg b salt) w =
  (register_create cfg b (bcrypt_hash lib (password b) salt), w).
Proof. reflexivity. Qed.

Lemma step_create (b : Body) (h : string) (w : World) :
  existsb (by_email (email b)) (users w) = false ->
  step (exec cfg lib) is_async (register_create cfg b h) w =
  (register_issue cfg (mkUser (nextId w) (firstName b) (lastName b) (email b) h
                              ["user"] (now w)),
   set_users w (users w ++ [mkUser (nextId w) (firstName b) (lastName b) (email b) h
                                   ["user"] (now w)])
             (S (nextId w))).
Proof.
  intros H. unfold register_create.
  cbn [bind await_or_throw step exec is_async]. rewrite H. reflexivity.
Qed.

Lemma step_create_taken (b : Body) (h : string) (w : World) :
  existsb (by_email (email b)) (users w) = true ->
  step (exec cfg lib) is_async (register_create cfg b h) w = (Throw duplicate_key, w).
Proof.
  intros H. unfold register_create.
  cbn [bind await_or_throw step exec is_async]. rewrite H. reflexivity.
Qed.

Lemma step_register_issue (u : User) (w : World) :
  existsb (by_token (uuidGen w (uuidCtr w))) (refreshTokens w) = false ->
  step (exec cfg lib) is_async (register_issue cfg u) w =
  (register_sign cfg u (uuidGen w (uuidCtr w)), after_issue cfg u w).
Proof.
  intros H. unfold register_issue, createTokens.
  cbn [bind await await_or_throw step exec is_async draw_uuid refreshTokens].
  rewrite H. reflexivity.
Qed.

Lemma step_register_sign (u : User) (r : string) (w : World) :
  step (exec cfg lib) is_async (register_sign cfg u r) w =
  (Ret (res_json (res_status (setAuthCookies cfg res0 r (issued_access cfg lib u w)) 201)
                 (JMessage "Registered")), w).
Proof. reflexivity. Qed.

Section Interleaved.

Variable w : World.
Variable e : string.

Hypothesis Hok : store_ok w.
Hypothesis Hsrc : uuid_source_ok w.
Hypothesis Hfree : find (by_email e) (users w) = None.

Lemma same_store_refl (w0 : World) : same_store w0 w0.
Proof. repeat split. Qed.

Lemma same_store_trans (w0 w1 w2 : World) :
  same_store w0 w1 -> same_store w1 w2 -> same_store w0 w2.
Proof.
  intros (a1 & a2 & a3 & a4 & a5) (b1 & b2 & b3 & b4 & b5).
  repeat split; congruence.
Qed.

(** A registration for body [b] that had [n] turns and did not insert. *)
Inductive checking (b : Body) : nat -> Prog Op Response -> Prop :=
| at_check (req : Request) : body req = b -> checking b 0 (register cfg req)
| at_salt : checking b 1 (register_salt cfg b)
| at_hash (salt : string) : checking b 2 (register_hash cfg b salt)
| at_create (h : string) : checking b 3 (register_create cfg b h).

Lemma checking_unfinished (b : Body) (n : nat) (p : Prog Op Response) :
  checking b n p -> finished p = false.
Proof. intros H; destruct H; reflexivity. Qed.

Lemma checking_step (b : Body) (n : nat) (p : Prog Op Response) (w1 : World) :
  email b = e -> checking b n p -> n < 3 -> same_store w w1 ->
  checking b (S n) (fst (step (exec cfg lib) is_async p w1)) /\
  same_store w (snd (step (exec cfg lib) is_async p w1)).
Proof.
  intros He Hc Hn Hs. pose proof Hs as (Hu & _).
  destruct Hc as [req Hb | | salt | h].
  - rewrite step_check by (rewrite Hb, He, Hu; exact Hfree).
    rewrite Hb. split; [constructor | exact Hs].
  - rewrite step_salt. split; [constructor |].
    apply (same_store_trans Hs). repeat split.
  - rewrite step_hash. split; [constructor | exact Hs].
  - lia.
Qed.

(** Before either insert: both requests move through their first stages
    and the store stays as it was. *)
Lemma checks_invariant (bA bB : Body) (pre : list Tid) :
  email bA = e -> email bB = e ->
  forall (na nb : nat) (pa pb : Prog Op Response) (w1 : World),
    checking bA na pa -> checking bB nb pb -> same_store w w1 ->
    na + turns ReqA pre <= 3 -> nb + turns ReqB pre <= 3 ->
    let '(pa', pb', w2) := sched_run (exec cfg lib) is_async pre (pa, pb, w1) in
    checking bA (na + turns ReqA pre) pa' /\
    checking bB (nb + turns ReqB pre) pb' /\
    same_store w w2.
Proof.
  intros HeA HeB. induction pre as [| t pre IH]; intros na nb pa pb w1 Ha Hb Hs Hna Hnb.
  - cbn. rewrite !Nat.add_0_r. auto.
  - destruct t.
    + rewrite sched_run_cons_A.
      change (turns ReqA (ReqA :: pre)) with (S (turns ReqA pre)) in *.
      change (turns ReqB (ReqA :: pre)) with (turns ReqB pre) in *.
      destruct (checking_step (w1 := w1) HeA Ha ltac:(lia) Hs) as [Ha' Hs'].
      destruct (step (exec cfg lib) is_async pa w1) as [pa1 w2]. cbn [fst snd] in *.
      rewrite Nat.add_succ_r.
      apply (IH (S na) nb pa1 pb w2 Ha' Hb Hs'); lia.
    + rewrite sched_run_cons_B.
      change (turns ReqB (ReqB :: pre)) with (S (turns ReqB pre)) in *.
      change (turns ReqA (ReqB :: pre)) with (turns ReqA pre) in *.
      destruct (checking_step (w1 := w1) HeB Hb ltac:(lia) Hs) as [Hb' Hs'].
      destruct (step (exec cfg lib) is_async pb w1) as [pb1 w2]. cbn [fst snd] in *.
      rewrite Nat.add_succ_r.
      apply (IH na (S nb) pa pb1 w2 Ha Hb' Hs'); lia.
Qed.

(** After the first insert: the request that inserted user [u] goes on to
    its session and its answer. *)
Inductive inserted_at (u : User) : Prog Op Response -> World -> Prop :=
| inserted_issue (w1 : World) :
    users w1 = users w ++ [u] -> refreshTokens w1 = refreshTokens w ->
    nextId w1 = S (nextId w) -> uuidGen w1 = uuidGen w -> uuidCtr w1 = uuidCtr w ->
    inserted_at u (register_issue cfg u) w1
| inserted_sign (w1 : World) (row : RefreshToken) :
    users w1 = users w ++ [u] -> refreshTokens w1 = refreshTokens w ++ [row] ->
    rt_id row = S (nextId w) ->
    inserted_at u (register_sign cfg u (rt_token row)) w1
| inserted_done (w1 : World) (row : RefreshToken) (res : Response) :
    users w1 = users w ++ [u] -> refreshTokens w1 = refreshTokens w ++ [row] ->
    rt_id row = S (nextId w) -> res_statusCode res = 201 ->
    inserted_at u (Ret res) w1.

(** The other request is still on its way to the insert, or was refused
    by the unique index. *)
Inductive waiting_at (b : Body) : Prog Op Response -> Prop :=
| waiting_checking (n : nat) (p : Prog Op Response) :
    1 <= n -> checking b n p -> waiting_at b p
| waiting_refused : waiting_at b (Throw duplicate_key).

Lemma fresh_uuid : existsb (by_token (uuidGen w (uuidCtr w))) (refreshTokens w) = false.
Proof.
  destruct Hsrc as (Hfresh & _).
  apply existsb_by_token_false. intros r Hr. apply Hfresh; [lia | assumption].
Qed.

Lemma inserted_users (u : User) (p : Prog Op Response) (w1 : World) :
  inserted_at u p w1 -> users w1 = users w ++ [u].
Proof. intros H; destruct H; assumption. Qed.

Lemma inserted_step (u : User) (p : Prog Op Response) (w1 : World) :
  inserted_at u p w1 ->
  inserted_at u (fst (step (exec cfg lib) is_async p w1))
            (snd (step (exec cfg lib) is_async p w1)).
Proof.
  intros H. destruct H as [w1 Hu Hr Hn Hg Hc | w1 row Hu Hr Hid | w1 row res Hu Hr Hid Hst].
  - rewrite step_register_issue by (rewrite Hg, Hc, Hr; exact fresh_uuid).
    cbn [fst snd].
    change (uuidGen w1 (uuidCtr w1)) with (rt_token (issued_row cfg u w1)).
    apply inserted_sign.
    + exact Hu.
    + cbn [after_issue set_refreshTokens refreshTokens]. now rewrite Hr.
    + cbn [issued_row rt_id]. exact Hn.
  - rewrite step_register_sign. cbn [fst snd].
    eapply inserted_done; try eassumption. reflexivity.
  - cbn [step fst snd]. eapply inserted_done; eassumption.
Qed.

(** A turn of the other request leaves the collections alone. *)
Lemma waiting_step (b : Body) (u : User) (p : Prog Op Response) (w1 : World) :
  email b = e -> u_email u = e -> users w1 = users w ++ [u] -> waiting_at b p ->
  waiting_at b (fst (step (exec cfg lib) is_async p w1)) /\
  same_store w1 (snd (step (exec cfg lib) is_async p w1)).
Proof.
  intros He Hue Hu Hl. destruct Hl as [n p Hn Hc |].
  - destruct Hc as [req Hb | | salt | h].
    + lia.
    + rewrite step_salt. split; [| repeat split].
      apply (waiting_checking (n := 2)); [lia | constructor].
    + rewrite step_hash. split; [| apply same_store_refl].
      apply (waiting_checking (n := 3)); [lia | constructor].
    + rewrite step_create_taken.
      * split; [constructor | apply same_store_refl].
      * rewrite Hu, existsb_app. cbn [existsb]. unfold by_email at 2.
        rewrite Hue, He, String.eqb_refl. apply orb_true_r.
  - cbn [step fst snd]. split; [constructor | apply same_store_refl].
Qed.

Lemma inserted_moves (u : User) (p : Prog Op Response) (w1 w2 : World) :
  inserted_at u p w1 -> same_store w1 w2 -> inserted_at u p w2.
Proof.
  intros H (s1 & s2 & s3 & s4 & s5).
  destruct H as [w1 Hu Hr Hn Hg Hc | w1 row Hu Hr Hid | w1 row res Hu Hr Hid Hst].
  - apply inserted_issue; congruence.
  - apply inserted_sign; congruence.
  - eapply inserted_done with (row := row); congruence.
Qed.

(** What holds of the two requests and the store at every point after
    both checks. *)
Inductive race_at (bA bB : Body) : Prog Op Response -> Prog Op Response -> World -> Prop :=
| neither_inserted (na nb : nat) (pa pb : Prog Op Response) (w1 : World) :
    1 <= na -> 1 <= nb -> checking bA na pa -> checking bB nb pb -> same_store w w1 ->
    race_at bA bB pa pb w1
| first_inserted (u : User) (pa pb : Prog Op Response) (w1 : World) :
    u_email u = e -> inserted_at u pa w1 -> waiting_at bB pb -> race_at bA bB pa pb w1
| second_inserted (u : User) (pa pb : Prog Op Response) (w1 : World) :
    u_email u = e -> inserted_at u pb w1 -> waiting_at bA pa -> race_at bA bB pa pb w1.

Lemma checking_turn (b : Body) (n : nat) (p : Prog Op Response) (w1 : World) :
  email b = e -> 1 <= n -> checking b n p -> same_store w w1 ->
  (exists m, 1 <= m /\
     checking b m (fst (step (exec cfg lib) is_async p w1)) /\
     same_store w (snd (step (exec cfg lib) is_async p w1))) \/
  (exists u, u_email u = e /\
     inserted_at u (fst (step (exec cfg lib) is_async p w1))
               (snd (step (exec cfg lib) is_async p w1))).
Proof.
  intros He Hn Hc Hs.
  destruct (Nat.lt_ge_cases n 3) as [Hlt | Hge].
  - left. exists (S n). split; [lia |]. now apply checking_step.
  - right. destruct Hs as (Hu & Hr & Hi & Hg & Hctr).
    destruct Hc as [req Hb | | salt | h]; try lia.
    rewrite step_create
      by (rewrite Hu, He; apply existsb_by_email_of_find; exact Hfree).
    cbn [fst snd].
    eexists. split; [| apply inserted_issue]; cbn [u_email set_users users refreshTokens
      nextId uuidGen uuidCtr]; try congruence.
Qed.

Lemma race_step_A (bA bB : Body) (pa pb : Prog Op Response) (w1 : World) :
  email bA = e -> email bB = e -> race_at bA bB pa pb w1 ->
  race_at bA bB (fst (step (exec cfg lib) is_async pa w1)) pb
          (snd (step (exec cfg lib) is_async pa w1)).
Proof.
  intros HeA HeB H.
  destruct H as [na nb pa pb w1 Hna Hnb Ha Hb Hs | u pa pb w1 Hue Hw Hl | u pa pb w1 Hue Hw Hl].
  - destruct (checking_turn (w1 := w1) HeA Hna Ha Hs) as [(m & Hm & Ha' & Hs') | (u & Hue & Hw)].
    + exact (@neither_inserted bA bB _ _ _ _ _ Hm Hnb Ha' Hb Hs').
    + eapply first_inserted; [eassumption | eassumption |].
      exact (@waiting_checking bB nb pb Hnb Hb).
  - eapply first_inserted; [eassumption | apply inserted_step; assumption | assumption].
  - destruct (@waiting_step bA u pa w1 HeA Hue (inserted_users Hw) Hl) as [Hl' Hs'].
    eapply second_inserted; [eassumption | eapply inserted_moves; eassumption | assumption].
Qed.

Lemma race_step_B (bA bB : Body) (pa pb : Prog Op Response) (w1 : World) :
  email bA = e -> email bB = e -> race_at bA bB pa pb w1 ->
  race_at bA bB pa (fst (step (exec cfg lib) is_async pb w1))
          (snd (step (exec cfg lib) is_async pb w1)).
Proof.
  intros HeA HeB H.
  destruct H as [na nb pa pb w1 Hna Hnb Ha Hb Hs | u pa pb w1 Hue Hw Hl | u pa pb w1 Hue Hw Hl].
  - destruct (checking_turn (w1 := w1) HeB Hnb Hb Hs) as [(m & Hm & Hb' & Hs') | (u & Hue & Hw)].
    + exact (@neither_inserted bA bB _ _ _ _ _ Hna Hm Ha Hb' Hs').
    + eapply second_inserted; [eassumption | eassumption |].
      exact (@waiting_checking bA na pa Hna Ha).
  - destruct (@waiting_step bB u pb w1 HeB Hue (inserted_users Hw) Hl) as [Hl' Hs'].
    eapply first_inserted; [eassumption | eapply inserted_moves; eassumption | assumption].
  - eapply second_inserted; [eassumption | apply inserted_step; assumption | assumption].
Qed.

Lemma register_race_invariant (bA bB : Body) (sched : list Tid) :
  email bA = e -> email bB = e ->
  forall (pa pb : Prog Op Response) (w1 : World),
    race_at bA bB pa pb w1 ->
    let '(pa', pb', w2) := sched_run (exec cfg lib) is_async sched (pa, pb, w1) in
    race_at bA bB pa' pb' w2.
Proof.
  intros HeA HeB. induction sched as [| t sched IH]; intros pa pb w1 H.
  - exact H.
  - destruct t.
    + rewrite sched_run_cons_A. pose proof (race_step_A HeA HeB H) as H'.
      destruct (step (exec cfg lib) is_async pa w1) as [pa1 w2]. exact (IH _ _ _ H').
    + rewrite sched_run_cons_B. pose proof (race_step_B HeA HeB H) as H'.
      destruct (step (exec cfg lib) is_async pb w1) as [pb1 w2]. exact (IH _ _ _ H').
Qed.

Lemma one_row_added (w1 : World) (row : RefreshToken) :
  refreshTokens w1 = refreshTokens w ++ [row] -> rt_id row = S (nextId w) ->
  length (new_rows w w1) = 1.
Proof.
  intros Hr Hid. destruct Hok as (_ & _ & Hbound & _).
  unfold new_rows. rewrite Hr, filter_app.
  rewrite filter_nil_of_all_false.
  - cbn [filter app]. rewrite Hid.
    assert (existsb (by_rtid (S (nextId w))) (refreshTokens w) = false) as ->;
      [| reflexivity].
    destruct (existsb (by_rtid (S (nextId w))) (refreshTokens w)) eqn:E; [| reflexivity].
    apply existsb_exists in E as (x & Hx & Hx'). apply Nat.eqb_eq in Hx'.
    destruct (Hbound x Hx). lia.
  - intros x Hx. apply negb_false_iff. apply existsb_exists.
    exists x. split; [assumption |]. unfold by_rtid. apply Nat.eqb_refl.
Qed.

Lemma inserted_finished (u : User) (p : Prog Op Response) (w1 : World) :
  inserted_at u p w1 -> finished p = true ->
  final_status p = Some 201 /\ users w1 = users w ++ [u] /\ length (new_rows w w1) = 1.
Proof.
  intros H Hf.
  destruct H as [w1 Hu Hr Hn Hg Hc | w1 row Hu Hr Hid | w1 row res Hu Hr Hid Hst];
    try discriminate Hf.
  split; [cbn; now rewrite Hst |]. split; [exact Hu |].
  exact (@one_row_added w1 row Hr Hid).
Qed.

Lemma waiting_finished (b : Body) (p : Prog Op Response) :
  waiting_at b p -> finished p = true ->
  final_status p = Some 500 /\ outcome p = Some (inl duplicate_key).
Proof.
  intros H Hf. destruct H as [n p Hn Hc |].
  - rewrite (checking_unfinished Hc) in Hf. discriminate.
  - split; reflexivity.
Qed.

End Interleaved.

Lemma turns_bounds (t : Tid) (sched : list Tid) :
  checked_not_inserted t sched = true -> 1 <= turns t sched <= 3.
Proof.
  unfold checked_not_inserted. intros H.
  apply andb_true_iff in H as [H1 H2].
  apply Nat.leb_le in H1, H2. lia.
Qed.

(** X24. [register] checks for the email and inserts the user in two
    separate awaits.  Take two registrations of one unused email and any
    interleaving of their turns that starts with a stretch [pre] in which
    both run their check and neither reaches its insert, and that runs both
    to their end.  Then one of them is answered 201 and the other is refused
    by the unique index, not by the check: it fails with the driver's
    duplicate-key error, which carries no [cause], and its client gets 500
    instead of the 409 of the check.  Which of the two wins depends on the
    interleaving.  One user, with that email, and one session are created. *)
Theorem racing_registrations_end_in_500 (reqA reqB : Request) (w : World)
        (pre rest : list Tid) (pa pb : Prog Op Response) (w' : World) :
  store_ok w -> uuid_source_ok w ->
  find (by_email (email (body reqA))) (users w) = None ->
  email (body reqB) = email (body reqA) ->
  checks_before_inserts pre = true ->
  register_race cfg lib reqA reqB (pre ++ rest) w = (pa, pb, w') ->
  finished pa = true -> finished pb = true ->
  ((final_status pa = Some 201 /\ final_status pb = Some 500 /\
    outcome pb = Some (inl duplicate_key)) \/
   (final_status pb = Some 201 /\ final_status pa = Some 500 /\
    outcome pa = Some (inl duplicate_key))) /\
  (exists u : User, users w' = users w ++ [u] /\ u_email u = email (body reqA)) /\
  length (new_rows w w') = 1.
Proof.
  intros Hok Hsrc Hfind He Hpre Hrun Hfa Hfb.
  unfold checks_before_inserts in Hpre. apply andb_true_iff in Hpre as [HA HB].
  apply turns_bounds in HA, HB.
  unfold register_race in Hrun. rewrite sched_run_app in Hrun.
  pose proof (@checks_invariant w (email (body reqA)) Hfind (body reqA) (body reqB) pre
                eq_refl He 0 0 (register cfg reqA) (register cfg reqB) w
                (at_check reqA eq_refl) (at_check reqB eq_refl)
                (same_store_refl w)) as H1.
  cbn [Nat.add] in H1. specialize (H1 (proj2 HA) (proj2 HB)).
  destruct (sched_run (exec cfg lib) is_async pre (register cfg reqA, register cfg reqB, w))
    as [[pa1 pb1] w1].
  destruct H1 as (Ha & Hb & Hs).
  pose proof (@register_race_invariant w (email (body reqA)) Hsrc Hfind (body reqA) (body reqB) rest
                eq_refl He pa1 pb1 w1
                (@neither_inserted w (email (body reqA)) (body reqA) (body reqB) _ _ _ _ _
                   (proj1 HA) (proj1 HB) Ha Hb Hs)) as H2.
  rewrite Hrun in H2.
  destruct H2 as [na nb pa pb w2 Hna Hnb Ha2 Hb2 Hs2 | u pa pb w2 Hue Hw Hl | u pa pb w2 Hue Hw Hl].
  - rewrite (checking_unfinished Ha2) in Hfa. discriminate.
  - destruct (inserted_finished Hok Hw Hfa) as (Hst & Hu & Hrows).
    destruct (waiting_finished Hl Hfb) as (Hst' & Hout).
    split; [left; auto |]. split; [exists u; auto | exact Hrows].
  - destruct (inserted_finished Hok Hw Hfb) as (Hst & Hu & Hrows).
    destruct (waiting_finished Hl Hfa) as (Hst' & Hout).
    split; [right; auto |]. split; [exists u; auto | exact Hrows].
Qed.

End RegisterRace.

Unset Implicit Arguments.

(* ================================================================== *)
(** ** How long an access token is good, and for whom *)

Section AccessTokenLifetime.

Import AuthServer.
Import Flow.
Import Revocation.

Variable cfg : Config.
Variable lib : Libs.

Lemma session_call_keeps_users (c : Call) (w : World) :
  session_call c = true ->
  users (run_call cfg lib c w) = users w /\ now (run_call cfg lib c w) = now w.
Proof.
  destruct c as [req | req | req | req | req | t |]; intros Hs;
    try discriminate Hs; unfold run_call.
  - rewrite run_login.
    destruct (find _ _) as [u |]; [| split; reflexivity].
    destruct (bcrypt_compare _ _ _); [| split; reflexivity].
    destruct (existsb _ _); split; reflexivity.
  - rewrite run_me. split; reflexivity.
  - rewrite run_logout. simpl.
    destruct (refreshToken (cookies req)) as [v |]; [| split; reflexivity].
    destruct (String.eqb v ""); split; reflexivity.
  - destruct (falsy (refreshToken (cookies req))) eqn:Hf.
    + rewrite (run_refresh_missing cfg lib req w Hf). split; reflexivity.
    + unfold falsy in Hf.
      destruct (refreshToken (cookies req)) as [v |] eqn:Hc; [| discriminate].
      apply String.eqb_neq in Hf.
      rewrite (run_refresh cfg lib req v w Hc Hf).
      destruct (find _ _) as [st |]; [| split; reflexivity]. cbv zeta.
      destruct (find _ _) as [u |]; [| split; reflexivity].
      destruct (existsb _ _); split; reflexivity.
  - split; reflexivity.
Qed.

Lemma me_reads_users_and_clock (req : Request) (w w' : World) :
  users w' = users w -> now w' = now w ->
  fst (serve cfg lib (me cfg) req w') = fst (serve cfg lib (me cfg) req w).
Proof.
  intros Hu Hn. unfold serve. rewrite !run_me. cbn [fst]. now rewrite Hu, Hn.
Qed.

(** X25. Ending sessions does not revoke access tokens: after any
    sequence of logins, logouts, rotations, [me] calls and TTL sweeps, [me]
    answers a request exactly as it did before -- an access token stays
    good until [jwt.verify] rejects it, whatever happened to the refresh
    token it was issued with. *)
Theorem access_tokens_outlive_sessions (cs : list Call) (req : Request) (w : World) :
  forallb session_call cs = true ->
  fst (serve cfg lib (me cfg) req (run_calls cfg lib cs w)) =
  fst (serve cfg lib (me cfg) req w).
Proof.
  intros Hcs. apply me_reads_users_and_clock.
  - revert w; induction cs as [| c cs IH]; intros w; simpl; [reflexivity |].
    simpl in Hcs. apply andb_true_iff in Hcs as [Hc Hcs].
    rewrite (IH Hcs). apply session_call_keeps_users; assumption.
  - revert w; induction cs as [| c cs IH]; intros w; simpl; [reflexivity |].
    simpl in Hcs. apply andb_true_iff in Hcs as [Hc Hcs].
    rewrite (IH Hcs). apply session_call_keeps_users; assumption.
Qed.

(** X26. With the secret of the auth server, the API lets through every
    request whose access cookie [me] answers with 200, and more: it trusts
    the token alone.  For an accepted token [me] still looks the user up and
    answers 401 when the subject names no stored user, while [authenticate]
    hands the request on with that subject as [req.user.id]. *)
Theorem api_trusts_the_token_alone
        (req : Request) (w : World) (params_id : string) (body : Api.PostBody)
        (aw : Api.World) :
  Api.now aw = now w ->
  let answer := fst (serve cfg lib (me cfg) req w) in
  let verdict := Api.verdict (ACCESS_JWT_SECRET cfg) lib (forwarded req params_id body) aw in
  (res_statusCode answer = 200 -> exists u : Api.ReqUser, verdict = Api.Accepted u) /\
  (forall u : Api.ReqUser,
      verdict = Api.Accepted u ->
      answer = match ObjectId_cast (Api.ru_id u) with
               | Some id =>
                   match find (by_uid id) (users w) with
                   | Some user => mkResponse 200 [] [] [] (JMessageUser "Valid token" user)
                   | None => mkResponse 401 [] [] [] (JMessage "Invalid access token.")
                   end
               | None => mkResponse 401 [] [] [] (JMessage "Invalid access token.")
               end).
Proof.
  intros Hnow. cbv zeta. unfold serve, Api.verdict, forwarded.
  rewrite run_me. cbn [fst Api.accessToken]. rewrite Hnow.
  destruct (accessToken (cookies req)) as [token |]; [| split; [discriminate |]].
  - destruct (String.eqb token ""); [split; [discriminate | intros u; discriminate] |].
    destruct (jwt_verify lib token (ACCESS_JWT_SECRET cfg) (now w)) as [e | p].
    + destruct (instanceof_TokenExpiredError e);
        (split; [discriminate | intros u; discriminate]).
    + destruct (jwt_sub p) as [sub |];
        [| split; [discriminate | intros u; discriminate]].
      destruct (String.eqb sub "");
        [split; [discriminate | intros u; discriminate] |].
      split.
      * intros _. eexists. reflexivity.
      * intros u [= <-]. cbn [Api.ru_id].
        destruct (ObjectId_cast sub) as [id |]; [| reflexivity].
        destruct (find (by_uid id) (users w)); reflexivity.
  - intros u; discriminate.
Qed.

End AccessTokenLifetime.

(* ================================================================== *)
(** ** The further properties on the concrete deployment *)

Lemma store_ok_orphan_world : AuthServer.store_ok Demo.orphan_world.
Proof.
  unfold AuthServer.store_ok; simpl.
  repeat match goal with
         | |- _ /\ _ => split
         | |- NoDup _ => constructor; simpl
         | |- ~ _ => tauto
         | |- forall _, _ => intros ? [<- | []]; simpl; lia
         | |- forall _, _ => intros ? []
         end.
Qed.

Lemma posts_ok_api_world : Api.posts_ok Demo.api_world.
Proof.
  split; simpl.
  - repeat constructor. simpl. tauto.
  - intros p [<- | []]. simpl. lia.
Qed.

Lemma logout_deletes_only_the_presented_row_witness :
  find (AuthServer.by_token "r-old")
       (AuthServer.refreshTokens
          (snd (run (AuthServer.exec Demo.cfg Demo.lib)
                    (AuthServer.logout (AuthServer.refresh_request "r-old"))
                    Demo.world1))) = None.
Proof.
  pose proof (@logout_deletes_only_the_presented_row Demo.cfg Demo.lib
                (AuthServer.refresh_request "r-old") "r-old" Demo.world1
                store_ok_world1 eq_refl ltac:(discriminate)) as H.
  cbv zeta in H. exact (proj1 (proj2 (proj2 H))).
Defined.

Lemma logged_out_value_is_refused_witness :
  AuthServer.res_statusCode
    (fst (AuthServer.serve Demo.cfg Demo.lib (AuthServer.refresh Demo.cfg)
            (AuthServer.refresh_request "r-old")
            (AuthServer.run_calls Demo.cfg Demo.lib Demo.between
               (snd (run (AuthServer.exec Demo.cfg Demo.lib)
                         (AuthServer.logout (AuthServer.refresh_request "r-old"))
                         Demo.world1))))) = 403.
Proof.
  pose proof (@logged_out_value_is_refused Demo.cfg Demo.lib
                (AuthServer.refresh_request "r-old") "r-old" Demo.world1
                store_ok_world1 eq_refl ltac:(discriminate)
                (fun n _ => uuid_of_not_r_old n)
                Demo.between (AuthServer.refresh_request "r-old") eq_refl) as H.
  cbv zeta in H. rewrite H. reflexivity.
Defined.

Lemma logout_is_idempotent_witness :
  run (AuthServer.exec Demo.cfg Demo.lib)
      (AuthServer.logout (AuthServer.refresh_request "r-old"))
      (snd (run (AuthServer.exec Demo.cfg Demo.lib)
                (AuthServer.logout (AuthServer.refresh_request "r-old")) Demo.world1)) =
  run (AuthServer.exec Demo.cfg Demo.lib)
      (AuthServer.logout (AuthServer.refresh_request "r-old")) Demo.world1.
Proof.
  exact (@logout_is_idempotent Demo.cfg Demo.lib
           (AuthServer.refresh_request "r-old") Demo.world1 store_ok_world1).
Defined.

Lemma login_failures_are_indistinguishable_witness :
  AuthServer.serve Demo.cfg Demo.lib (AuthServer.login Demo.cfg)
    (AuthServer.mkRequest Demo.bob_body Demo.no_cookies) Demo.world1 =
  AuthServer.serve Demo.cfg Demo.lib (AuthServer.login Demo.cfg)
    (AuthServer.mkRequest Demo.wrong_password_body Demo.no_cookies) Demo.world1.
Proof.
  exact (proj2 (proj2 (@login_failures_are_indistinguishable Demo.cfg Demo.lib
                         (AuthServer.mkRequest Demo.bob_body Demo.no_cookies)
                         (AuthServer.mkRequest Demo.wrong_password_body Demo.no_cookies)
                         Demo.ada Demo.world1 eq_refl eq_refl eq_refl))).
Defined.

Lemma issued_access_token_opens_me_witness :
  AuthServer.serve Demo.cfg Demo.lib (AuthServer.me Demo.cfg)
    (Flow.access_request "0.s3cret")
    (AuthServer.set_now 9
       (AuthServer.after_issue Demo.cfg Demo.ada (AuthServer.signed_out 0 Demo.world1))) =
  (AuthServer.mkResponse 200 [] [] [] (AuthServer.JMessageUser "Valid token" Demo.ada),
   AuthServer.set_now 9
     (AuthServer.after_issue Demo.cfg Demo.ada (AuthServer.signed_out 0 Demo.world1))).
Proof.
  destruct (@issued_access_token_opens_me Demo.cfg Demo.lib
              (AuthServer.mkRequest Demo.ada_body Demo.no_cookies)
              (AuthServer.session_response Demo.cfg Demo.lib 200 "Logged in" Demo.ada
                 (AuthServer.signed_out 0 Demo.world1))
              Demo.world1
              (AuthServer.after_issue Demo.cfg Demo.ada
                 (AuthServer.signed_out 0 Demo.world1))
              store_ok_world1 eq_refl)
    as (u & token & Hu & Htoken & Hme).
  injection Hu as <-. injection Htoken as <-.
  exact (Hme 9%Z (AuthServer.mkJwtPayload (Some "0") ["user"] 0 0)
             ltac:(discriminate) eq_refl eq_refl).
Defined.

Lemma issued_refresh_cookie_is_redeemable_witness :
  exists v : string,
    Flow.cookie_value "refreshToken"
      (AuthServer.session_response Demo.cfg Demo.lib 200 "Logged in" Demo.ada
         (AuthServer.signed_out 0 Demo.world1)) = Some v /\
    AuthServer.res_statusCode
      (fst (AuthServer.serve Demo.cfg Demo.lib (AuthServer.refresh Demo.cfg)
              (AuthServer.refresh_request v)
              (AuthServer.set_now 9
                 (AuthServer.after_issue Demo.cfg Demo.ada
                    (AuthServer.signed_out 0 Demo.world1))))) = 200.
Proof.
  destruct (@issued_refresh_cookie_is_redeemable Demo.cfg Demo.lib
              (AuthServer.mkRequest Demo.ada_body Demo.no_cookies)
              (AuthServer.session_response Demo.cfg Demo.lib 200 "Logged in" Demo.ada
                 (AuthServer.signed_out 0 Demo.world1))
              Demo.world1
              (AuthServer.after_issue Demo.cfg Demo.ada
                 (AuthServer.signed_out 0 Demo.world1))
              store_ok_world1 (uuid_source_ok_world1 5) ltac:(discriminate) eq_refl)
    as (u & v & _ & Hv & _ & Hrefresh).
  exists v. split; [exact Hv |]. exact (proj1 (Hrefresh 9%Z)).
Defined.

Lemma refresh_keeps_other_sessions_witness :
  length (AuthServer.tokens_of 0
            (snd (run (AuthServer.exec Demo.cfg Demo.lib)
                      (AuthServer.refresh Demo.cfg (AuthServer.refresh_request "r-old"))
                      Demo.world1))) =
  length (AuthServer.tokens_of 0 Demo.world1).
Proof.
  exact (proj2 (proj2 (@refresh_keeps_other_sessions Demo.cfg Demo.lib
                         (AuthServer.refresh_request "r-old") "r-old"
                         (AuthServer.res_json
                            (AuthServer.setAuthCookies Demo.cfg AuthServer.res0
                               "#" "0.s3cret")
                            (AuthServer.JMessage "Refreshed"))
                         Demo.world1
                         (snd (run (AuthServer.exec Demo.cfg Demo.lib)
                                   (AuthServer.refresh Demo.cfg
                                      (AuthServer.refresh_request "r-old"))
                                   Demo.world1))
                         store_ok_world1 eq_refl eq_refl)) 0).
Defined.

Lemma login_leaves_other_users_alone_witness :
  AuthServer.tokens_of 2
    (snd (run (AuthServer.exec Demo.cfg Demo.lib)
              (AuthServer.login Demo.cfg
                 (AuthServer.mkRequest Demo.ada_body Demo.no_cookies))
              Demo.world2)) = [Demo.row_bob].
Proof.
  pose proof (@login_leaves_other_users_alone Demo.cfg Demo.lib
                (AuthServer.mkRequest Demo.ada_body Demo.no_cookies) Demo.world2 2
                (fun u Hu => match Hu in _ = o
                                   return match o with
                                          | Some x => AuthServer.u_id x <> 2
                                          | None => True
                                          end
                             with eq_refl => fun H : 0 = 2 => O_S 1 H end)) as H.
  cbv zeta in H. exact (proj1 H).
Defined.

Lemma refresh_consumes_the_row_of_a_missing_owner_witness :
  fst (AuthServer.serve Demo.cfg Demo.lib (AuthServer.refresh Demo.cfg)
         (AuthServer.refresh_request "r-old") Demo.orphan_world) =
  AuthServer.mkResponse 403 [] [] [] (AuthServer.JMessage "User not found.") /\
  find (AuthServer.by_token "r-old")
       (AuthServer.refreshTokens
          (snd (AuthServer.serve Demo.cfg Demo.lib (AuthServer.refresh Demo.cfg)
                  (AuthServer.refresh_request "r-old") Demo.orphan_world))) = None.
Proof.
  pose proof (@refresh_consumes_the_row_of_a_missing_owner Demo.cfg Demo.lib
                (AuthServer.refresh_request "r-old") "r-old" Demo.row1 Demo.orphan_world
                store_ok_orphan_world eq_refl ltac:(discriminate) eq_refl eq_refl) as H.
  cbv zeta in H. exact (conj (proj1 H) (proj1 (proj2 H))).
Defined.

Lemma registered_user_can_log_in_witness :
  exists res : AuthServer.Response,
    fst (run (AuthServer.exec Demo.cfg Demo.lib)
             (AuthServer.login Demo.cfg
                (AuthServer.mkRequest Demo.bob_body Demo.no_cookies))
             (snd (run (AuthServer.exec Demo.cfg Demo.lib)
                       (AuthServer.register Demo.cfg
                          (AuthServer.mkRequest Demo.bob_body Demo.no_cookies))
                       Demo.world1))) = inr res /\
    AuthServer.res_statusCode res = 200.
Proof.
  pose proof (@registered_user_can_log_in Demo.cfg Demo.lib
                (AuthServer.mkRequest Demo.bob_body Demo.no_cookies) Demo.world1
                store_ok_world1 (uuid_source_ok_world1 5) eq_refl) as H.
  cbv zeta in H. destruct H as (_ & H).
  destruct (H (AuthServer.mkRequest Demo.bob_body Demo.no_cookies) eq_refl)
    as (Hin & _).
  destruct (Hin eq_refl) as (res & Hres & Hst & _).
  exists res. split; assumption.
Defined.

Lemma any_session_may_delete_any_post_witness :
  Api.posts (snd (run (Api.exec Demo.lib)
                      (Api.delete_route "s3cret" (Demo.api_request "3"))
                      Demo.api_world)) = [] /\
  AuthServer.ObjectId_cast "7" <> Some (Api.p_author Demo.post1).
Proof.
  pose proof (@any_session_may_delete_any_post "s3cret" Demo.lib
                (Demo.api_request "3") Demo.api_world
                (Api.mkReqUser "7" ["user"]) 3 Demo.post1
                posts_ok_api_world eq_refl eq_refl eq_refl) as H.
  cbv zeta in H. destruct H as (_ & Hposts & _).
  split; [exact Hposts | discriminate].
Defined.

Lemma deleted_post_is_gone_witness :
  fst (run (Api.exec Demo.lib) (Api.getSinglePost (Demo.api_request "3"))
           (snd (run (Api.exec Demo.lib) (Api.deletePost (Demo.api_request "3"))
                     Demo.api_world))) = inl (Api.not_found "3").
Proof.
  pose proof (@deleted_post_is_gone Demo.lib
                (Demo.api_request "3") Demo.api_world 3 Demo.post1
                posts_ok_api_world eq_refl eq_refl) as H.
  cbv zeta in H. destruct H as (Hgone & _).
  destruct (Hgone (Demo.api_request "3") eq_refl) as (Hget & _).
  rewrite Hget. reflexivity.
Defined.

Lemma created_post_is_retrievable_witness :
  fst (run (Api.exec Demo.lib) (Api.getSinglePost (Demo.api_request "4"))
           (snd (run (Api.exec Demo.lib) (Api.post_route "s3cret" (Demo.api_request ""))
                     Demo.api_world))) =
  inr (Api.mkResponse 200
         (Api.JPost (Api.mkPost 4 0 [("title", "Sketch")], Some Demo.ada))).
Proof.
  pose proof (@created_post_is_retrievable "s3cret" Demo.lib
                (Demo.api_request "") Demo.api_world (Api.mkReqUser "7" ["user"])
                posts_ok_api_world eq_refl) as H.
  cbv zeta in H. destruct H as (_ & _ & _ & Hget & _).
  rewrite (Hget (Demo.api_request "4") eq_refl). reflexivity.
Defined.

Lemma updated_post_keeps_its_place_witness :
  map Api.p_id
      (Api.posts (snd (run (Api.exec Demo.lib) (Api.updatePost (Demo.api_request "3"))
                           Demo.api_world))) = [3] /\
  find (Api.by_pid 3)
       (Api.posts (snd (run (Api.exec Demo.lib) (Api.updatePost (Demo.api_request "3"))
                            Demo.api_world))) =
  Some (Api.mkPost 3 0 [("title", "Sketch"); ("image", "engine.png")]).
Proof.
  pose proof (@updated_post_keeps_its_place Demo.lib
                (Demo.api_request "3") Demo.api_world 3 Demo.post1
                eq_refl eq_refl) as H.
  cbv zeta in H. destruct H as (_ & Hids & Hfind & _).
  split; [exact Hids | exact Hfind].
Defined.

Lemma cookie_header_round_trip_witness :
  CookieHeader.token_of "theme=dark; token=abc; lang=de" = Some "abc".
Proof.
  pose proof (@cookie_header_round_trip [("theme", "dark")] [("lang", "de")] "abc"
                ltac:(repeat constructor)
                (fun c Hc => match Hc with
                             | or_introl Heq =>
                                 match Heq in _ = x return fst x <> "token" with
                                 | eq_refl => ltac:(discriminate)
                                 end
                             | or_intror Hnone => match Hnone with end
                             end)) as H.
  cbv zeta in H. exact (proj2 H).
Defined.

Lemma cookie_value_is_cut_at_equals_witness :
  CookieHeader.token_of "token=YWJj=" = Some "YWJj".
Proof.
  exact (@cookie_value_is_cut_at_equals "YWJj" "" eq_refl eq_refl).
Defined.

Lemma signUp_then_signIn_witness :
  fst (run (Legacy.exec Demo.legacy_lib)
           (Legacy.signIn Demo.legacy_env Demo.legacy_ada_request)
           (snd (run (Legacy.exec Demo.legacy_lib)
                     (Legacy.signUp Demo.legacy_ada_request) Demo.legacy_empty))) =
  inr (Legacy.mkResponse 201
         [AuthServer.mkCookie "token" "0.s3cret" true AuthServer.SameSiteLax false None]
         (Legacy.JMessage "Welcome back")).
Proof.
  pose proof (@signUp_then_signIn Demo.legacy_env Demo.legacy_lib
                Demo.legacy_ada_request Demo.legacy_ada_request Demo.legacy_empty
                eq_refl eq_refl eq_refl) as H.
  cbv zeta in H. rewrite H. reflexivity.
Defined.

Lemma racing_registrations_end_in_500_witness :
  Races.checks_before_inserts [ReqA; ReqB] = true /\
  let c := Races.register_race Demo.cfg Demo.lib
             (AuthServer.mkRequest Demo.bob_body Demo.no_cookies)
             (AuthServer.mkRequest Demo.bob_body Demo.no_cookies)
             Races.checks_first Demo.world1 in
  ((AuthServer.final_status (fst (fst c)) = Some 201 /\
    AuthServer.final_status (snd (fst c)) = Some 500 /\
    AuthServer.outcome (snd (fst c)) = Some (inl AuthServer.duplicate_key)) \/
   (AuthServer.final_status (snd (fst c)) = Some 201 /\
    AuthServer.final_status (fst (fst c)) = Some 500 /\
    AuthServer.outcome (fst (fst c)) = Some (inl AuthServer.duplicate_key))) /\
  (exists u : AuthServer.User,
      AuthServer.users (snd c) = AuthServer.users Demo.world1 ++ [u] /\
      AuthServer.u_email u = "bob@example.org") /\
  length (AuthServer.new_rows Demo.world1 (snd c)) = 1.
Proof.
  split; [reflexivity |]. cbv zeta.
  apply (@racing_registrations_end_in_500 Demo.cfg Demo.lib
           (AuthServer.mkRequest Demo.bob_body Demo.no_cookies)
           (AuthServer.mkRequest Demo.bob_body Demo.no_cookies) Demo.world1
           [ReqA; ReqB] [ReqA; ReqA; ReqA; ReqA; ReqA; ReqB; ReqB; ReqB] _ _ _
           store_ok_world1 (uuid_source_ok_world1 5) eq_refl eq_refl eq_refl).
  - symmetry. rewrite (surjective_pairing (Races.register_race _ _ _ _ _ _)) at 1.
    rewrite (surjective_pairing (fst (Races.register_race _ _ _ _ _ _))) at 1.
    reflexivity.
  - vm_compute. reflexivity.
  - vm_compute. reflexivity.
Defined.

(** With the second registration ahead after the checks, it is the second
    that is answered 201 and the first that gets 500. *)
Example second_registration_can_win :
  let c := Races.register_race Demo.cfg Demo.lib
             (AuthServer.mkRequest Demo.bob_body Demo.no_cookies)
             (AuthServer.mkRequest Demo.bob_body Demo.no_cookies)
             Races.checks_first_second_ahead Demo.world1 in
  Races.checks_before_inserts [ReqA; ReqB] = true /\
  AuthServer.final_status (snd (fst c)) = Some 201 /\
  AuthServer.final_status (fst (fst c)) = Some 500.
Proof. vm_compute. repeat split. Qed.

Lemma access_tokens_outlive_sessions_witness :
  AuthServer.res_statusCode
    (fst (AuthServer.serve Demo.cfg Demo.lib (AuthServer.me Demo.cfg)
            (Flow.access_request "0.s3cret")
            (AuthServer.run_calls Demo.cfg Demo.lib
               [ AuthServer.CallLogout (AuthServer.refresh_request "r-old");
                 AuthServer.TtlSweep ]
               Demo.world1))) = 200.
Proof.
  rewrite (@access_tokens_outlive_sessions Demo.cfg Demo.lib
             [ AuthServer.CallLogout (AuthServer.refresh_request "r-old");
               AuthServer.TtlSweep ]
             (Flow.access_request "0.s3cret") Demo.world1 eq_refl).
  reflexivity.
Defined.

Lemma api_trusts_the_token_alone_witness :
  AuthServer.res_statusCode
    (fst (AuthServer.serve Demo.cfg Demo.lib (AuthServer.me Demo.cfg)
            (Flow.access_request "0.s3cret") Demo.orphan_world)) = 401 /\
  Api.verdict "s3cret" Demo.lib
    (Revocation.forwarded (Flow.access_request "0.s3cret") "3" (Api.mkPostBody 0 []))
    Demo.api_world = Api.Accepted (Api.mkReqUser "0" ["user"]).
Proof.
  pose proof (@api_trusts_the_token_alone Demo.cfg Demo.lib
                (Flow.access_request "0.s3cret") Demo.orphan_world
                "3" (Api.mkPostBody 0 []) Demo.api_world eq_refl) as H.
  cbv zeta in H. destruct H as [_ H].
  split; [| reflexivity].
  rewrite (H (Api.mkReqUser "0" ["user"]) eq_refl). reflexivity.
Defined.
